(** * hessfree: Hessian-free optimisation, a shallow embedding of the Go sources

    The development follows the three source files:
    - [learner.go]: the [Learner] interface, [DampingLearner] and
      [dampedObjective];
    - the linearizer file: [Linearizer.LinearBatch];
    - the trainer file: [Trainer.Train] and [cgSolver].

    Go's [float64] is IEEE 754 binary64.  It is modelled by the Standard
    Library's primitive [float], specified by [spec_float] at precision 53, whose
    operations round to nearest, ties to even, and have a single NaN.  Go may
    fuse [x*y + z] into one rounding on some targets; the model rounds every
    operation, as the Go specification describes an unfused evaluation. *)

From Stdlib Require Import ZArith List Bool Lia PeanoNat.
From Stdlib Require Import Floats Uint63.
Import ListNotations.

Set Implicit Arguments.

(* ================================================================== *)
(** * float64 *)
(* ================================================================== *)

Module F64.

Definition float64 := PrimFloat.float.

Definition add : float64 -> float64 -> float64 := PrimFloat.add.
Definition sub : float64 -> float64 -> float64 := PrimFloat.sub.
Definition mul : float64 -> float64 -> float64 := PrimFloat.mul.
Definition div : float64 -> float64 -> float64 := PrimFloat.div.
Definition opp : float64 -> float64 := PrimFloat.opp.

(** Go's [x < y], [x <= y], [x == y]; [x > y] is [ltb y x]. *)
Definition ltb : float64 -> float64 -> bool := PrimFloat.ltb.
Definition leb : float64 -> float64 -> bool := PrimFloat.leb.
Definition eqb : float64 -> float64 -> bool := PrimFloat.eqb.
Definition gtb (x y : float64) : bool := PrimFloat.ltb y x.
Definition geb (x y : float64) : bool := PrimFloat.leb y x.

(** The conversion [float64(n)] of an integer of 64 bits. *)
Definition of_Z (n : Z) : float64 :=
  if (n <? 0)%Z then PrimFloat.opp (of_uint63 (Uint63.of_Z (- n)))
  else of_uint63 (Uint63.of_Z n).
Definition of_nat (n : nat) : float64 := of_Z (Z.of_nat n).

Definition zero : float64 := PrimFloat.zero.
Definition one : float64 := PrimFloat.one.
Definition nan : float64 := PrimFloat.nan.
Definition pinf : float64 := PrimFloat.infinity.

(** A constant expression [a / b] of Go is evaluated exactly and rounded
    once when it becomes a [float64]; so is a decimal literal.  Dividing two
    small integers rounds the same exact quotient once. *)
Definition ratio (a b : Z) : float64 := div (of_Z a) (of_Z b).

Definition is_nan : float64 -> bool := PrimFloat.is_nan.
Definition is_zero : float64 -> bool := PrimFloat.is_zero.

(** Neither NaN nor an infinity. *)
Definition is_finite : float64 -> bool := PrimFloat.is_finite.

(** [math.Max], as Go's library writes it: +Inf wins, then NaN, and +0 is
    above -0. *)
Definition Max (x y : float64) : float64 :=
  if eqb x pinf || eqb y pinf then pinf
  else if is_nan x || is_nan y then nan
  else if eqb x zero && eqb x y then (if get_sign x then y else x)
  else if gtb x y then x else y.

(** The conversion [int(x)]: truncation toward zero.  When the value does
    not fit the 64-bit [int] (NaN and the infinities included) Go leaves
    the result to the implementation, and the model gives [None]. *)
Definition truncSF (x : spec_float) : option Z :=
  match x with
  | S754_zero _ => Some 0%Z
  | S754_finite s m e =>
      let a :=
        match e with
        | Z0 => Zpos m
        | Zpos p => Z.shiftl (Zpos m) (Zpos p)
        | Zneg p => Z.shiftr (Zpos m) (Zpos p)
        end in
      let v := if s then Z.opp a else a in
      if ((- 2 ^ 63 <=? v) && (v <? 2 ^ 63))%Z then Some v else None
  | _ => None
  end.

Definition trunc (x : float64) : option Z := truncSF (Prim2SF x).

End F64.

Import F64.

(* ================================================================== *)
(** * Parameter deltas *)
(* ================================================================== *)

(** [linalg.Vector] is a slice of [float64]. *)
Definition Vector := list float64.

(** A [*autofunc.Variable] is used as a map key, by pointer identity: a
    number stands for the pointer. *)
Definition VarId := nat.

(** [ConstParamDelta] is a Go map from variables to vectors.  [None] is the
    nil map, [Some []] the empty map [ConstParamDelta{}].  Go ranges over
    a map in an unspecified order; the model ranges in the order of the list. *)
Definition ConstParamDelta := option (list (VarId * Vector)).

Definition entries (d : ConstParamDelta) : list (VarId * Vector) :=
  match d with Some l => l | None => [] end.

Definition emptyDelta : ConstParamDelta := Some [].

(** [d[v]]: the vector stored for [v], the nil slice when there is none. *)
Fixpoint lookupVar (l : list (VarId * Vector)) (v : VarId) : option Vector :=
  match l with
  | [] => None
  | (k, x) :: r => if Nat.eqb k v then Some x else lookupVar r v
  end.

Definition getVec (d : ConstParamDelta) (v : VarId) : Vector :=
  match lookupVar (entries d) v with Some x => x | None => [] end.

(** Storing through the slice found at [d[v]] changes the map's entry. *)
Fixpoint setVar (l : list (VarId * Vector)) (v : VarId) (x : Vector)
  : list (VarId * Vector) :=
  match l with
  | [] => []
  | (k, y) :: r => if Nat.eqb k v then (k, x) :: r else (k, y) :: setVar r v x
  end.

(** Samples are opaque to this package; only their number matters to the
    functions below. *)
Definition Sample := nat.
Definition SampleSet := list Sample.
Definition Len (s : SampleSet) : Z := Z.of_nat (length s).

(* ================================================================== *)
(** * learner.go *)
(* ================================================================== *)

Module LearnerGo.

(** The live values of the variables, which [AddToVars] changes. *)
Definition VarStore := list (VarId * Vector).

(** The [Objective] interface as [learner.go] uses it.  Its methods are
    functions of their arguments: an Objective is centred once, when it is
    made.  [None] stands for a run-time panic. *)
Record Objective := {
  obj_Quad : ConstParamDelta -> SampleSet -> float64;
  obj_QuadGrad : ConstParamDelta -> SampleSet -> option ConstParamDelta;
  obj_QuadHessian : ConstParamDelta -> SampleSet -> option ConstParamDelta;
  obj_Objective : ConstParamDelta -> SampleSet -> float64
}.

(** The [Learner] interface over a state [L] of the implementation. *)
Record Learner (L : Type) := {
  Parameters : L -> list VarId;
  MakeObjective : L -> Objective * L;
  Adjust : ConstParamDelta -> SampleSet -> L -> L
}.

Definition defaultDampingCoeff : float64 := F64.one.

Record DampingLearner (L : Type) := {
  WrappedLearner : L;
  DampingCoeff : float64;
  lastObjective : option Objective
}.

Record dampedObjective := {
  WrappedObjective : Objective;
  Coeff : float64
}.

(** ** dampedObjective *)

(** The inner loop of [Quad]: [res += scaler * x * x] for each [x]. *)
Definition quadLoop (scaler : float64) (subDelta : Vector) (res : float64)
  : float64 :=
  fold_left (fun res x => add res (mul (mul scaler x) x)) subDelta res.

Definition dampedObjective_Quad (d : dampedObjective)
    (delta : ConstParamDelta) (s : SampleSet) : float64 :=
  let res := obj_Quad (WrappedObjective d) delta s in
  let scaler := of_Z (Len s) in
  fold_left (fun res kv => quadLoop scaler (snd kv) res) (entries delta) res.

(** The inner loop of [QuadGrad] and [QuadHessian]:
    [resVec[i] += scaler * x] at every index of [subDelta]; the store
    panics when [resVec] is the shorter one. *)
Fixpoint addScaled (scaler : float64) (resVec subDelta : Vector)
  : option Vector :=
  match subDelta with
  | [] => Some resVec
  | x :: subDelta' =>
      match resVec with
      | [] => None
      | r :: resVec' =>
          match addScaled scaler resVec' subDelta' with
          | Some t => Some (add r (mul scaler x) :: t)
          | None => None
          end
      end
  end.

Fixpoint gradLoop (scaler : float64) (delta : list (VarId * Vector))
    (res : ConstParamDelta) : option ConstParamDelta :=
  match delta with
  | [] => Some res
  | (variable, subDelta) :: rest =>
      match addScaled scaler (getVec res variable) subDelta with
      | None => None
      | Some resVec =>
          gradLoop scaler rest
            (match res with
             | Some l => Some (setVar l variable resVec)
             | None => None
             end)
      end
  end.

Definition dampedObjective_QuadGrad (d : dampedObjective)
    (delta : ConstParamDelta) (s : SampleSet) : option ConstParamDelta :=
  match obj_QuadGrad (WrappedObjective d) delta s with
  | None => None
  | Some res => gradLoop (of_Z (2 * Len s)) (entries delta) res
  end.

Definition dampedObjective_QuadHessian (d : dampedObjective)
    (delta : ConstParamDelta) (s : SampleSet) : option ConstParamDelta :=
  match obj_QuadHessian (WrappedObjective d) delta s with
  | None => None
  | Some res => gradLoop (of_Z (2 * Len s)) (entries delta) res
  end.

Definition dampedObjective_Objective (d : dampedObjective)
    (delta : ConstParamDelta) (s : SampleSet) : float64 :=
  obj_Objective (WrappedObjective d) delta s.

(** [&dampedObjective{...}] used as an [Objective]. *)
Definition asObjective (d : dampedObjective) : Objective :=
  {| obj_Quad := dampedObjective_Quad d;
     obj_QuadGrad := dampedObjective_QuadGrad d;
     obj_QuadHessian := dampedObjective_QuadHessian d;
     obj_Objective := dampedObjective_Objective d |}.

(** ** DampingLearner *)

(** Modelled from the spec: [ConstParamDelta.AddToVars], whose source is
    not part of the files at hand.  The spec has it commit the delta "by
    adding it to the live parameter values"; each component of a variable's
    value gets the delta's component added.  What it does with a variable
    the store lacks, or with vectors of different lengths, is not settled
    (the spec recommends to fail fast on an unknown parameter); the model
    leaves such a variable alone, and no theorem depends on that: [Adjust]
    only hands the store back. *)
Fixpoint addVec (x y : Vector) : Vector :=
  match x, y with
  | a :: x', b :: y' => add a b :: addVec x' y'
  | _, _ => x
  end.

Definition AddToVars (delta : ConstParamDelta) (vars : VarStore) : VarStore :=
  fold_left
    (fun vars kv =>
       match lookupVar vars (fst kv) with
       | Some cur => setVar vars (fst kv) (addVec cur (snd kv))
       | None => vars
       end)
    (entries delta) vars.

Section Damping.
Variable L : Type.
Variable ops : Learner L.

Definition DampingLearner_Parameters (d : DampingLearner L) : list VarId :=
  Parameters ops (WrappedLearner d).

(** The returned pair is the damped objective and the learner after the
    call. *)
Definition DampingLearner_MakeObjective (d : DampingLearner L)
  : dampedObjective * DampingLearner L :=
  let coeff :=
    if eqb (DampingCoeff d) zero then defaultDampingCoeff
    else DampingCoeff d in
  let (o, w) := MakeObjective ops (WrappedLearner d) in
  ({| WrappedObjective := o; Coeff := coeff |},
   {| WrappedLearner := w; DampingCoeff := coeff; lastObjective := Some o |}).

(** The three evaluations at the head of [Adjust], as the source has
    them. *)
Definition quadOffset (o : Objective) (delta : ConstParamDelta)
    (s : SampleSet) : float64 := obj_Quad o delta s.
Definition centerVal (o : Objective) (s : SampleSet) : float64 :=
  obj_Objective o emptyDelta s.
Definition realOffset (o : Objective) (delta : ConstParamDelta)
    (s : SampleSet) : float64 := obj_Objective o emptyDelta s.

Definition trust (o : Objective) (delta : ConstParamDelta)
    (s : SampleSet) : float64 :=
  div (sub (realOffset o delta s) (centerVal o s))
      (sub (quadOffset o delta s) (centerVal o s)).

(** [Adjust] on a learner whose [lastObjective] is nil dereferences a nil
    interface: [None]. *)
Definition DampingLearner_Adjust (d : DampingLearner L)
    (delta : ConstParamDelta) (s : SampleSet) (vars : VarStore)
  : option (DampingLearner L * VarStore) :=
  match lastObjective d with
  | None => None
  | Some o =>
      let t := trust o delta s in
      let vars' := AddToVars delta vars in
      let coeff :=
        if ltb t (ratio 1 4) then mul (DampingCoeff d) (ratio 3 2)
        else if gtb t (ratio 3 4) then mul (DampingCoeff d) (ratio 2 3)
        else DampingCoeff d in
      Some ({| WrappedLearner := WrappedLearner d;
               DampingCoeff := coeff;
               lastObjective := lastObjective d |}, vars')
  end.
End Damping.

End LearnerGo.


(* ================================================================== *)
(** * The operations of ConstParamDelta *)
(* ================================================================== *)

(** Modelled from the spec: the methods [dot], [addDelta], [scale],
    [magSquared] and [copy] of [ConstParamDelta], whose source file is not
    among the files at hand.  The spec gives: [add(other, scalar)] is the
    in-place [this += scalar * other]; [scale(factor)] the in-place
    [this *= factor]; [dot(other)] the "sum over keys of inner products";
    [magnitudeSquared()] is [dot(self)]; [copy()] a deep copy; operations
    are pointwise per key and an absent key contributes nothing. *)
Fixpoint inner (x y : Vector) (acc : float64) : float64 :=
  match x, y with
  | a :: x', b :: y' => inner x' y' (add acc (mul a b))
  | _, _ => acc
  end.

Definition dot (a b : ConstParamDelta) : float64 :=
  fold_left
    (fun acc kv => add acc (inner (snd kv) (getVec b (fst kv)) zero))
    (entries a) zero.

Definition magSquared (a : ConstParamDelta) : float64 := dot a a.

Fixpoint axpy (scalar : float64) (x y : Vector) : Vector :=
  match x, y with
  | a :: x', b :: y' => add a (mul scalar b) :: axpy scalar x' y'
  | _, _ => x
  end.

Definition addDelta (this other : ConstParamDelta) (scalar : float64)
  : ConstParamDelta :=
  match this with
  | None => None
  | Some l =>
      Some (map (fun kv => (fst kv, axpy scalar (snd kv) (getVec other (fst kv)))) l)
  end.

Definition scale (this : ConstParamDelta) (factor : float64) : ConstParamDelta :=
  match this with
  | None => None
  | Some l => Some (map (fun kv => (fst kv, map (fun x => mul x factor) (snd kv))) l)
  end.

Definition copy (this : ConstParamDelta) : ConstParamDelta :=
  Some (entries this).

(** [c == nil] on a map. *)
Definition isNil (d : ConstParamDelta) : bool :=
  match d with None => true | Some _ => false end.

(* ================================================================== *)
(** * The linearizer *)
(* ================================================================== *)

Module LinearizerGo.

(** What [LinearBatch] reads of an [autofunc.RResult]: its output and the
    derivative of the output along the seeded direction. *)
Record RResult := {
  Output : Vector;
  ROutput : Vector
}.

(** [autofunc.RVector] maps variables to the components of a direction. *)
Definition RVector := list (VarId * Vector).

(** [ParamDelta] as this file declares it. *)
Definition ParamDelta := list (VarId * RResult).

Definition outputRVector (p : ParamDelta) : RVector :=
  map (fun kv => (fst kv, Output (snd kv))) p.

Definition rOutputRVector (p : ParamDelta) : RVector :=
  map (fun kv => (fst kv, ROutput (snd kv))) p.

(** [autofunc.NewRVariable(v, rv)] for a variable [v] that [rv] does not
    hold: the variable's vector with a zero derivative. *)
Definition NewRVariable (vec : Vector) : RResult :=
  {| Output := vec; ROutput := repeat zero (length vec) |}.

(** [autofunc.RBatcher]: [BatchR(rv, in, n)]. *)
Record RBatcher := {
  BatchR : RVector -> RResult -> Z -> RResult
}.

Record Linearizer := {
  Batcher : RBatcher
}.

Record linearizerResult := {
  OutputVec : Vector;
  BatcherOutput : RResult;
  Delta : ParamDelta
}.

(** [v.Add(v1)] of [linalg.Vector], a package that is not at hand: the sum
    of two vectors, component by component, stored in [v].  The two vectors
    of one [RResult] have one length, and the theorems apply [vecAdd] to
    vectors of one length only; what it gives on others (here the loop
    [v[i] += v1[i]] over [v1]) is not relied on. *)
Fixpoint vecAdd (v v1 : Vector) : option Vector :=
  match v1 with
  | [] => Some v
  | x :: v1' =>
      match v with
      | [] => None
      | a :: v' =>
          match vecAdd v' v1' with
          | Some t => Some (add a x :: t)
          | None => None
          end
      end
  end.

Definition LinearBatch (l : Linearizer) (d : ParamDelta) (ins : Vector) (n : Z)
  : option linearizerResult :=
  let insRVar := NewRVariable ins in
  let output := BatchR (Batcher l) (outputRVector d) insRVar n in
  match vecAdd (Output output) (ROutput output) with
  | None => None
  | Some v => Some {| OutputVec := v; BatcherOutput := output; Delta := d |}
  end.

Definition linearizerResult_Output (l : linearizerResult) : Vector :=
  OutputVec l.

(** [ParamRDelta], the delta of [LinearBatchR], is declared in a file that
    is not at hand.  [LinearBatchR] calls two methods on it,
    [outputRVector] and [rOutputRVector]: they are the interface that the
    model asks of a type [D] of such deltas. *)
Record ParamRDelta (D : Type) := {
  rd_outputRVector : D -> RVector;
  rd_rOutputRVector : D -> RVector
}.

Record linearizerRResult (D : Type) := {
  OutputVecR : Vector;
  ROutputVec : Vector;
  BatcherOutputR : RResult;
  DeltaR : D
}.

Definition LinearBatchR (D : Type) (m : ParamRDelta D) (l : Linearizer)
    (d : D) (ins : Vector) (n : Z) : option (linearizerRResult D) :=
  let insRVar := NewRVariable ins in
  let output := BatchR (Batcher l) (rd_outputRVector m d) insRVar n in
  let outputR := BatchR (Batcher l) (rd_rOutputRVector m d) insRVar n in
  match vecAdd (Output output) (ROutput output) with
  | None => None
  | Some v =>
      Some {| OutputVecR := v; ROutputVec := ROutput outputR;
              BatcherOutputR := output; DeltaR := d |}
  end.

Definition linearizerRResult_Output (D : Type) (l : linearizerRResult D)
  : Vector := OutputVecR l.

Definition linearizerRResult_ROutput (D : Type) (l : linearizerRResult D)
  : Vector := ROutputVec l.

End LinearizerGo.


(* ================================================================== *)
(** * The trainer and the conjugate gradient solver *)
(* ================================================================== *)

Module TrainerGo.

(** The result of a function that can panic ([Fail]: an index out of
    range, or a conversion whose result Go leaves to the implementation) or
    whose loop is cut by the fuel of the model ([Timeout]). *)
Inductive res (A : Type) : Type :=
| Ok (a : A)
| Fail
| Timeout.
Arguments Fail {A}.
Arguments Timeout {A}.

Definition defaultConvergenceMinK : float64 := of_Z 10.
Definition defaultConvergenceKScale : float64 := ratio 1 10.
Definition defaultConvergenceEpsilon : float64 := ratio 5 10000.
Definition defaultBacktrackRate : float64 := ratio 13 10.

Record ConvergenceCriteria := {
  MinK : float64;
  KScale : float64;
  Epsilon : float64
}.

(** The [Objective] interface as the trainer calls it. *)
Record Objective := {
  obj_Objective : ConstParamDelta -> SampleSet -> float64;
  obj_QuadGrad : ConstParamDelta -> SampleSet -> ConstParamDelta;
  obj_QuadHessian :
    ConstParamDelta -> ConstParamDelta -> SampleSet -> ConstParamDelta * float64
}.

(** Where [Train] polls [UI.ShouldStop]. *)
Inductive PollSite := BeforeMiniBatch | AfterStep.

(** What the trainer does to its collaborators, in order.  The epoch and
    mini-batch numbers on a poll and on [EvAdjust] are the values of the
    variables [epoch] and [miniBatch] of [Train] at that point. *)
Inductive Event :=
| EvShouldStop (site : PollSite) (epoch miniBatch : nat) (answer : bool)
| EvLogNewMiniBatch (epoch miniBatch : nat)
| EvLogCGStart (quadValue startObjective : float64)
| EvLogCGIteration (stepSize quadValue : float64)
| EvAdjust (epoch miniBatch : nat) (useDelta lastSolution : ConstParamDelta)
    (subset : SampleSet).

(** The [UI]: its answer to a poll may depend on everything that happened
    before. *)
Record UI := {
  ShouldStop : list Event -> bool
}.

(** The [Learner] interface over a state [L] of the implementation, with
    [Adjust] as [Train] calls it.  [Parameters] gives every variable with
    its current vector.  The deltas handed to [Adjust] are read, not
    changed, by it. *)
Record Learner (L : Type) := {
  Parameters : L -> list (VarId * Vector);
  MakeObjective : L -> Objective * L;
  Adjust : ConstParamDelta -> ConstParamDelta -> SampleSet -> L -> L
}.

Record Trainer (L : Type) := {
  t_Learner : Learner L;
  t_Samples : SampleSet;
  t_BatchSize : Z;
  t_UI : UI;
  t_Convergence : ConvergenceCriteria;
  t_BacktrackRate : float64
}.

(** The state outside the solver: the learner and the history of events. *)
Record World (L : Type) := {
  learner : L;
  trace : list Event
}.

Record cgSolver := {
  c_Objective : Objective;
  c_Samples : SampleSet;
  Solution : ConstParamDelta;
  residual : ConstParamDelta;
  projectedResidual : ConstParamDelta;
  residualMag2 : float64;
  hessianProduct : ConstParamDelta;
  lastQuadValue : float64;
  justBacktracked : bool;
  backtrackCount : Z;
  backtrackDeltas : list ConstParamDelta;
  backtrackValues : list float64;
  startObjective : float64;
  quadValues : list float64
}.

(** The solver [Train] builds for a mini-batch: every other field has Go's
    zero value. *)
Definition newSolver (o : Objective) (subset : SampleSet)
    (lastSolution : ConstParamDelta) : cgSolver :=
  {| c_Objective := o; c_Samples := subset; Solution := lastSolution;
     residual := None; projectedResidual := None; residualMag2 := zero;
     hessianProduct := None; lastQuadValue := zero;
     justBacktracked := false; backtrackCount := 0%Z;
     backtrackDeltas := []; backtrackValues := [];
     startObjective := zero; quadValues := [] |}.

Definition logEvent {L : Type} (e : Event) (w : World L) : World L :=
  {| learner := learner w; trace := trace w ++ [e] |}.

(** ** cgSolver.converging *)

Definition orDefault (x d : float64) : float64 :=
  if eqb x zero then d else x.

(** The window [k] of the convergence test for [n] recorded values. *)
Definition convergenceK (cc : ConvergenceCriteria) (n : nat) : option Z :=
  let kScale := orDefault (KScale cc) defaultConvergenceKScale in
  let minK := orDefault (MinK cc) defaultConvergenceMinK in
  trunc (Max minK (mul kScale (of_nat n))).

Definition lastValue (q : list float64) : float64 :=
  nth (length q - 1) q zero.

Definition converging (cc : ConvergenceCriteria) (c : cgSolver) : res bool :=
  let q := quadValues c in
  let n := length q in
  if (n <? 2)%nat || gtb (lastValue q) (startObjective c) then Ok false
  else
    let eps := orDefault (Epsilon cc) defaultConvergenceEpsilon in
    match convergenceK cc n with
    | None => Fail
    | Some k =>
        if (k >=? Z.of_nat n)%Z then Ok false
        else if (k <? 0)%Z then Fail
        else
          let currentImprovement := sub (lastValue q) (startObjective c) in
          let oldImprovement :=
            sub (nth (n - 1 - Z.to_nat k) q zero) (startObjective c) in
          Ok (ltb (div (sub currentImprovement oldImprovement) currentImprovement)
                  (mul (of_Z k) eps))
    end.

(** ** cgSolver.Best *)

(** The scan of [Best] from index [i] on, over the values still to read. *)
Fixpoint bestLoop (deltas : list ConstParamDelta) (values : list float64)
    (i : nat) (bestVal : float64) (bestDelta : ConstParamDelta)
  : res ConstParamDelta :=
  match values with
  | [] => Ok bestDelta
  | v :: rest =>
      if ltb v bestVal || (i =? 0)%nat then
        match nth_error deltas i with
        | None => Fail
        | Some d => bestLoop deltas rest (S i) v d
        end
      else bestLoop deltas rest (S i) bestVal bestDelta
  end.

(** The checkpoint [Best] takes first, unless one was just taken. *)
Definition finalCheckpoint (c : cgSolver) : cgSolver :=
  if justBacktracked c then c
  else
    let btValue := obj_Objective (c_Objective c) (Solution c) (c_Samples c) in
    {| c_Objective := c_Objective c; c_Samples := c_Samples c;
       Solution := Solution c; residual := residual c;
       projectedResidual := projectedResidual c;
       residualMag2 := residualMag2 c; hessianProduct := hessianProduct c;
       lastQuadValue := lastQuadValue c;
       justBacktracked := true; backtrackCount := backtrackCount c;
       backtrackDeltas := backtrackDeltas c ++ [Solution c];
       backtrackValues := backtrackValues c ++ [btValue];
       startObjective := startObjective c; quadValues := quadValues c |}.

Definition Best (c : cgSolver) : res (ConstParamDelta * cgSolver) :=
  let c' := finalCheckpoint c in
  match bestLoop (backtrackDeltas c') (backtrackValues c') 0 zero None with
  | Ok d => Ok (d, c')
  | Fail => Fail
  | Timeout => Timeout
  end.

(** How a run of [Train], or of the loop over [Step], ends: it returns, it
    panics, or the fuel of the model is spent; the last two keep the world
    reached.  [Panicked] also stands for a run that has left what Go
    defines: after a conversion [int(x)] of a value that does not fit, whose
    result is left to the implementation, the code need not panic. *)
Inductive outcome (L A : Type) : Type :=
| Returned (a : A)
| Panicked (w : World L)
| OutOfFuel (w : World L).
Arguments Returned {L A} a.
Arguments Panicked {L A} w.
Arguments OutOfFuel {L A} w.

Section Solver.
Variable L : Type.

(** [math.Pow] belongs to Go's library. *)
Variable math_Pow : float64 -> float64 -> float64.

(** [sgd.ShuffleSampleSet] draws a random order; the order drawn for each
    epoch is given. *)
Variable shuffle : nat -> SampleSet -> SampleSet.

Variable t : Trainer L.

(** ** cgSolver.zeroDelta *)

Definition zeroDelta (l : L) : ConstParamDelta :=
  Some (map (fun param => (fst param, repeat zero (length (snd param))))
            (Parameters (t_Learner t) l)).

(** ** cgSolver.initializeIfNeeded *)

Definition initializeIfNeeded (c : cgSolver) (w : World L)
  : cgSolver * World L :=
  let solution := if isNil (Solution c) then zeroDelta (learner w) else Solution c in
  if isNil (residual c) then
    let r := scale (obj_QuadGrad (c_Objective c) solution (c_Samples c)) (of_Z (-1)) in
    let p := copy r in
    let start := obj_Objective (c_Objective c) emptyDelta (c_Samples c) in
    let hq := obj_QuadHessian (c_Objective c) p solution (c_Samples c) in
    ({| c_Objective := c_Objective c; c_Samples := c_Samples c;
        Solution := solution; residual := r; projectedResidual := p;
        residualMag2 := magSquared r; hessianProduct := fst hq;
        lastQuadValue := lastQuadValue c;
        justBacktracked := justBacktracked c;
        backtrackCount := backtrackCount c;
        backtrackDeltas := backtrackDeltas c;
        backtrackValues := backtrackValues c;
        startObjective := start; quadValues := quadValues c |},
     logEvent (EvLogCGStart (snd hq) start) w)
  else
    ({| c_Objective := c_Objective c; c_Samples := c_Samples c;
        Solution := solution; residual := residual c;
        projectedResidual := projectedResidual c;
        residualMag2 := residualMag2 c; hessianProduct := hessianProduct c;
        lastQuadValue := lastQuadValue c;
        justBacktracked := justBacktracked c;
        backtrackCount := backtrackCount c;
        backtrackDeltas := backtrackDeltas c;
        backtrackValues := backtrackValues c;
        startObjective := startObjective c; quadValues := quadValues c |},
     w).

(** ** cgSolver.updateBacktracking *)

(** The loop [for int(math.Pow(btRate, float64(count))) <= doneIters]. *)
Fixpoint backtrackLoop (fuel : nat) (btRate : float64) (doneIters : Z)
    (count : Z) : res Z :=
  match fuel with
  | O => Timeout
  | S fuel' =>
      match trunc (math_Pow btRate (of_Z count)) with
      | None => Fail
      | Some v =>
          if (v <=? doneIters)%Z
          then backtrackLoop fuel' btRate doneIters (count + 1)%Z
          else Ok count
      end
  end.

Definition updateBacktracking (fuel : nat) (c : cgSolver) : res cgSolver :=
  let doneIters := Z.of_nat (length (quadValues c)) in
  let btRate := orDefault (t_BacktrackRate t) defaultBacktrackRate in
  let expValue := math_Pow btRate (of_Z (backtrackCount c)) in
  match trunc expValue with
  | None => Fail
  | Some v =>
      if (v >? doneIters)%Z then Ok c
      else
        match backtrackLoop fuel btRate doneIters (backtrackCount c) with
        | Ok count =>
            let btValue :=
              obj_Objective (c_Objective c) (Solution c) (c_Samples c) in
            Ok {| c_Objective := c_Objective c; c_Samples := c_Samples c;
                  Solution := Solution c; residual := residual c;
                  projectedResidual := projectedResidual c;
                  residualMag2 := residualMag2 c;
                  hessianProduct := hessianProduct c;
                  lastQuadValue := lastQuadValue c;
                  justBacktracked := true; backtrackCount := count;
                  backtrackDeltas := backtrackDeltas c ++ [copy (Solution c)];
                  backtrackValues := backtrackValues c ++ [btValue];
                  startObjective := startObjective c;
                  quadValues := quadValues c |}
        | Fail => Fail
        | Timeout => Timeout
        end
  end.

(** ** cgSolver.Step *)

(** The test that ends the run before any update. *)
Definition degenerate (c : cgSolver) : bool :=
  let projHessianMag := dot (projectedResidual c) (hessianProduct c) in
  eqb projHessianMag zero || eqb (residualMag2 c) zero.

(** The update of one iteration, up to the call of [QuadHessian] and the
    log of the iteration. *)
Definition iterate (c : cgSolver) (w : World L) : cgSolver * World L :=
  let projHessianMag := dot (projectedResidual c) (hessianProduct c) in
  let stepSize := div (residualMag2 c) projHessianMag in
  let solution := addDelta (Solution c) (projectedResidual c) stepSize in
  let oldRMag2 := residualMag2 c in
  let r := addDelta (residual c) (hessianProduct c) (opp stepSize) in
  let rMag2 := magSquared r in
  let beta := div rMag2 oldRMag2 in
  let p := addDelta (scale (projectedResidual c) beta) r (of_Z 1) in
  let hq := obj_QuadHessian (c_Objective c) p solution (c_Samples c) in
  ({| c_Objective := c_Objective c; c_Samples := c_Samples c;
      Solution := solution; residual := r; projectedResidual := p;
      residualMag2 := rMag2; hessianProduct := fst hq;
      lastQuadValue := lastQuadValue c;
      justBacktracked := false; backtrackCount := backtrackCount c;
      backtrackDeltas := backtrackDeltas c;
      backtrackValues := backtrackValues c;
      startObjective := startObjective c;
      quadValues := quadValues c ++ [snd hq] |},
   logEvent (EvLogCGIteration stepSize (snd hq)) w).

(** [Step] gives [shouldContinue], the solver and the world after it. *)
Definition Step (fuel : nat) (c : cgSolver) (w : World L)
  : res (bool * cgSolver * World L) :=
  let (c0, w0) := initializeIfNeeded c w in
  if degenerate c0 then Ok (false, c0, w0)
  else
    let (c1, w1) := iterate c0 w0 in
    match converging (t_Convergence t) c1 with
    | Ok true => Ok (false, c1, w1)
    | Ok false =>
        match updateBacktracking fuel c1 with
        | Ok c2 => Ok (true, c2, w1)
        | Fail => Fail
        | Timeout => Timeout
        end
    | Fail => Fail
    | Timeout => Timeout
    end.

(** ** Trainer.Train *)

Definition poll (site : PollSite) (epoch miniBatch : nat) (w : World L)
  : bool * World L :=
  let answer := ShouldStop (t_UI t) (trace w) in
  (answer, logEvent (EvShouldStop site epoch miniBatch answer) w).

(** The loop [for solver.Step() { if t.UI.ShouldStop() { return } }]:
    [Returned (None, w)] when the poll stopped the run,
    [Returned (Some c, w)] when [Step] gave false. *)
Fixpoint cgLoop (fuel : nat) (epoch miniBatch : nat) (c : cgSolver)
    (w : World L) : outcome L (option cgSolver * World L) :=
  match fuel with
  | O => OutOfFuel w
  | S fuel' =>
      match Step fuel' c w with
      | Ok (true, c', w') =>
          let (stop, w'') := poll AfterStep epoch miniBatch w' in
          if stop then Returned (None, w'')
          else cgLoop fuel' epoch miniBatch c' w''
      | Ok (false, c', w') => Returned (Some c', w')
      | Fail => Panicked w
      | Timeout => OutOfFuel w
      end
  end.

(** [shuffled.Subset(i, j)], a slice of the samples. *)
Definition Subset (s : SampleSet) (i j : Z) : option SampleSet :=
  if ((0 <=? i) && (i <=? j) && (j <=? Len s))%Z
  then Some (firstn (Z.to_nat (j - i)) (skipn (Z.to_nat i) s))
  else None.

(** The two loops of [Train]: one turn is a mini-batch, or the step from an
    epoch to the next when [i] has passed the samples. *)
Fixpoint trainLoop (fuel : nat) (epoch miniBatch : nat) (i : Z)
    (shuffled : SampleSet) (lastSolution : ConstParamDelta) (w : World L)
  : outcome L (World L) :=
  match fuel with
  | O => OutOfFuel w
  | S fuel' =>
      if (i <? Len shuffled)%Z then
        let bs :=
          if (t_BatchSize t >? Len shuffled - i)%Z
          then (Len shuffled - i)%Z else t_BatchSize t in
        match Subset shuffled i (i + bs) with
        | None => Panicked w
        | Some subset =>
            let (stop, w1) := poll BeforeMiniBatch epoch miniBatch w in
            if stop then Returned w1
            else
              let w2 := logEvent (EvLogNewMiniBatch epoch miniBatch) w1 in
              let (o, l) := MakeObjective (t_Learner t) (learner w2) in
              let w3 := {| learner := l; trace := trace w2 |} in
              let solver := newSolver o subset lastSolution in
              match cgLoop fuel' epoch miniBatch solver w3 with
              | Returned (None, w4) => Returned w4
              | Returned (Some c, w4) =>
                  match Best c with
                  | Ok (useDelta, c') =>
                      let lastSolution' := Solution c' in
                      let w5 :=
                        {| learner :=
                             Adjust (t_Learner t) useDelta lastSolution' subset
                                    (learner w4);
                           trace :=
                             trace w4 ++
                             [EvAdjust epoch miniBatch useDelta lastSolution'
                                       subset] |} in
                      trainLoop fuel' epoch (S miniBatch) (i + t_BatchSize t)%Z
                                shuffled lastSolution' w5
                  | _ => Panicked w4
                  end
              | Panicked w4 => Panicked w4
              | OutOfFuel w4 => OutOfFuel w4
              end
        end
      else
        trainLoop fuel' (S epoch) 0 0%Z (shuffle (S epoch) (t_Samples t))
                  lastSolution w
  end.

Definition Train (fuel : nat) (l : L) : outcome L (World L) :=
  trainLoop fuel 0 0 0%Z (shuffle 0 (t_Samples t)) None
            {| learner := l; trace := [] |}.

End Solver.

End TrainerGo.


(* ================================================================== *)
(** * Concrete objectives, learners and trainers *)
(* ================================================================== *)

Module Examples.

(** The first two components of the vector of variable 0. *)
Definition vec2 (d : ConstParamDelta) : float64 * float64 :=
  match getVec d 0 with
  | x :: y :: _ => (x, y)
  | [x] => (x, zero)
  | [] => (zero, zero)
  end.

(** ** For learner.go *)

(** A one-parameter cost [(1 - x)^2] whose quadratic model is the cost
    itself. *)
Definition squareCost (d : ConstParamDelta) (s : SampleSet) : float64 :=
  let x := fst (vec2 d) in mul (sub one x) (sub one x).

Definition squareObjective : LearnerGo.Objective :=
  {| LearnerGo.obj_Quad := squareCost;
     LearnerGo.obj_QuadGrad := fun d _ => Some (Some [(0%nat, [zero])]);
     LearnerGo.obj_QuadHessian := fun d _ => Some (Some [(0%nat, [zero])]);
     LearnerGo.obj_Objective := squareCost |}.

(** The objective that is zero everywhere. *)
Definition nullObjective : LearnerGo.Objective :=
  {| LearnerGo.obj_Quad := fun _ _ => zero;
     LearnerGo.obj_QuadGrad := fun _ _ => Some (Some [(0%nat, [zero])]);
     LearnerGo.obj_QuadHessian := fun _ _ => Some (Some [(0%nat, [zero])]);
     LearnerGo.obj_Objective := fun _ _ => zero |}.

(** A cost that has overflowed: infinite at every delta, with a quadratic
    model that is zero. *)
Definition overflowObjective : LearnerGo.Objective :=
  {| LearnerGo.obj_Quad := fun _ _ => zero;
     LearnerGo.obj_QuadGrad := fun _ _ => Some (Some [(0%nat, [zero])]);
     LearnerGo.obj_QuadHessian := fun _ _ => Some (Some [(0%nat, [zero])]);
     LearnerGo.obj_Objective := fun _ _ => pinf |}.

Definition unitLearner (o : LearnerGo.Objective) : LearnerGo.Learner unit :=
  {| LearnerGo.Parameters := fun _ => [0%nat];
     LearnerGo.MakeObjective := fun l => (o, l);
     LearnerGo.Adjust := fun _ _ l => l |}.

(** The delta that moves variable 0 by one. *)
Definition stepOne : ConstParamDelta := Some [(0%nat, [one])].

Definition oneSample : SampleSet := [0%nat].

Definition damping (coeff : float64) (o : LearnerGo.Objective)
  : LearnerGo.DampingLearner unit :=
  {| LearnerGo.WrappedLearner := tt;
     LearnerGo.DampingCoeff := coeff;
     LearnerGo.lastObjective := Some o |}.

(** ** For the linearizer *)

(** A batcher whose output is the input and whose derivative along a
    direction is the direction's component for variable 0. *)
Definition seedBatcher : LinearizerGo.RBatcher :=
  {| LinearizerGo.BatchR := fun rv ins _ =>
       {| LinearizerGo.Output := LinearizerGo.Output ins;
          LinearizerGo.ROutput :=
            match lookupVar rv 0 with Some v => v | None => [] end |} |}.

Definition seedDelta : LinearizerGo.ParamDelta :=
  [(0%nat, {| LinearizerGo.Output := [of_Z 3; of_Z 4];
              LinearizerGo.ROutput := [zero; zero] |})].

(** ** For the trainer *)

(** The quadratic model with the matrix diag(1, 16) and the gradient
    (-2, -1) at the centre: conjugate gradient reaches its minimum
    (2, 1/16) in two iterations, without rounding.  The true cost is the
    squared length of the delta, which grows along the run. *)
Definition quadGrad2 (d : ConstParamDelta) (s : SampleSet) : ConstParamDelta :=
  let '(x, y) := vec2 d in
  Some [(0%nat, [sub x (of_Z 2); sub (mul (of_Z 16) y) (of_Z 1)])].

Definition quadHessian2 (p d : ConstParamDelta) (s : SampleSet)
  : ConstParamDelta * float64 :=
  let '(px, py) := vec2 p in
  let '(x, y) := vec2 d in
  (Some [(0%nat, [px; mul (of_Z 16) py])],
   sub (sub (add (mul (ratio 1 2) (mul x x)) (mul (of_Z 8) (mul y y)))
            (mul (of_Z 2) x)) y).

Definition lengthCost (d : ConstParamDelta) (s : SampleSet) : float64 :=
  let '(x, y) := vec2 d in add (mul x x) (mul y y).

Definition growingObjective : TrainerGo.Objective :=
  {| TrainerGo.obj_Objective := lengthCost;
     TrainerGo.obj_QuadGrad := quadGrad2;
     TrainerGo.obj_QuadHessian := quadHessian2 |}.

(** The same model with a true cost that is not a number at the first
    iterate (1/2, 1/4). *)
Definition nanCost (d : ConstParamDelta) (s : SampleSet) : float64 :=
  let '(x, y) := vec2 d in
  if eqb x (ratio 1 2) then nan else add (mul x x) (mul y y).

Definition nanObjective : TrainerGo.Objective :=
  {| TrainerGo.obj_Objective := nanCost;
     TrainerGo.obj_QuadGrad := quadGrad2;
     TrainerGo.obj_QuadHessian := quadHessian2 |}.

Definition fixedLearner (o : TrainerGo.Objective) : TrainerGo.Learner unit :=
  {| TrainerGo.Parameters := fun _ => [(0%nat, [zero; zero])];
     TrainerGo.MakeObjective := fun l => (o, l);
     TrainerGo.Adjust := fun _ _ _ l => l |}.

(** [math.Pow] at a whole exponent, by repeated product: exact for the
    rate 2 used below. *)
Fixpoint powNat (b : float64) (n : nat) : float64 :=
  match n with
  | O => one
  | S n' => mul b (powNat b n')
  end.

Definition powInt (b e : float64) : float64 :=
  match trunc e with
  | Some n => powNat b (Z.to_nat n)
  | None => nan
  end.

Definition keepOrder (epoch : nat) (s : SampleSet) : SampleSet := s.

Definition isAdjust (e : TrainerGo.Event) : bool :=
  match e with TrainerGo.EvAdjust _ _ _ _ _ => true | _ => false end.

(** A user who stops the run once [n] deltas are committed. *)
Definition stopAfter (n : nat) : TrainerGo.UI :=
  {| TrainerGo.ShouldStop := fun tr => (n <=? length (filter isAdjust tr))%nat |}.

(** A user who stops the run at the poll number [n], counted from 0. *)
Definition isPoll (e : TrainerGo.Event) : bool :=
  match e with TrainerGo.EvShouldStop _ _ _ _ => true | _ => false end.

Definition stopAtPoll (n : nat) : TrainerGo.UI :=
  {| TrainerGo.ShouldStop := fun tr => (n <=? length (filter isPoll tr))%nat |}.

Definition defaults : TrainerGo.ConvergenceCriteria :=
  {| TrainerGo.MinK := zero; TrainerGo.KScale := zero;
     TrainerGo.Epsilon := zero |}.

Definition trainer2 (ui : TrainerGo.UI) (o : TrainerGo.Objective)
  : TrainerGo.Trainer unit :=
  {| TrainerGo.t_Learner := fixedLearner o;
     TrainerGo.t_Samples := [0%nat; 1%nat];
     TrainerGo.t_BatchSize := 1%Z;
     TrainerGo.t_UI := ui;
     TrainerGo.t_Convergence := defaults;
     TrainerGo.t_BacktrackRate := of_Z 2 |}.

(** A solver at rest, with the starting objective [start] and the recorded
    quadratic values [q]. *)
Definition solverWith (start : float64) (q : list float64)
  : TrainerGo.cgSolver :=
  {| TrainerGo.c_Objective := growingObjective;
     TrainerGo.c_Samples := [0%nat];
     TrainerGo.Solution := Some [(0%nat, [of_Z 2; ratio 1 16])];
     TrainerGo.residual := Some [(0%nat, [zero; zero])];
     TrainerGo.projectedResidual := Some [(0%nat, [zero; zero])];
     TrainerGo.residualMag2 := zero;
     TrainerGo.hessianProduct := Some [(0%nat, [zero; zero])];
     TrainerGo.lastQuadValue := zero;
     TrainerGo.justBacktracked := false;
     TrainerGo.backtrackCount := 4%Z;
     TrainerGo.backtrackDeltas := [];
     TrainerGo.backtrackValues := [];
     TrainerGo.startObjective := start;
     TrainerGo.quadValues := q |}.

(** Eleven values, all -1, under a starting objective 0. *)
Definition flatRun : TrainerGo.cgSolver :=
  solverWith zero (repeat (of_Z (-1)) 11).

(** Eleven values, the first 1 and the others 0, under a starting
    objective 0. *)
Definition levelRun : TrainerGo.cgSolver :=
  solverWith zero (one :: repeat zero 10).

End Examples.


(* ================================================================== *)
(** * Definitions for the statements *)
(* ================================================================== *)

(** ** The order of float64 *)

(** A float that is a number is placed by three integers, compared
    one after the other: its class (-2 and 2 for the infinities, -1 and 1
    for the other numbers by sign, 0 for the zeros), then exponent and
    mantissa, both negated below zero. *)
Definition rank (x : spec_float) : Z * Z * Z :=
  match x with
  | S754_zero _ => (0, 0, 0)%Z
  | S754_infinity s => (if s then (-2)%Z else 2%Z, 0%Z, 0%Z)
  | S754_nan => (0, 0, 0)%Z
  | S754_finite s m e =>
      if s then ((-1)%Z, (- e)%Z, Zneg m) else (1%Z, e, Zpos m)
  end.

Definition lexlt (a b : Z * Z * Z) : Prop :=
  (fst (fst a) < fst (fst b)
   \/ (fst (fst a) = fst (fst b)
       /\ (snd (fst a) < snd (fst b)
           \/ (snd (fst a) = snd (fst b) /\ snd a < snd b))))%Z.

Definition sf_nan (x : spec_float) : bool :=
  match x with S754_nan => true | _ => false end.

Definition frank (x : float64) : Z * Z * Z := rank (Prim2SF x).

(** ** Classes of floats *)

Definition sf_zero (x : spec_float) : bool :=
  match x with S754_zero _ => true | _ => false end.

Definition sf_finite (x : spec_float) : bool :=
  match x with S754_zero _ | S754_finite _ _ _ => true | _ => false end.

(** ** Rounding *)

(** The exponent of the format for a number of [z] digits above the point. *)
Definition fexp64 (z : Z) : Z := Z.max (z - 53) (-1074).

(** The second stage of [binary_round_aux]: a rounded mantissa is shifted
    once more when rounding gave it a digit too many. *)
Definition finish (s : bool) (m2 e1 : Z) : spec_float :=
  let '(mrs, e) := shr_fexp FloatOps.prec FloatOps.emax m2 e1 loc_Exact in
  match shr_m mrs with
  | Z0 => S754_zero s
  | Zpos m =>
      if (e <=? FloatOps.emax - FloatOps.prec)%Z then S754_finite s m e
      else S754_infinity s
  | Zneg _ => S754_nan
  end.

(** The result is an infinity, or a number whose exponent is at least [e1]
    and whose mantissa, at the exponent [e1], is at least [m2]. *)
Definition atLeast (s : bool) (m2 e1 : Z) (r : spec_float) : Prop :=
  r = S754_infinity s
  \/ exists m' e',
      r = S754_finite s m' e'
      /\ (e1 <= e')%Z /\ (e' = e1 -> (m2 <= Zpos m')%Z).

(** ** Vectors *)

(** The sum of two vectors, component by component. *)
Fixpoint zipAdd (x y : Vector) : Vector :=
  match x, y with
  | a :: x', b :: y' => add a b :: zipAdd x' y'
  | _, _ => []
  end.

(** ** Checkpoints *)

(** No value of the list is NaN. *)
Definition noNaN (vs : list float64) : Prop :=
  Forall (fun v => is_nan v = false) vs.

(** The solvers a run can reach: the one [Train] builds for a mini-batch,
    and those that calls of [Step] lead to. *)
Inductive reachable (L : Type) (math_Pow : float64 -> float64 -> float64)
    (t : TrainerGo.Trainer L) (o : TrainerGo.Objective) (s : SampleSet)
  : TrainerGo.cgSolver -> Prop :=
| reach_new (lastSolution : ConstParamDelta) :
    reachable math_Pow t o s (TrainerGo.newSolver o s lastSolution)
| reach_step (fuel : nat) (c c' : TrainerGo.cgSolver)
    (w w' : TrainerGo.World L) (b : bool) :
    reachable math_Pow t o s c ->
    TrainerGo.Step math_Pow t fuel c w = TrainerGo.Ok (b, c', w') ->
    reachable math_Pow t o s c'.

(** Every recorded value is the true objective of its checkpoint, and the
    checkpoint just taken, if any, is the current solution. *)
Definition checkpointsSound (o : TrainerGo.Objective) (s : SampleSet)
    (c : TrainerGo.cgSolver) : Prop :=
  TrainerGo.c_Objective c = o
  /\ TrainerGo.c_Samples c = s
  /\ Forall2 (fun d v => v = TrainerGo.obj_Objective o d s)
       (TrainerGo.backtrackDeltas c) (TrainerGo.backtrackValues c)
  /\ (TrainerGo.justBacktracked c = true ->
      isNil (TrainerGo.Solution c) = false
      /\ exists ds, TrainerGo.backtrackDeltas c = ds ++ [TrainerGo.Solution c]).

(** The solver after [n] calls of [Step], as far as they return. *)
Fixpoint stepsFrom (L : Type) (math_Pow : float64 -> float64 -> float64)
    (t : TrainerGo.Trainer L) (fuel n : nat) (c : TrainerGo.cgSolver)
    (w : TrainerGo.World L) : TrainerGo.cgSolver :=
  match n with
  | O => c
  | S n' =>
      match TrainerGo.Step math_Pow t fuel c w with
      | TrainerGo.Ok (_, c', w') => stepsFrom math_Pow t fuel n' c' w'
      | _ => c
      end
  end.

(** ** Histories *)

(** The history at the end of a run of [Train], however it ended. *)
Definition outcomeTrace (L : Type)
    (out : TrainerGo.outcome L (TrainerGo.World L)) : list TrainerGo.Event :=
  match out with
  | TrainerGo.Returned w => TrainerGo.trace w
  | TrainerGo.Panicked w => TrainerGo.trace w
  | TrainerGo.OutOfFuel w => TrainerGo.trace w
  end.

(** A poll that was answered by true. *)
Definition isStop (e : TrainerGo.Event) : bool :=
  match e with
  | TrainerGo.EvShouldStop _ _ _ answer => answer
  | _ => false
  end.

(** A call of [Learner.Adjust] for the mini-batch [miniBatch] of [epoch]. *)
Definition isAdjustOf (epoch miniBatch : nat) (e : TrainerGo.Event) : bool :=
  match e with
  | TrainerGo.EvAdjust e' m' _ _ _ => (e' =? epoch)%nat && (m' =? miniBatch)%nat
  | _ => false
  end.

(** The events of [w'] that are stops or commits are those of [w]. *)
Definition sameMarks (L : Type) (w w' : TrainerGo.World L) : Prop :=
  filter isStop (TrainerGo.trace w') = filter isStop (TrainerGo.trace w)
  /\ forall e m, filter (isAdjustOf e m) (TrainerGo.trace w')
                 = filter (isAdjustOf e m) (TrainerGo.trace w).

(** How a run of the two loops of [Train] ends: if it returns, the last
    event is a poll answered by true, the only one, and nothing was
    committed for the mini-batch of that poll; otherwise no poll was
    answered by true. *)
Definition stoppedOrRunning (L : Type)
    (out : TrainerGo.outcome L (TrainerGo.World L))
  : Prop :=
  match out with
  | TrainerGo.Returned w' =>
      exists pre site e m,
        TrainerGo.trace w' = pre ++ [TrainerGo.EvShouldStop site e m true]
        /\ filter isStop pre = []
        /\ filter (isAdjustOf e m) (TrainerGo.trace w') = []
  | TrainerGo.Panicked w' => filter isStop (TrainerGo.trace w') = []
  | TrainerGo.OutOfFuel w' => filter isStop (TrainerGo.trace w') = []
  end.

(** ** Deltas and gradients *)

(** Every vector of [delta] has room in the vector that [res] holds for its
    variable. *)
Definition fitsIn (delta : list (VarId * Vector)) (res : ConstParamDelta)
  : Prop :=
  forall v sub, In (v, sub) delta -> (length sub <= length (getVec res v))%nat.

(** One turn of the loop: the vector of [variable] in [res], if there is
    one, is replaced by [resVec]. *)
Definition stored (res : ConstParamDelta) (variable : VarId) (resVec : Vector)
  : ConstParamDelta :=
  match res with
  | Some l => Some (setVar l variable resVec)
  | None => None
  end.

(** ** Cycles of the damping learner *)

(** One cycle, as the [Learner] interface asks for it: [MakeObjective],
    then [Adjust] with the delta found. *)
Definition cycle (L : Type) (ops : LearnerGo.Learner L)
    (d : LearnerGo.DampingLearner L) (step : ConstParamDelta * SampleSet)
    (vars : LearnerGo.VarStore)
  : option (LearnerGo.DampingLearner L * LearnerGo.VarStore) :=
  LearnerGo.DampingLearner_Adjust
    (snd (LearnerGo.DampingLearner_MakeObjective ops d)) (fst step) (snd step)
    vars.

Fixpoint cycles (L : Type) (ops : LearnerGo.Learner L)
    (steps : list (ConstParamDelta * SampleSet))
    (d : LearnerGo.DampingLearner L) (vars : LearnerGo.VarStore)
  : option (LearnerGo.DampingLearner L * LearnerGo.VarStore) :=
  match steps with
  | [] => Some (d, vars)
  | step :: rest =>
      match cycle ops d step vars with
      | Some (d', vars') => cycles ops rest d' vars'
      | None => None
      end
  end.

(** ** Mini-batches *)

(** The history at the end of a run of the loop over [Step]. *)
Definition loopTrace (L A : Type)
    (out : TrainerGo.outcome L (A * TrainerGo.World L))
  : list TrainerGo.Event :=
  match out with
  | TrainerGo.Returned (_, w) => TrainerGo.trace w
  | TrainerGo.Panicked w => TrainerGo.trace w
  | TrainerGo.OutOfFuel w => TrainerGo.trace w
  end.

(** The mini-batch number [m] of the samples [s] in their shuffled order,
    for the batch size [b]: the samples from [m * b] on, [b] of them or
    those that are left. *)
Definition miniBatchOf (b : Z) (s : SampleSet) (m : nat) : SampleSet :=
  firstn (Z.to_nat b) (skipn (m * Z.to_nat b) s).

(** A call of [Learner.Adjust] got the mini-batch of its number. *)
Definition committedSlice (L : Type) (shuffle : nat -> SampleSet -> SampleSet)
    (t : TrainerGo.Trainer L) (e : TrainerGo.Event) : Prop :=
  match e with
  | TrainerGo.EvAdjust epoch m _ _ subset =>
      subset = miniBatchOf (TrainerGo.t_BatchSize t)
                 (shuffle epoch (TrainerGo.t_Samples t)) m
      /\ (1 <= Z.of_nat (length subset) <= TrainerGo.t_BatchSize t)%Z
  | _ => True
  end.

(** An event of the epoch 0 that commits no sample. *)
Definition stuckAtStart (e : TrainerGo.Event) : Prop :=
  match e with
  | TrainerGo.EvShouldStop _ epoch _ _ => epoch = 0%nat
  | TrainerGo.EvLogNewMiniBatch epoch _ => epoch = 0%nat
  | TrainerGo.EvAdjust epoch _ _ _ subset => epoch = 0%nat /\ subset = []
  | _ => True
  end.

(** ** Counts *)

(** The counts that every solver of a run keeps in order. *)
Definition countsInOrder (c : TrainerGo.cgSolver) : Prop :=
  length (TrainerGo.backtrackDeltas c) = length (TrainerGo.backtrackValues c)
  /\ (length (TrainerGo.backtrackValues c)
      <= length (TrainerGo.quadValues c))%nat
  /\ (0 <= TrainerGo.backtrackCount c)%Z
  /\ TrainerGo.lastQuadValue c = zero.

(* ================================================================== *)
(** * float64: the order *)
(* ================================================================== *)

Ltac cmp_cases :=
  repeat match goal with
    | |- context [Z.compare ?a ?b] => destruct (Z.compare_spec a b)
    | |- context [PosDef.Pos.compare_cont Eq ?a ?b] =>
        change (PosDef.Pos.compare_cont Eq a b) with (Pos.compare a b);
        destruct (Pos.compare_spec a b)
    end.

Lemma SFcompare_rank (x y : spec_float) :
  sf_nan x = false -> sf_nan y = false ->
  (SFcompare x y = Some Lt /\ lexlt (rank x) (rank y))
  \/ (SFcompare x y = Some Eq /\ rank x = rank y)
  \/ (SFcompare x y = Some Gt /\ lexlt (rank y) (rank x)).
Proof.
  unfold lexlt.
  destruct x as [sx|sx| |sx mx ex], y as [sy|sy| |sy my ey];
    try discriminate; intros _ _;
    try destruct sx; try destruct sy; cbn [SFcompare rank fst snd];
    cmp_cases; subst; cbn [fst snd CompOpp];
    first [ left; split; [reflexivity | lia]
          | right; left; split; reflexivity
          | right; right; split; [reflexivity | lia] ].
Qed.

Lemma lexlt_irrefl (a : Z * Z * Z) : ~ lexlt a a.
Proof. unfold lexlt; lia. Qed.

Lemma lexlt_asym (a b : Z * Z * Z) : lexlt a b -> ~ lexlt b a.
Proof. unfold lexlt; lia. Qed.

Lemma lexlt_neq (a b : Z * Z * Z) : lexlt a b -> a <> b.
Proof. intros H E; subst; exact (lexlt_irrefl H). Qed.

Lemma lexlt_trans (a b c : Z * Z * Z) : lexlt a b -> lexlt b c -> lexlt a c.
Proof. unfold lexlt; lia. Qed.

Lemma lexlt_total (a b : Z * Z * Z) : lexlt a b \/ a = b \/ lexlt b a.
Proof.
  destruct a as [[a1 a2] a3], b as [[b1 b2] b3]; unfold lexlt; cbn [fst snd].
  destruct (Z.lt_total a1 b1) as [|[|]]; [lia| |lia].
  destruct (Z.lt_total a2 b2) as [|[|]]; [lia| |lia].
  destruct (Z.lt_total a3 b3) as [|[|]]; [lia| |lia].
  right; left; congruence.
Qed.

Lemma f64_is_nan_spec (x : float64) : is_nan x = sf_nan (Prim2SF x).
Proof.
  unfold is_nan, PrimFloat.is_nan. rewrite FloatAxioms.eqb_spec. unfold SFeqb.
  destruct (sf_nan (Prim2SF x)) eqn:E.
  - destruct (Prim2SF x); try discriminate; reflexivity.
  - destruct (SFcompare_rank (Prim2SF x) (Prim2SF x) E E) as [[_ H]|[[-> _]|[_ H]]];
      [ destruct (lexlt_irrefl H) | reflexivity | destruct (lexlt_irrefl H) ].
Qed.

Lemma f64_ltb_iff (x y : float64) :
  ltb x y = true <->
  is_nan x = false /\ is_nan y = false /\ lexlt (frank x) (frank y).
Proof.
  unfold ltb, frank. rewrite FloatAxioms.ltb_spec, !f64_is_nan_spec. unfold SFltb.
  destruct (sf_nan (Prim2SF x)) eqn:Ex.
  { destruct (Prim2SF x); try discriminate; cbn; intuition discriminate. }
  destruct (sf_nan (Prim2SF y)) eqn:Ey.
  { destruct (Prim2SF y); try discriminate.
    destruct (Prim2SF x); cbn; intuition discriminate. }
  destruct (SFcompare_rank _ _ Ex Ey) as [[-> H]|[[-> H]|[-> H]]].
  - intuition.
  - rewrite H. split; [discriminate|]. intros (_ & _ & A). destruct (lexlt_irrefl A).
  - split; [discriminate|]. intros (_ & _ & A). destruct (lexlt_asym H A).
Qed.

Lemma f64_leb_iff (x y : float64) :
  leb x y = true <->
  is_nan x = false /\ is_nan y = false /\ ~ lexlt (frank y) (frank x).
Proof.
  unfold leb, frank. rewrite FloatAxioms.leb_spec, !f64_is_nan_spec. unfold SFleb.
  destruct (sf_nan (Prim2SF x)) eqn:Ex.
  { destruct (Prim2SF x); try discriminate; cbn; intuition discriminate. }
  destruct (sf_nan (Prim2SF y)) eqn:Ey.
  { destruct (Prim2SF y); try discriminate.
    destruct (Prim2SF x); cbn; intuition discriminate. }
  destruct (SFcompare_rank _ _ Ex Ey) as [[-> H]|[[-> H]|[-> H]]].
  - split; [|reflexivity]. intros _. repeat split. apply lexlt_asym, H.
  - rewrite H. split; [|reflexivity]. intros _. repeat split. apply lexlt_irrefl.
  - split; [discriminate|]. intros (_ & _ & A). destruct (A H).
Qed.

Lemma f64_eqb_iff (x y : float64) :
  eqb x y = true <->
  is_nan x = false /\ is_nan y = false /\ frank x = frank y.
Proof.
  unfold eqb, frank. rewrite FloatAxioms.eqb_spec, !f64_is_nan_spec. unfold SFeqb.
  destruct (sf_nan (Prim2SF x)) eqn:Ex.
  { destruct (Prim2SF x); try discriminate; cbn; intuition discriminate. }
  destruct (sf_nan (Prim2SF y)) eqn:Ey.
  { destruct (Prim2SF y); try discriminate.
    destruct (Prim2SF x); cbn; intuition discriminate. }
  destruct (SFcompare_rank _ _ Ex Ey) as [[-> H]|[[-> H]|[-> H]]].
  - split; [discriminate|]. intros (_ & _ & A). destruct (lexlt_neq H A).
  - intuition.
  - split; [discriminate|]. intros (_ & _ & A). symmetry in A. destruct (lexlt_neq H A).
Qed.

Lemma f64_ltb_trans (x y z : float64) :
  ltb x y = true -> ltb y z = true -> ltb x z = true.
Proof.
  rewrite !f64_ltb_iff. intros (A & B & C) (_ & D & E).
  repeat split; trivial. eapply lexlt_trans; eassumption.
Qed.

Lemma f64_ltb_leb_trans (x y z : float64) :
  ltb x y = true -> leb y z = true -> ltb x z = true.
Proof.
  rewrite !f64_ltb_iff, f64_leb_iff. intros (A & B & C) (_ & D & E).
  repeat split; trivial.
  destruct (lexlt_total (frank x) (frank z)) as [H|[H|H]]; trivial.
  - rewrite H in C. destruct (E C).
  - destruct (E (lexlt_trans H C)).
Qed.

Lemma f64_leb_trans (x y z : float64) :
  leb x y = true -> leb y z = true -> leb x z = true.
Proof.
  rewrite !f64_leb_iff. intros (A & B & C) (_ & D & E).
  repeat split; trivial. intro H.
  destruct (lexlt_total (frank y) (frank x)) as [G|[G|G]]; [tauto| |].
  - rewrite G in E. tauto.
  - apply E. eapply lexlt_trans; eassumption.
Qed.

Lemma f64_ltb_leb (x y : float64) : ltb x y = true -> leb x y = true.
Proof.
  rewrite f64_ltb_iff, f64_leb_iff. intros (A & B & C). repeat split; trivial.
  apply lexlt_asym, C.
Qed.

Lemma f64_not_ltb_leb (x y : float64) :
  is_nan x = false -> is_nan y = false -> ltb x y = false -> leb y x = true.
Proof.
  intros A B C. apply f64_leb_iff. repeat split; trivial. intro H.
  assert (ltb x y = true) by (apply f64_ltb_iff; auto). congruence.
Qed.

Lemma f64_ltb_irrefl (x : float64) : ltb x x = false.
Proof.
  destruct (ltb x x) eqn:E; trivial.
  apply f64_ltb_iff in E. destruct E as (_ & _ & E). destruct (lexlt_irrefl E).
Qed.

Lemma f64_ltb_asym (x y : float64) : ltb x y = true -> ltb y x = false.
Proof.
  intros H. destruct (ltb y x) eqn:E; trivial.
  pose proof (f64_ltb_trans H E) as F. rewrite f64_ltb_irrefl in F. discriminate.
Qed.

Lemma f64_leb_not_ltb (x y : float64) : leb x y = true -> ltb y x = false.
Proof.
  intros H. destruct (ltb y x) eqn:E; trivial.
  pose proof (f64_ltb_leb_trans E H) as F. rewrite f64_ltb_irrefl in F. discriminate.
Qed.

Lemma f64_leb_refl (x : float64) : is_nan x = false -> leb x x = true.
Proof. intros H. apply f64_not_ltb_leb; trivial. apply f64_ltb_irrefl. Qed.

Lemma f64_ltb_nan_l (x y : float64) : is_nan x = true -> ltb x y = false.
Proof.
  intros H. destruct (ltb x y) eqn:E; trivial.
  apply f64_ltb_iff in E. destruct E as (E & _). congruence.
Qed.

Lemma f64_ltb_nan_r (x y : float64) : is_nan y = true -> ltb x y = false.
Proof.
  intros H. destruct (ltb x y) eqn:E; trivial.
  apply f64_ltb_iff in E. destruct E as (_ & E & _). congruence.
Qed.

Lemma f64_leb_nan_l (x y : float64) : is_nan x = true -> leb x y = false.
Proof.
  intros H. destruct (leb x y) eqn:E; trivial.
  apply f64_leb_iff in E. destruct E as (E & _). congruence.
Qed.

(* ================================================================== *)
(** * float64: NaN and truncation *)
(* ================================================================== *)

Lemma sub_not_nan (x y : float64) :
  is_nan (sub x y) = false -> is_nan x = false /\ is_nan y = false.
Proof.
  rewrite !f64_is_nan_spec. unfold sub. rewrite FloatAxioms.sub_spec.
  destruct (Prim2SF x), (Prim2SF y); cbn; auto; discriminate.
Qed.

Lemma div_not_nan (x y : float64) :
  is_nan (div x y) = false -> is_nan x = false /\ is_nan y = false.
Proof.
  rewrite !f64_is_nan_spec. unfold div. rewrite FloatAxioms.div_spec.
  destruct (Prim2SF x), (Prim2SF y); cbn; auto; discriminate.
Qed.

Lemma digits2_pos_lower (m : positive) :
  (2 ^ (Zpos (digits2_pos m) - 1) <= Zpos m)%Z.
Proof.
  induction m as [m IH|m IH|]; cbn [digits2_pos].
  - rewrite Pos2Z.inj_succ.
    replace (Z.succ (Zpos (digits2_pos m)) - 1)%Z
      with (Z.succ (Zpos (digits2_pos m) - 1))%Z by lia.
    rewrite Z.pow_succ_r by lia. lia.
  - rewrite Pos2Z.inj_succ.
    replace (Z.succ (Zpos (digits2_pos m)) - 1)%Z
      with (Z.succ (Zpos (digits2_pos m) - 1))%Z by lia.
    rewrite Z.pow_succ_r by lia. lia.
  - cbn. lia.
Qed.

(** A float of 53 digits whose exponent is above the least one. *)
Lemma valid_normal (m : positive) (e : Z) :
  valid_binary (S754_finite false m e) = true -> (-1074 < e)%Z ->
  (2 ^ 52 <= Zpos m)%Z.
Proof.
  cbn [valid_binary]. unfold bounded, canonical_mantissa, fexp, FloatOps.emin.
  intros H He. apply andb_true_iff in H. destruct H as [H _].
  apply Z.eqb_eq in H.
  change (FloatOps.prec) with 53%Z in H. change (FloatOps.emax) with 1024%Z in H.
  pose proof (digits2_pos_lower m) as D.
  assert (Zpos (digits2_pos m) = 53)%Z by lia.
  rewrite H0 in D. exact D.
Qed.

Lemma frank_ten : frank 10%float = (1, -49, 5629499534213120)%Z.
Proof. reflexivity. Qed.

Lemma trunc_ge_ten (y : float64) (k : Z) :
  leb 10%float y = true -> trunc y = Some k -> (10 <= k)%Z.
Proof.
  intros H. apply f64_leb_iff in H. destruct H as (_ & Hn & H).
  rewrite frank_ten in H. unfold frank, lexlt in H. unfold trunc.
  pose proof (Prim2SF_valid y) as V.
  destruct (Prim2SF y) as [s|s| |s m e]; cbn [rank fst snd truncSF] in *.
  - exfalso. apply H. lia.
  - discriminate.
  - discriminate.
  - destruct s; [exfalso; apply H; cbn; lia|]. cbn [fst snd] in H.
    assert (He : (-49 < e \/ (e = -49 /\ 5629499534213120 <= Zpos m))%Z) by lia.
    assert (Hm : (2 ^ 52 <= Zpos m)%Z) by (apply (valid_normal _ V); lia).
    assert (Ha : (10 <= match e with
                        | 0 => Zpos m
                        | Zpos p => Z.shiftl (Zpos m) (Zpos p)
                        | Zneg p => Z.shiftr (Zpos m) (Zpos p)
                        end)%Z).
    { destruct e as [|p|p].
      - lia.
      - rewrite Z.shiftl_mul_pow2 by lia.
        assert (0 < 2 ^ Zpos p)%Z by (apply Z.pow_pos_nonneg; lia).
        change (2 ^ 52)%Z with 4503599627370496%Z in Hm. nia.
      - rewrite Z.shiftr_div_pow2 by lia.
        apply Z.div_le_lower_bound; [apply Z.pow_pos_nonneg; lia|].
        destruct He as [He|[He Hm10]].
        + assert (2 ^ Zpos p <= 2 ^ 48)%Z by (apply Z.pow_le_mono_r; lia).
          change (2 ^ 48)%Z with 281474976710656%Z in *.
          change (2 ^ 52)%Z with 4503599627370496%Z in *. lia.
        + injection He as ->. change (2 ^ 49)%Z with 562949953421312%Z. lia. }
    destruct (_ && _)%bool; [|discriminate].
    intros E. injection E as <-. exact Ha.
Qed.

Lemma trunc_Max_ten (y : float64) (k : Z) :
  trunc (Max 10%float y) = Some k -> (10 <= k)%Z.
Proof.
  unfold Max.
  change (eqb 10%float pinf) with false. cbn [orb].
  destruct (eqb y pinf) eqn:E1; [discriminate|].
  change (is_nan 10%float) with false. cbn [orb].
  destruct (is_nan y) eqn:E2; [discriminate|].
  change (eqb 10%float zero) with false. cbn [andb].
  unfold gtb. change PrimFloat.ltb with ltb.
  destruct (ltb y 10%float) eqn:E3.
  - intros E. vm_compute in E. injection E as <-. lia.
  - apply trunc_ge_ten. apply f64_not_ltb_leb; trivial.
Qed.

(* ================================================================== *)
(** * float64: zeros, and the ratio of Adjust *)
(* ================================================================== *)

Lemma f64_is_zero_spec (x : float64) : is_zero x = sf_zero (Prim2SF x).
Proof.
  unfold is_zero, PrimFloat.is_zero. rewrite FloatAxioms.eqb_spec.
  change (Prim2SF PrimFloat.zero) with (S754_zero false).
  destruct (Prim2SF x) as [s|s| |s m e]; try destruct s; reflexivity.
Qed.

Lemma f64_is_finite_spec (x : float64) : is_finite x = sf_finite (Prim2SF x).
Proof.
  unfold is_finite, PrimFloat.is_finite, PrimFloat.is_infinity.
  change (PrimFloat.is_nan x) with (is_nan x).
  rewrite f64_is_nan_spec, FloatAxioms.eqb_spec, FloatAxioms.abs_spec.
  change (Prim2SF infinity) with (S754_infinity false).
  destruct (Prim2SF x) as [s|s| |s m e]; reflexivity.
Qed.

(** [c - c] is +0 for a number and NaN otherwise. *)
Lemma sub_self (c : float64) :
  Prim2SF (sub c c) = if is_finite c then S754_zero false else S754_nan.
Proof.
  rewrite f64_is_finite_spec. unfold sub. rewrite FloatAxioms.sub_spec.
  destruct (Prim2SF c) as [[|]|[|]| |s m e]; try reflexivity.
  cbn [SF64sub SFsub sf_finite]. rewrite Z.sub_diag. reflexivity.
Qed.

(** A zero divided: a zero, unless the divisor is a zero or NaN. *)
Lemma div_zero_l (x y : float64) :
  is_zero x = true ->
  (is_nan y = false -> is_zero y = false -> is_zero (div x y) = true)
  /\ (is_nan y = true \/ is_zero y = true -> is_nan (div x y) = true).
Proof.
  rewrite !f64_is_zero_spec, !f64_is_nan_spec. unfold div.
  rewrite FloatAxioms.div_spec.
  destruct (Prim2SF x) as [s|s| |s m e]; try discriminate. intros _.
  destruct (Prim2SF y) as [s'|s'| |s' m' e']; cbn; split; intros; intuition discriminate.
Qed.

Lemma div_nan_l (x y : float64) : is_nan x = true -> is_nan (div x y) = true.
Proof.
  rewrite !f64_is_nan_spec. unfold div. rewrite FloatAxioms.div_spec.
  destruct (Prim2SF x); try discriminate. intros _. reflexivity.
Qed.

Lemma zero_below_quarter (x : float64) :
  is_zero x = true -> ltb x 0.25%float = true.
Proof.
  rewrite f64_is_zero_spec. unfold ltb. rewrite FloatAxioms.ltb_spec.
  destruct (Prim2SF x) as [s|s| |s m e]; try discriminate. intros _. reflexivity.
Qed.

Lemma zero_not_above (x : float64) :
  is_zero x = true -> gtb x 0.75%float = false.
Proof.
  rewrite f64_is_zero_spec. unfold gtb. rewrite FloatAxioms.ltb_spec.
  destruct (Prim2SF x) as [s|s| |s m e]; try discriminate. intros _. reflexivity.
Qed.

(** The ratio that [Adjust] computes is a zero or NaN. *)
Lemma trust_zero_or_nan (o : LearnerGo.Objective) (delta : ConstParamDelta)
    (s : SampleSet) :
  let c := LearnerGo.centerVal o s in
  let dq := sub (LearnerGo.quadOffset o delta s) c in
  let rho := LearnerGo.trust o delta s in
  (is_finite c = true -> is_nan dq = false -> is_zero dq = false ->
   is_zero rho = true)
  /\ (is_finite c = false \/ is_nan dq = true \/ is_zero dq = true ->
      is_nan rho = true).
Proof.
  intros c dq rho.
  assert (E : rho = div (sub c c) dq) by reflexivity.
  pose proof (sub_self c) as Hs.
  destruct (is_finite c) eqn:Hf.
  - assert (Hz : is_zero (sub c c) = true) by (rewrite f64_is_zero_spec, Hs; reflexivity).
    destruct (div_zero_l dq Hz) as [H1 H2]. rewrite E. split.
    + intros _. exact H1.
    + intros [H|H]; [discriminate|]. apply H2. exact H.
  - assert (Hz : is_nan (sub c c) = true) by (rewrite f64_is_nan_spec, Hs; reflexivity).
    rewrite E. split; [discriminate|]. intros _. apply div_nan_l, Hz.
Qed.

(* ================================================================== *)
(** * float64: rounding *)
(* ================================================================== *)

Lemma fexp64_eq (z : Z) : fexp FloatOps.prec FloatOps.emax z = fexp64 z.
Proof. reflexivity. Qed.

Lemma shr_1_m (mrs : shr_record) :
  (0 <= shr_m mrs)%Z -> shr_m (shr_1 mrs) = (shr_m mrs / 2)%Z.
Proof.
  destruct mrs as [m r s]. cbn [shr_m shr_1]. intros H.
  destruct m as [|[p|p|]|p]; cbn [shr_m].
  - reflexivity.
  - rewrite Pos2Z.inj_xI.
    apply (Z.div_unique (2 * Zpos p + 1) 2 (Zpos p) 1); lia.
  - rewrite Pos2Z.inj_xO.
    apply (Z.div_unique (2 * Zpos p) 2 (Zpos p) 0); lia.
  - reflexivity.
  - lia.
Qed.

Lemma shr_1_nonneg (mrs : shr_record) :
  (0 <= shr_m mrs)%Z -> (0 <= shr_m (shr_1 mrs))%Z.
Proof.
  intros H. rewrite shr_1_m by exact H. apply Z.div_pos; lia.
Qed.

Lemma iter_shr_m (p : positive) :
  forall mrs : shr_record,
    (0 <= shr_m mrs)%Z ->
    shr_m (iter_pos shr_1 p mrs) = (shr_m mrs / 2 ^ Zpos p)%Z
    /\ (0 <= shr_m (iter_pos shr_1 p mrs))%Z.
Proof.
  induction p as [p IH|p IH|]; intros mrs H; cbn [iter_pos].
  - pose proof (shr_1_nonneg mrs H) as H1.
    destruct (IH _ H1) as [E1 N1]. destruct (IH _ N1) as [E2 N2].
    split; [|exact N2]. rewrite E2, E1, shr_1_m by exact H.
    rewrite !Z.div_div by (try apply Z.pow_pos_nonneg; lia).
    f_equal. rewrite Pos2Z.inj_xI.
    rewrite <- Z.pow_add_r by lia. rewrite <- Z.pow_succ_r by lia.
    f_equal. lia.
  - destruct (IH _ H) as [E1 N1]. destruct (IH _ N1) as [E2 N2].
    split; [|exact N2]. rewrite E2, E1.
    rewrite !Z.div_div by (try apply Z.pow_pos_nonneg; lia).
    f_equal. rewrite Pos2Z.inj_xO. rewrite <- Z.pow_add_r by lia. f_equal. lia.
  - split; [|apply shr_1_nonneg, H]. rewrite shr_1_m by exact H. reflexivity.
Qed.

Lemma digits2_pos_upper (m : positive) :
  (Zpos m < 2 ^ Zpos (digits2_pos m))%Z.
Proof.
  induction m as [m IH|m IH|]; cbn [digits2_pos].
  - rewrite Pos2Z.inj_succ, Z.pow_succ_r by lia. lia.
  - rewrite Pos2Z.inj_succ, Z.pow_succ_r by lia. lia.
  - cbn. lia.
Qed.

(** More digits for a larger number. *)
Lemma digits2_pos_mono (a b : positive) :
  (Zpos a <= Zpos b)%Z -> (Zpos (digits2_pos a) <= Zpos (digits2_pos b))%Z.
Proof.
  intros H. pose proof (digits2_pos_lower a) as La.
  pose proof (digits2_pos_upper b) as Ub.
  assert (2 ^ (Zpos (digits2_pos a) - 1) < 2 ^ Zpos (digits2_pos b))%Z by lia.
  apply Z.pow_lt_mono_r_iff in H0; lia.
Qed.

Lemma round_nearest_even_ge (m : Z) (l : location) :
  (m <= round_nearest_even m l)%Z.
Proof.
  destruct l as [|[| |]]; cbn; try lia. destruct (Z.even m); lia.
Qed.

Lemma binary_round_aux_finish (s : bool) (mx ex : Z) (lx : location) :
  binary_round_aux FloatOps.prec FloatOps.emax s mx ex lx
  = let '(mrs, e) := shr_fexp FloatOps.prec FloatOps.emax mx ex lx in
    finish s (round_nearest_even (shr_m mrs) (loc_of_shr_record mrs)) e.
Proof. reflexivity. Qed.

Lemma finish_atLeast (s : bool) (m2 e1 : Z) :
  (1 <= m2)%Z -> (-1074 <= e1)%Z -> atLeast s m2 e1 (finish s m2 e1).
Proof.
  intros Hm He. destruct m2 as [|q|q]; try lia.
  unfold finish, shr_fexp, shr. cbn [Zdigits2 shr_record_of_loc].
  rewrite fexp64_eq. unfold fexp64.
  set (D2 := Zpos (digits2_pos q)).
  destruct (Z.max (D2 + e1 - 53) (-1074) - e1)%Z as [|p|p] eqn:En.
  - cbn [shr_m]. destruct (e1 <=? _)%Z; [right|left; reflexivity].
    exists q, e1. repeat split; lia.
  - destruct (iter_shr_m p {| shr_m := Zpos q; shr_r := false; shr_s := false |})
      as [E1 N1]; [cbn; lia|]. cbn [shr_m] in E1.
    assert (Hp : (Zpos p = D2 - 53)%Z) by lia.
    assert (Hq : (1 <= Zpos q / 2 ^ Zpos p)%Z).
    { apply Z.div_le_lower_bound; [apply Z.pow_pos_nonneg; lia|].
      pose proof (digits2_pos_lower q) as Lq. fold D2 in Lq.
      assert (2 ^ Zpos p <= 2 ^ (D2 - 1))%Z by (apply Z.pow_le_mono_r; lia).
      lia. }
    rewrite <- E1 in Hq.
    destruct (shr_m (iter_pos shr_1 p _)) as [|m'|m']; try lia.
    destruct (_ <=? _)%Z; [right|left; reflexivity].
    exists m', (e1 + Zpos p)%Z. repeat split; lia.
  - cbn [shr_m]. destruct (e1 <=? _)%Z; [right|left; reflexivity].
    exists q, e1. repeat split; lia.
Qed.

(** The shape of a rounded number that the first shift does not wipe out. *)
Lemma binary_round_aux_atLeast (s : bool) (M : positive) (E : Z) :
  let D := Zpos (digits2_pos M) in
  let e1 := Z.max E (fexp64 (D + E)) in
  (e1 - E <= D - 1)%Z -> (-1074 <= e1)%Z ->
  atLeast s (Zpos M / 2 ^ (e1 - E)) e1
    (binary_round_aux FloatOps.prec FloatOps.emax s (Zpos M) E loc_Exact).
Proof.
  intros D e1 Hn He. rewrite binary_round_aux_finish.
  unfold shr_fexp, shr. cbn [Zdigits2 shr_record_of_loc].
  rewrite fexp64_eq. fold D.
  destruct (fexp64 (D + E) - E)%Z as [|p|p] eqn:En.
  - assert (e1 = E) by lia. cbn [shr_m loc_of_shr_record round_nearest_even].
    replace (e1 - E)%Z with 0%Z by lia. rewrite Z.pow_0_r, Z.div_1_r.
    rewrite H. apply finish_atLeast; lia.
  - assert (H1 : e1 = (E + Zpos p)%Z) by lia.
    destruct (iter_shr_m p {| shr_m := Zpos M; shr_r := false; shr_s := false |})
      as [E1 N1]; [cbn; lia|]. cbn [shr_m] in E1.
    replace (e1 - E)%Z with (Zpos p) by lia. rewrite <- H1.
    set (mrs := iter_pos shr_1 p _) in *.
    assert (Hq : (1 <= Zpos M / 2 ^ Zpos p)%Z).
    { apply Z.div_le_lower_bound; [apply Z.pow_pos_nonneg; lia|].
      pose proof (digits2_pos_lower M) as LM. fold D in LM.
      assert (2 ^ Zpos p <= 2 ^ (D - 1))%Z by (apply Z.pow_le_mono_r; lia).
      lia. }
    pose proof (round_nearest_even_ge (shr_m mrs) (loc_of_shr_record mrs)) as R.
    destruct (@finish_atLeast s
                (round_nearest_even (shr_m mrs) (loc_of_shr_record mrs)) e1)
      as [Hinf|(m' & e' & Hr & He1 & He2)]; try lia.
    + left. exact Hinf.
    + right. exists m', e'. repeat split; try assumption. intros H. specialize (He2 H). lia.
  - assert (e1 = E) by lia. cbn [shr_m loc_of_shr_record round_nearest_even].
    replace (e1 - E)%Z with 0%Z by lia. rewrite Z.pow_0_r, Z.div_1_r.
    rewrite H. apply finish_atLeast; lia.
Qed.

Lemma valid_finite_inv (s : bool) (m : positive) (e : Z) :
  valid_binary (S754_finite s m e) = true ->
  fexp64 (Zpos (digits2_pos m) + e) = e /\ (e <= 971)%Z.
Proof.
  cbn [valid_binary]. unfold bounded, canonical_mantissa. rewrite fexp64_eq.
  intros H. apply andb_true_iff in H. destruct H as [H1 H2].
  apply Z.eqb_eq in H1. apply Z.leb_le in H2. split; [exact H1|exact H2].
Qed.

Lemma Prim2SF_three_halves :
  Prim2SF 1.5%float = S754_finite false 6755399441055744 (-52).
Proof. reflexivity. Qed.

(** Multiplying a number that is not negative by 1.5 does not lower it. *)
Lemma mul_three_halves_ge (x : float64) :
  leb 0%float x = true -> leb x (mul x 1.5%float) = true.
Proof.
  intros H. apply f64_leb_iff in H. destruct H as (_ & Hn & H).
  apply f64_leb_iff. split; [exact Hn|].
  rewrite f64_is_nan_spec in *. unfold frank in *. unfold mul.
  rewrite FloatAxioms.mul_spec, Prim2SF_three_halves.
  change (Prim2SF 0%float) with (S754_zero false) in H.
  unfold lexlt in *.
  pose proof (Prim2SF_valid x) as V.
  destruct (Prim2SF x) as [s|s| |s m e]; cbn [rank fst snd] in H.
  - cbn. split; [reflexivity|lia].
  - destruct s; [exfalso; apply H; cbn; lia|]. cbn. split; [reflexivity|lia].
  - discriminate.
  - destruct s; [exfalso; apply H; cbn; lia|].
    destruct (@valid_finite_inv false m e V) as [Hc He].
    cbn [SF64mul SFmul xorb].
    set (M := (m * 6755399441055744)%positive).
    assert (HM : Zpos M = (Zpos m * 6755399441055744)%Z) by reflexivity.
    pose proof (digits2_pos_lower m) as Lm.
    pose proof (digits2_pos_upper M) as UM.
    set (d := Zpos (digits2_pos m)) in *.
    set (D := Zpos (digits2_pos M)) in *.
    assert (HD : (d + 52 <= D)%Z).
    { assert (2 ^ (d + 51) < 2 ^ D)%Z.
      { replace (d + 51)%Z with ((d - 1) + 52)%Z by lia.
        rewrite Z.pow_add_r by lia.
        change (2 ^ 52)%Z with 4503599627370496%Z. nia. }
      apply Z.pow_lt_mono_r_iff in H0; lia. }
    unfold fexp64 in Hc.
    assert (H1 : (Z.max (e + -52) (fexp64 (D + (e + -52))) - (e + -52) <= D - 1)%Z)
      by (unfold fexp64; lia).
    assert (H2 : (-1074 <= Z.max (e + -52) (fexp64 (D + (e + -52))))%Z)
      by (unfold fexp64; lia).
    pose proof (@binary_round_aux_atLeast false M (e + -52) H1 H2) as R.
    fold D in R.
    set (e1 := Z.max (e + -52) (fexp64 (D + (e + -52)))) in *.
    assert (He1 : (e <= e1)%Z) by (unfold e1, fexp64; lia).
    destruct R as [->|(m' & e' & -> & Ha & Hb)].
    + cbn. split; [reflexivity|lia].
    + cbn [sf_nan rank fst snd]. split; [reflexivity|].
      intros [Hlt|[_ [Hlt|[Heq Hlt]]]]; try lia.
      assert (e' = e1) by lia. specialize (Hb H0).
      assert (e1 - (e + -52) = 52)%Z by lia. rewrite H3 in Hb.
      assert (Zpos m <= Zpos M / 2 ^ 52)%Z.
      { apply Z.div_le_lower_bound; [lia|].
        change (2 ^ 52)%Z with 4503599627370496%Z. lia. }
      lia.
Qed.

Lemma digits2_pos_iter_xO (m d : positive) :
  Zpos (digits2_pos (Pos.iter xO m d)) = (Zpos (digits2_pos m) + Zpos d)%Z.
Proof.
  induction d as [|d IH] using Pos.peano_ind.
  - cbn [Pos.iter digits2_pos]. lia.
  - rewrite Pos.iter_succ. cbn [digits2_pos]. rewrite !Pos2Z.inj_succ, IH. lia.
Qed.

(** Aligning a mantissa to a lower exponent keeps digits plus exponent. *)
Lemma shl_align_digits (m : positive) (e ez : Z) :
  (ez <= e)%Z ->
  (Zpos (digits2_pos (fst (shl_align m e ez))) + ez
   = Zpos (digits2_pos m) + e)%Z
  /\ (ez = e -> fst (shl_align m e ez) = m).
Proof.
  intros H. unfold shl_align.
  destruct (ez - e)%Z as [|p|p] eqn:E; cbn [fst].
  - split; [lia|reflexivity].
  - lia.
  - split; [|lia]. rewrite digits2_pos_iter_xO. lia.
Qed.

(** Two numbers of the format whose aligned mantissas agree are the same. *)
Lemma aligned_eq (mx my : positive) (ex ey : Z) :
  fexp64 (Zpos (digits2_pos mx) + ex) = ex ->
  fexp64 (Zpos (digits2_pos my) + ey) = ey ->
  fst (shl_align mx ex (Z.min ex ey)) = fst (shl_align my ey (Z.min ex ey)) ->
  ex = ey /\ mx = my.
Proof.
  intros Hx Hy H.
  destruct (@shl_align_digits mx ex (Z.min ex ey)) as [Dx Ex]; [lia|].
  destruct (@shl_align_digits my ey (Z.min ex ey)) as [Dy Ey]; [lia|].
  rewrite H in Dx.
  assert (Hs : (Zpos (digits2_pos mx) + ex = Zpos (digits2_pos my) + ey)%Z) by lia.
  rewrite Hs in Hx. assert (He : ex = ey) by congruence.
  split; [exact He|]. subst ey. rewrite Z.min_id in *.
  rewrite <- (Ex eq_refl), <- (Ey eq_refl). exact H.
Qed.

(** A mantissa that is not zero, at an exponent of the format, rounds to a
    number that is not zero. *)
Lemma binary_round_nonzero (s : bool) (p : positive) (ez : Z) :
  (-1074 <= ez)%Z ->
  sf_nan (binary_round FloatOps.prec FloatOps.emax s p ez) = false
  /\ (forall s', binary_round FloatOps.prec FloatOps.emax s p ez <> S754_zero s').
Proof.
  intros He. unfold binary_round. rewrite fexp64_eq.
  destruct (shl_align p ez (fexp64 (Zpos (digits2_pos p) + ez))) as [mz ez'] eqn:E.
  assert (He' : (-1074 <= ez')%Z).
  { unfold shl_align in E.
    destruct (fexp64 (Zpos (digits2_pos p) + ez) - ez)%Z eqn:F;
      injection E as _ <-; unfold fexp64 in *; lia. }
  destruct (@binary_round_aux_atLeast s mz ez') as [->|(m' & e' & -> & _)];
    try (unfold fexp64; lia).
  - split; [reflexivity|discriminate].
  - split; [reflexivity|discriminate].
Qed.

Lemma cond_Zopp_eq (sx sy : bool) (a b : positive) :
  (cond_Zopp sx (Zpos a) - cond_Zopp sy (Zpos b))%Z = 0%Z ->
  sx = sy /\ a = b.
Proof.
  destruct sx, sy; unfold cond_Zopp; intros H; split; trivial;
    try (exfalso; lia); assert (Zpos a = Zpos b) by lia; congruence.
Qed.

(** The difference of two numbers is a zero exactly when they are equal. *)
Lemma sub_zero_iff_eqb (q c : float64) :
  is_finite c = true -> is_nan q = false ->
  is_nan (sub q c) = false /\ is_zero (sub q c) = eqb q c.
Proof.
  rewrite f64_is_finite_spec, f64_is_zero_spec, !f64_is_nan_spec.
  unfold sub, eqb. rewrite FloatAxioms.sub_spec, FloatAxioms.eqb_spec.
  pose proof (Prim2SF_valid q) as Vq. pose proof (Prim2SF_valid c) as Vc.
  destruct (Prim2SF q) as [sq|sq| |sq mq eq], (Prim2SF c) as [sc|sc| |sc mc ec];
    try discriminate; intros _ _.
  1-5: destruct sq, sc; split; reflexivity.
  destruct (@valid_finite_inv sq mq eq Vq) as [Cq _].
  destruct (@valid_finite_inv sc mc ec Vc) as [Cc _].
  idtac.
  - idtac.
    cbn [SF64sub SFsub]. unfold binary_normalize.
    assert (Hez : (-1074 <= Z.min eq ec)%Z) by (unfold fexp64 in *; lia).
    set (ez := Z.min eq ec) in *.
    destruct (cond_Zopp sq (Zpos (fst (shl_align mq eq ez)))
              - cond_Zopp sc (Zpos (fst (shl_align mc ec ez))))%Z
      as [|p|p] eqn:E.
    + apply cond_Zopp_eq in E. destruct E as [-> E].
      destruct (@aligned_eq _ _ _ _ Cq Cc E) as [-> ->].
      split; [reflexivity|]. unfold SFeqb. cbn [sf_zero SFcompare].
      rewrite Z.compare_refl.
      change (PosDef.Pos.compare_cont Eq mc mc) with (Pos.compare mc mc).
      rewrite Pos.compare_refl. destruct sc; reflexivity.
    + destruct (@binary_round_nonzero false p ez Hez) as [H1 H2].
      split; [exact H1|].
      assert (Hne : SFeqb (S754_finite sq mq eq) (S754_finite sc mc ec) = false).
      { unfold SFeqb. cbn [SFcompare].
        destruct sq, sc; try reflexivity;
          destruct (Z.compare_spec eq ec) as [He|He|He]; try reflexivity;
          change (PosDef.Pos.compare_cont Eq mq mc) with (Pos.compare mq mc);
          destruct (Pos.compare_spec mq mc) as [Hm|Hm|Hm]; try reflexivity;
          exfalso; subst; unfold ez in E; rewrite Z.min_id in E;
          rewrite !(proj2 (@shl_align_digits _ _ _ (Z.le_refl _)) eq_refl) in E;
          unfold cond_Zopp in E; lia. }
      rewrite Hne.
      destruct (binary_round _ _ _ _ _) as [s0| | |]; try reflexivity.
      destruct (H2 s0 eq_refl).
    + destruct (@binary_round_nonzero true p ez Hez) as [H1 H2].
      split; [exact H1|].
      assert (Hne : SFeqb (S754_finite sq mq eq) (S754_finite sc mc ec) = false).
      { unfold SFeqb. cbn [SFcompare].
        destruct sq, sc; try reflexivity;
          destruct (Z.compare_spec eq ec) as [He|He|He]; try reflexivity;
          change (PosDef.Pos.compare_cont Eq mq mc) with (Pos.compare mq mc);
          destruct (Pos.compare_spec mq mc) as [Hm|Hm|Hm]; try reflexivity;
          exfalso; subst; unfold ez in E; rewrite Z.min_id in E;
          rewrite !(proj2 (@shl_align_digits _ _ _ (Z.le_refl _)) eq_refl) in E;
          unfold cond_Zopp in E; lia. }
      rewrite Hne.
      destruct (binary_round _ _ _ _ _) as [s0| | |]; try reflexivity.
      destruct (H2 s0 eq_refl).
Qed.

(* ================================================================== *)
(** * learner.go: the damping learner *)
(* ================================================================== *)

Lemma ratio_1_4 : ratio 1 4 = 0.25%float.
Proof. reflexivity. Qed.

Lemma ratio_3_4 : ratio 3 4 = 0.75%float.
Proof. reflexivity. Qed.

Lemma ratio_3_2 : ratio 3 2 = 1.5%float.
Proof. reflexivity. Qed.

Lemma ratio_2_3 : ratio 2 3 = (2 / 3)%float.
Proof. reflexivity. Qed.

Lemma below_quarter_not_above (rho : float64) :
  ltb rho 0.25%float = true -> gtb rho 0.75%float = false.
Proof.
  intros H. unfold gtb. change PrimFloat.ltb with ltb.
  destruct (ltb 0.75%float rho) eqn:E; trivial.
  pose proof (f64_ltb_trans E H) as F. vm_compute in F. discriminate.
Qed.

(** C1.  The source evaluates the numerator's true cost, [realOffset], at
    the empty delta, not at the proposed one: for every objective it equals
    the cost at the centre, so the ratio the source computes is
    [(c - c) / (q - c)].  For the cost [(1 - x)^2], modelled exactly by its
    quadratic, and the step [x = 1]: the cost at the step is 0 and at the
    centre 1, the ratio of the claim is [(0 - 1) / (0 - 1) = 1], above 3/4,
    while the source computes [-0] and raises the coefficient from 1 to 1.5. *)
Theorem Adjust_realOffset_at_zero_delta :
  (forall o delta s,
      LearnerGo.realOffset o delta s = LearnerGo.obj_Objective o emptyDelta s
      /\ LearnerGo.realOffset o delta s = LearnerGo.centerVal o s)
  /\ LearnerGo.obj_Objective Examples.squareObjective Examples.stepOne
       Examples.oneSample = 0%float
  /\ LearnerGo.realOffset Examples.squareObjective Examples.stepOne
       Examples.oneSample = 1%float
  /\ (let r := LearnerGo.obj_Objective Examples.squareObjective
                 Examples.stepOne Examples.oneSample in
      let c := LearnerGo.centerVal Examples.squareObjective Examples.oneSample in
      let q := LearnerGo.quadOffset Examples.squareObjective Examples.stepOne
                 Examples.oneSample in
      div (sub r c) (sub q c) = 1%float)
  /\ LearnerGo.trust Examples.squareObjective Examples.stepOne
       Examples.oneSample = (-0)%float
  /\ option_map (fun r => LearnerGo.DampingCoeff (fst r))
       (LearnerGo.DampingLearner_Adjust
          (Examples.damping 1%float Examples.squareObjective)
          Examples.stepOne Examples.oneSample []) = Some 1.5%float.
Proof.
  split; [intros; split; reflexivity|].
  repeat split; vm_compute; reflexivity.
Qed.

(** C2.  [dampedObjective] never reads its [Coeff]: the penalty of [Quad] is
    [n * |delta|^2] and the terms added to the gradient and to the curvature
    product are [2 n delta], whatever the coefficient.  With the coefficient
    2, one sample and the delta [x = 1] over the null objective, [Quad] is 1
    where the claim has [2 * 1 * 1 = 2], and both vectors are [[2]] where the
    claim has [[4]]. *)
Theorem dampedObjective_ignores_Coeff :
  (forall o c1 c2 delta s,
      LearnerGo.dampedObjective_Quad
        {| LearnerGo.WrappedObjective := o; LearnerGo.Coeff := c1 |} delta s
      = LearnerGo.dampedObjective_Quad
          {| LearnerGo.WrappedObjective := o; LearnerGo.Coeff := c2 |} delta s
      /\ LearnerGo.dampedObjective_QuadGrad
           {| LearnerGo.WrappedObjective := o; LearnerGo.Coeff := c1 |} delta s
         = LearnerGo.dampedObjective_QuadGrad
             {| LearnerGo.WrappedObjective := o; LearnerGo.Coeff := c2 |} delta s
      /\ LearnerGo.dampedObjective_QuadHessian
           {| LearnerGo.WrappedObjective := o; LearnerGo.Coeff := c1 |} delta s
         = LearnerGo.dampedObjective_QuadHessian
             {| LearnerGo.WrappedObjective := o; LearnerGo.Coeff := c2 |} delta s)
  /\ (let d := {| LearnerGo.WrappedObjective := Examples.nullObjective;
                  LearnerGo.Coeff := 2%float |} in
      let lambda := LearnerGo.Coeff d in
      let n := of_Z (Len Examples.oneSample) in
      LearnerGo.dampedObjective_Quad d Examples.stepOne Examples.oneSample
        = 1%float
      /\ add 0%float (mul (mul lambda n) (mul 1%float 1%float)) = 2%float
      /\ LearnerGo.dampedObjective_QuadGrad d Examples.stepOne Examples.oneSample
         = Some (Some [(0%nat, [2%float])])
      /\ LearnerGo.dampedObjective_QuadHessian d Examples.stepOne
           Examples.oneSample
         = Some (Some [(0%nat, [2%float])])
      /\ add 0%float (mul (mul (mul 2%float lambda) n) 1%float) = 4%float).
Proof.
  split; [intros; repeat split; reflexivity|].
  repeat split; vm_compute; reflexivity.
Qed.

(** C6.  The branch of [Adjust] that multiplies the coefficient by 2/3 is
    never taken.  The ratio the source computes is [(c - c) / (q - c)], its
    numerator read at the empty delta (the line of C1): it is a zero or NaN
    and never above 0.75, so [Adjust] multiplies the coefficient by 1.5 or
    keeps it.  For the cost [(1 - x)^2], modelled exactly by its quadratic,
    the coefficient 1 and the step [x = 1], the trust ratio of the claim is
    [(0 - 1) / (0 - 1) = 1], above 0.75, and the claim has the coefficient
    multiplied by 2/3; the source multiplies it by 1.5.  The other parts of
    the claim hold of the ratio the source computes: below 0.25 the
    coefficient is multiplied by 1.5, otherwise it is kept, and
    [MakeObjective] first replaces a coefficient equal to zero by 1. *)
Theorem Adjust_never_multiplies_by_two_thirds :
  (forall (o : LearnerGo.Objective) (delta : ConstParamDelta) (s : SampleSet),
      gtb (LearnerGo.trust o delta s) 0.75%float = false)
  /\ (forall (L : Type) (d : LearnerGo.DampingLearner L)
             (o : LearnerGo.Objective) (delta : ConstParamDelta)
             (s : SampleSet) (vars : LearnerGo.VarStore),
        LearnerGo.lastObjective d = Some o ->
        exists d',
          LearnerGo.DampingLearner_Adjust d delta s vars
          = Some (d', LearnerGo.AddToVars delta vars)
          /\ (ltb (LearnerGo.trust o delta s) 0.25%float = true ->
              LearnerGo.DampingCoeff d'
              = mul (LearnerGo.DampingCoeff d) 1.5%float)
          /\ (ltb (LearnerGo.trust o delta s) 0.25%float = false ->
              LearnerGo.DampingCoeff d' = LearnerGo.DampingCoeff d))
  /\ (forall (L : Type) (ops : LearnerGo.Learner L)
             (d : LearnerGo.DampingLearner L),
        let coeff := LearnerGo.DampingCoeff d in
        LearnerGo.DampingCoeff
          (snd (LearnerGo.DampingLearner_MakeObjective ops d))
        = (if eqb coeff 0%float then 1%float else coeff)
        /\ LearnerGo.Coeff (fst (LearnerGo.DampingLearner_MakeObjective ops d))
           = (if eqb coeff 0%float then 1%float else coeff))
  /\ (let o := Examples.squareObjective in
      let r := LearnerGo.obj_Objective o Examples.stepOne Examples.oneSample in
      let c := LearnerGo.centerVal o Examples.oneSample in
      let q := LearnerGo.quadOffset o Examples.stepOne Examples.oneSample in
      let rho := div (sub r c) (sub q c) in
      rho = 1%float
      /\ gtb rho 0.75%float = true
      /\ option_map (fun r => LearnerGo.DampingCoeff (fst r))
           (LearnerGo.DampingLearner_Adjust (Examples.damping 1%float o)
              Examples.stepOne Examples.oneSample [])
         = Some (mul 1%float 1.5%float)
      /\ ltb (mul 1%float (2 / 3)%float) 1%float = true
      /\ ltb 1%float (mul 1%float 1.5%float) = true).
Proof.
  assert (Dead : forall o delta s,
             gtb (LearnerGo.trust o delta s) 0.75%float = false).
  { intros o delta s. set (rho := LearnerGo.trust o delta s).
    destruct (trust_zero_or_nan o delta s) as [Hz Hn]. fold rho in Hz, Hn.
    destruct (is_finite (LearnerGo.centerVal o s)) eqn:Fc.
    2:{ unfold gtb. change PrimFloat.ltb with ltb.
        apply f64_ltb_nan_r. apply Hn. left. reflexivity. }
    destruct (is_nan (sub (LearnerGo.quadOffset o delta s)
                          (LearnerGo.centerVal o s))) eqn:N.
    { unfold gtb. change PrimFloat.ltb with ltb.
      apply f64_ltb_nan_r. apply Hn. right. left. reflexivity. }
    destruct (is_zero (sub (LearnerGo.quadOffset o delta s)
                           (LearnerGo.centerVal o s))) eqn:Z.
    { unfold gtb. change PrimFloat.ltb with ltb.
      apply f64_ltb_nan_r. apply Hn. right. right. reflexivity. }
    apply zero_not_above. apply Hz; reflexivity. }
  split; [exact Dead|]. split; [|split].
  - intros L d o delta s vars Hd.
    unfold LearnerGo.DampingLearner_Adjust. rewrite Hd.
    rewrite ratio_1_4, ratio_3_4, ratio_3_2, ratio_2_3.
    eexists. split; [reflexivity|]. cbn [LearnerGo.DampingCoeff]. split.
    + intros ->. reflexivity.
    + intros ->. rewrite Dead. reflexivity.
  - intros L ops d coeff. unfold LearnerGo.DampingLearner_MakeObjective.
    destruct (LearnerGo.MakeObjective ops (LearnerGo.WrappedLearner d)).
    split; reflexivity.
  - repeat split; vm_compute; reflexivity.
Qed.

Lemma sub_nan_l (q c : float64) : is_nan q = true -> is_nan (sub q c) = true.
Proof.
  intros H. destruct (is_nan (sub q c)) eqn:E; trivial.
  apply sub_not_nan in E. destruct E as [E _]. congruence.
Qed.

(** C10, as amended.  [Adjust] leaves the coefficient or multiplies it by
    1.5, never by 2/3: the ratio it computes is [(c - c) / (q - c)].  When
    the cost [c] at the centre is a number (not an infinity, not NaN) and
    the quadratic value [q] is not NaN, the ratio is a zero and the
    coefficient is multiplied by 1.5 if [q] differs from [c], and the ratio
    is NaN and the coefficient is kept if [q] equals [c]; when [c] is not a
    number or [q] is NaN, the ratio is NaN and the coefficient is kept.  A
    coefficient that is not negative is not lowered. *)
Theorem Adjust_never_lowers_coefficient :
  forall (L : Type) (d : LearnerGo.DampingLearner L) (o : LearnerGo.Objective)
         (delta : ConstParamDelta) (s : SampleSet) (vars : LearnerGo.VarStore),
    LearnerGo.lastObjective d = Some o ->
    let c := LearnerGo.centerVal o s in
    let q := LearnerGo.quadOffset o delta s in
    let rho := LearnerGo.trust o delta s in
    let coeff := LearnerGo.DampingCoeff d in
    exists d',
      LearnerGo.DampingLearner_Adjust d delta s vars
      = Some (d', LearnerGo.AddToVars delta vars)
      /\ rho = div (sub c c) (sub q c)
      /\ (LearnerGo.DampingCoeff d' = coeff
          \/ LearnerGo.DampingCoeff d' = mul coeff 1.5%float)
      /\ (is_finite c = true -> is_nan q = false -> eqb q c = false ->
          is_zero rho = true
          /\ LearnerGo.DampingCoeff d' = mul coeff 1.5%float)
      /\ (is_finite c = true -> eqb q c = true ->
          is_nan rho = true /\ LearnerGo.DampingCoeff d' = coeff)
      /\ (is_finite c = false \/ is_nan q = true ->
          is_nan rho = true /\ LearnerGo.DampingCoeff d' = coeff)
      /\ (leb 0%float coeff = true ->
          leb coeff (LearnerGo.DampingCoeff d') = true).
Proof.
  intros L d o delta s vars Hd c q rho coeff.
  unfold LearnerGo.DampingLearner_Adjust. rewrite Hd.
  fold rho. fold coeff. rewrite ratio_1_4, ratio_3_4, ratio_3_2.
  eexists. split; [reflexivity|]. cbn [LearnerGo.DampingCoeff].
  split; [reflexivity|].
  destruct (trust_zero_or_nan o delta s) as [Hz Hn].
  fold c in Hz, Hn. fold q in Hz, Hn. fold rho in Hz, Hn.
  assert (Zero : is_zero rho = true ->
                 (if ltb rho 0.25%float then mul coeff 1.5%float
                  else if gtb rho 0.75%float then mul coeff (ratio 2 3)
                       else coeff) = mul coeff 1.5%float).
  { intros H. rewrite (@zero_below_quarter rho H). reflexivity. }
  assert (NaN : is_nan rho = true ->
                (if ltb rho 0.25%float then mul coeff 1.5%float
                 else if gtb rho 0.75%float then mul coeff (ratio 2 3)
                      else coeff) = coeff).
  { intros H. rewrite (@f64_ltb_nan_l rho 0.25%float H). unfold gtb.
    change PrimFloat.ltb with ltb.
    rewrite (@f64_ltb_nan_r 0.75%float rho H). reflexivity. }
  assert (Cases : is_zero rho = true \/ is_nan rho = true).
  { destruct (is_finite c) eqn:Fc; [|right; apply Hn; auto].
    destruct (is_nan (sub q c)) eqn:N; [right; apply Hn; auto|].
    destruct (is_zero (sub q c)) eqn:Z; [right; apply Hn; auto|].
    left. apply Hz; reflexivity. }
  split; [|split; [|split; [|split]]].
  - destruct Cases as [H|H]; [right; apply Zero, H|left; apply NaN, H].
  - intros Fc Nq Eq. destruct (@sub_zero_iff_eqb q c Fc Nq) as [N Z].
    rewrite Eq in Z. assert (H : is_zero rho = true) by (apply Hz; trivial).
    split; [exact H|apply Zero, H].
  - intros Fc Eq. assert (Nq : is_nan q = false).
    { apply f64_eqb_iff in Eq. destruct Eq as (Nq & _). exact Nq. }
    destruct (@sub_zero_iff_eqb q c Fc Nq) as [N Z]. rewrite Eq in Z.
    assert (H : is_nan rho = true) by (apply Hn; auto).
    split; [exact H|apply NaN, H].
  - intros [Fc|Nq].
    + assert (H : is_nan rho = true) by (apply Hn; auto).
      split; [exact H|apply NaN, H].
    + assert (H : is_nan rho = true).
      { apply Hn. right. left. apply sub_nan_l, Nq. }
      split; [exact H|apply NaN, H].
  - intros Hc. destruct Cases as [H|H].
    + rewrite (Zero H). apply mul_three_halves_ge, Hc.
    + rewrite (NaN H). apply f64_leb_refl.
      apply f64_leb_iff in Hc. destruct Hc as (_ & Hc & _). exact Hc.
Qed.

Lemma Adjust_never_lowers_coefficient_witness :
  exists d',
    LearnerGo.DampingLearner_Adjust
      (Examples.damping 1%float Examples.squareObjective)
      Examples.stepOne Examples.oneSample []
    = Some (d', LearnerGo.AddToVars Examples.stepOne [])
    /\ LearnerGo.DampingCoeff d' = 1.5%float
    /\ leb 1%float (LearnerGo.DampingCoeff d') = true.
Proof.
  destruct (@Adjust_never_lowers_coefficient unit
              (Examples.damping 1%float Examples.squareObjective)
              Examples.squareObjective Examples.stepOne Examples.oneSample []
              eq_refl)
    as (d' & H1 & _ & _ & H2 & _ & _ & H3).
  exists d'. split; [exact H1|]. split.
  - apply H2; reflexivity.
  - apply H3. reflexivity.
Defined.

(** C10 fails as stated.  A coefficient below zero is lowered: from -1 to
    -1.5 on the cost [(1 - x)^2].  And when the cost at the centre has
    overflowed to an infinity, the ratio is NaN and the coefficient is kept
    although the quadratic value differs from the cost. *)
Lemma Adjust_lowers_negative_coefficient_counterexample :
  (exists d',
      LearnerGo.DampingLearner_Adjust
        (Examples.damping (-1)%float Examples.squareObjective)
        Examples.stepOne Examples.oneSample []
      = Some (d', LearnerGo.AddToVars Examples.stepOne [])
      /\ LearnerGo.DampingCoeff d' = (-1.5)%float
      /\ leb (-1)%float (LearnerGo.DampingCoeff d') = false
      /\ ltb (LearnerGo.DampingCoeff d') (-1)%float = true)
  /\ eqb (LearnerGo.quadOffset Examples.overflowObjective Examples.stepOne
            Examples.oneSample)
         (LearnerGo.centerVal Examples.overflowObjective Examples.oneSample)
     = false
  /\ is_nan (LearnerGo.trust Examples.overflowObjective Examples.stepOne
               Examples.oneSample) = true.
Proof.
  split; [eexists; split; [vm_compute; reflexivity|]|];
    repeat split; vm_compute; reflexivity.
Qed.

(* ================================================================== *)
(** * The linearizer *)
(* ================================================================== *)

Lemma vecAdd_zipAdd (x y : Vector) :
  length x = length y -> LinearizerGo.vecAdd x y = Some (zipAdd x y).
Proof.
  revert y. induction x as [|a x IH]; intros [|b y] H; try discriminate.
  - reflexivity.
  - cbn. rewrite IH by (cbn in H; lia). reflexivity.
Qed.

Lemma nth_zipAdd (x y : Vector) (i : nat) :
  length x = length y -> (i < length x)%nat ->
  nth i (zipAdd x y) zero = add (nth i x zero) (nth i y zero).
Proof.
  revert y i. induction x as [|a x IH]; intros [|b y] i H Hi;
    try discriminate; cbn in *; [lia|].
  destruct i as [|i]; [reflexivity|]. apply IH; lia.
Qed.

(** C9.  The output of [LinearBatch] is, component by component, the output
    of the batcher plus its derivative along the direction that gives every
    variable the output of its entry of the delta; the inputs are seeded
    with a zero derivative. *)
Theorem LinearBatch_first_order :
  forall (l : LinearizerGo.Linearizer) (d : LinearizerGo.ParamDelta)
         (ins : Vector) (n : Z),
    let output :=
      LinearizerGo.BatchR (LinearizerGo.Batcher l)
        (LinearizerGo.outputRVector d) (LinearizerGo.NewRVariable ins) n in
    length (LinearizerGo.Output output) = length (LinearizerGo.ROutput output) ->
    (exists r,
        LinearizerGo.LinearBatch l d ins n = Some r
        /\ LinearizerGo.linearizerResult_Output r
           = zipAdd (LinearizerGo.Output output) (LinearizerGo.ROutput output)
        /\ (forall i, (i < length (LinearizerGo.Output output))%nat ->
              nth i (LinearizerGo.linearizerResult_Output r) zero
              = add (nth i (LinearizerGo.Output output) zero)
                    (nth i (LinearizerGo.ROutput output) zero))
        /\ LinearizerGo.BatcherOutput r = output
        /\ LinearizerGo.Delta r = d)
    /\ map fst (LinearizerGo.outputRVector d) = map fst d
    /\ map snd (LinearizerGo.outputRVector d)
       = map (fun kv => LinearizerGo.Output (snd kv)) d
    /\ LinearizerGo.Output (LinearizerGo.NewRVariable ins) = ins
    /\ LinearizerGo.ROutput (LinearizerGo.NewRVariable ins)
       = repeat zero (length ins).
Proof.
  intros l d ins n output Hlen. split.
  - unfold LinearizerGo.LinearBatch. fold output.
    rewrite (vecAdd_zipAdd _ _ Hlen). eexists. split; [reflexivity|].
    cbn. repeat split. intros i Hi. apply nth_zipAdd; assumption.
  - unfold LinearizerGo.outputRVector. rewrite !map_map. cbn.
    repeat split.
Qed.

Lemma LinearBatch_first_order_witness :
  exists r,
    LinearizerGo.LinearBatch {| LinearizerGo.Batcher := Examples.seedBatcher |}
      Examples.seedDelta [1%float; 2%float] 2%Z = Some r
    /\ LinearizerGo.linearizerResult_Output r = [4%float; 6%float].
Proof.
  destruct (@LinearBatch_first_order
              {| LinearizerGo.Batcher := Examples.seedBatcher |}
              Examples.seedDelta [1%float; 2%float] 2%Z eq_refl)
    as [[r [H1 [H2 _]]] _].
  exists r. split; [exact H1|]. rewrite H2. reflexivity.
Defined.

(* ================================================================== *)
(** * The solver: degenerate steps *)
(* ================================================================== *)

Lemma initializeIfNeeded_initialized (L : Type) (t : TrainerGo.Trainer L)
    (c : TrainerGo.cgSolver) (w : TrainerGo.World L) :
  isNil (TrainerGo.Solution c) = false ->
  isNil (TrainerGo.residual c) = false ->
  TrainerGo.initializeIfNeeded t c w = (c, w).
Proof.
  intros H1 H2. unfold TrainerGo.initializeIfNeeded. rewrite H1, H2.
  destruct c; reflexivity.
Qed.

(** C7.  When, once the solver is initialized, the product of the search
    direction with its curvature product or the cached squared residual
    equals zero, [Step] returns false with the initialized solver: no
    quadratic value is recorded, no checkpoint is taken and nothing is
    logged for an iteration; on a solver that was initialized before,
    [Step] changes nothing at all.  The result is [Ok]: no panic. *)
Theorem Step_degenerate_stops :
  forall (L : Type) (math_Pow : float64 -> float64 -> float64)
         (t : TrainerGo.Trainer L) (fuel : nat) (c : TrainerGo.cgSolver)
         (w : TrainerGo.World L),
    let c0 := fst (TrainerGo.initializeIfNeeded t c w) in
    let w0 := snd (TrainerGo.initializeIfNeeded t c w) in
    eqb (dot (TrainerGo.projectedResidual c0) (TrainerGo.hessianProduct c0))
        0%float = true
    \/ eqb (TrainerGo.residualMag2 c0) 0%float = true ->
    TrainerGo.Step math_Pow t fuel c w = TrainerGo.Ok (false, c0, w0)
    /\ TrainerGo.quadValues c0 = TrainerGo.quadValues c
    /\ TrainerGo.backtrackDeltas c0 = TrainerGo.backtrackDeltas c
    /\ TrainerGo.backtrackValues c0 = TrainerGo.backtrackValues c
    /\ TrainerGo.justBacktracked c0 = TrainerGo.justBacktracked c
    /\ (isNil (TrainerGo.Solution c) = false ->
        isNil (TrainerGo.residual c) = false ->
        c0 = c /\ w0 = w).
Proof.
  intros L math_Pow t fuel c w c0 w0 H.
  assert (Hd : TrainerGo.degenerate c0 = true).
  { unfold TrainerGo.degenerate. apply orb_true_iff. exact H. }
  split.
  - unfold TrainerGo.Step.
    destruct (TrainerGo.initializeIfNeeded t c w) as [c1 w1] eqn:E.
    cbn [fst snd] in c0, w0. subst c0 w0. rewrite Hd. reflexivity.
  - subst c0 w0. unfold TrainerGo.initializeIfNeeded.
    destruct (isNil (TrainerGo.residual c)) eqn:E2; cbn [fst snd];
      cbn [TrainerGo.quadValues TrainerGo.backtrackDeltas
           TrainerGo.backtrackValues TrainerGo.justBacktracked];
      (split; [reflexivity|]); (split; [reflexivity|]);
      (split; [reflexivity|]); (split; [reflexivity|]);
      intros E1 E3; [discriminate|].
    rewrite E1. destruct c; split; reflexivity.
Qed.

(** The solver of a mini-batch that starts at the minimum of the model: its
    residual is zero. *)
Lemma Step_degenerate_stops_witness :
  TrainerGo.Step Examples.powInt
    (Examples.trainer2 (Examples.stopAfter 2) Examples.growingObjective) 5
    (TrainerGo.newSolver Examples.growingObjective [1%nat]
       (Some [(0%nat, [2%float; 0.0625%float])]))
    {| TrainerGo.learner := tt; TrainerGo.trace := [] |}
  = TrainerGo.Ok
      (false,
       fst (TrainerGo.initializeIfNeeded
              (Examples.trainer2 (Examples.stopAfter 2) Examples.growingObjective)
              (TrainerGo.newSolver Examples.growingObjective [1%nat]
                 (Some [(0%nat, [2%float; 0.0625%float])]))
              {| TrainerGo.learner := tt; TrainerGo.trace := [] |}),
       snd (TrainerGo.initializeIfNeeded
              (Examples.trainer2 (Examples.stopAfter 2) Examples.growingObjective)
              (TrainerGo.newSolver Examples.growingObjective [1%nat]
                 (Some [(0%nat, [2%float; 0.0625%float])]))
              {| TrainerGo.learner := tt; TrainerGo.trace := [] |})).
Proof.
  refine (proj1 (@Step_degenerate_stops unit Examples.powInt
            (Examples.trainer2 (Examples.stopAfter 2) Examples.growingObjective)
            5 _ _ _)).
  right. vm_compute. reflexivity.
Defined.

(* ================================================================== *)
(** * The solver: initialization and warm start *)
(* ================================================================== *)

(** C3, as amended.  The solver of a mini-batch starts from the solution
    [Train] kept of the mini-batch before, which is the last iterate of that
    run ([solver.Solution], the second argument of [Adjust]) and not the
    delta [Best] returned; from the zero delta over the learner's parameters
    when [Train] kept none.  The first residual is the gradient of the
    model there scaled by -1, the first direction a copy of it, and
    [startObjective] the true objective at the empty delta. *)
Theorem warm_start_from_last_iterate :
  forall (L : Type) (math_Pow : float64 -> float64 -> float64)
         (shuffle : nat -> SampleSet -> SampleSet) (t : TrainerGo.Trainer L)
         (fuel epoch miniBatch : nat) (i : Z) (shuffled subset : SampleSet)
         (lastSolution : ConstParamDelta) (w w4 : TrainerGo.World L)
         (o : TrainerGo.Objective) (l : L) (c c' : TrainerGo.cgSolver)
         (useDelta : ConstParamDelta),
    let bs := if (TrainerGo.t_BatchSize t >? Len shuffled - i)%Z
              then (Len shuffled - i)%Z else TrainerGo.t_BatchSize t in
    let w3 :=
      {| TrainerGo.learner := l;
         TrainerGo.trace :=
           (TrainerGo.trace w
            ++ [TrainerGo.EvShouldStop TrainerGo.BeforeMiniBatch epoch
                  miniBatch false])
           ++ [TrainerGo.EvLogNewMiniBatch epoch miniBatch] |} in
    (i <? Len shuffled)%Z = true ->
    TrainerGo.Subset shuffled i (i + bs) = Some subset ->
    TrainerGo.ShouldStop (TrainerGo.t_UI t) (TrainerGo.trace w) = false ->
    TrainerGo.MakeObjective (TrainerGo.t_Learner t) (TrainerGo.learner w) = (o, l) ->
    TrainerGo.cgLoop math_Pow t fuel epoch miniBatch
      (TrainerGo.newSolver o subset lastSolution) w3
    = TrainerGo.Returned (Some c, w4) ->
    TrainerGo.Best c = TrainerGo.Ok (useDelta, c') ->
    (* the solution kept for the next mini-batch is the last iterate *)
    TrainerGo.trainLoop math_Pow shuffle t (S fuel) epoch miniBatch i shuffled
      lastSolution w
    = TrainerGo.trainLoop math_Pow shuffle t fuel epoch (S miniBatch)
        (i + TrainerGo.t_BatchSize t) shuffled (TrainerGo.Solution c)
        {| TrainerGo.learner :=
             TrainerGo.Adjust (TrainerGo.t_Learner t) useDelta
               (TrainerGo.Solution c) subset (TrainerGo.learner w4);
           TrainerGo.trace :=
             TrainerGo.trace w4
             ++ [TrainerGo.EvAdjust epoch miniBatch useDelta
                   (TrainerGo.Solution c) subset] |}
    (* and a solver built on a kept solution is initialized from it *)
    /\ forall (o' : TrainerGo.Objective) (subset' : SampleSet)
              (kept : ConstParamDelta) (w' : TrainerGo.World L),
        let c0 := fst (TrainerGo.initializeIfNeeded t
                         (TrainerGo.newSolver o' subset' kept) w') in
        TrainerGo.Solution c0
        = (if isNil kept then TrainerGo.zeroDelta t (TrainerGo.learner w')
           else kept)
        /\ TrainerGo.residual c0
           = scale (TrainerGo.obj_QuadGrad o' (TrainerGo.Solution c0) subset')
                   (-1)%float
        /\ TrainerGo.projectedResidual c0 = copy (TrainerGo.residual c0)
        /\ TrainerGo.residualMag2 c0 = magSquared (TrainerGo.residual c0)
        /\ TrainerGo.hessianProduct c0
           = fst (TrainerGo.obj_QuadHessian o' (TrainerGo.projectedResidual c0)
                    (TrainerGo.Solution c0) subset')
        /\ TrainerGo.startObjective c0
           = TrainerGo.obj_Objective o' emptyDelta subset'.
Proof.
  intros L math_Pow shuffle t fuel epoch miniBatch i shuffled subset
    lastSolution w w4 o l c c' useDelta bs w3 Hi Hsub Hstop Hmk Hcg Hbest.
  split.
  - cbn [TrainerGo.trainLoop]. rewrite Hi. fold bs. rewrite Hsub.
    unfold TrainerGo.poll. rewrite Hstop.
    cbn [TrainerGo.logEvent TrainerGo.learner TrainerGo.trace]. rewrite Hmk.
    unfold w3 in Hcg. rewrite Hcg, Hbest.
    assert (Hc : TrainerGo.Solution c' = TrainerGo.Solution c).
    { unfold TrainerGo.Best in Hbest.
      destruct (TrainerGo.bestLoop _ _ _ _ _); try discriminate.
      injection Hbest as _ <-. unfold TrainerGo.finalCheckpoint.
      destruct (TrainerGo.justBacktracked c); reflexivity. }
    rewrite Hc. reflexivity.
  - intros o' subset' kept w' c0. subst c0.
    unfold TrainerGo.initializeIfNeeded, TrainerGo.newSolver.
    cbn [TrainerGo.Solution TrainerGo.residual isNil fst
         TrainerGo.projectedResidual TrainerGo.residualMag2
         TrainerGo.hessianProduct TrainerGo.startObjective
         TrainerGo.c_Objective TrainerGo.c_Samples].
    repeat split.
Qed.

Lemma warm_start_from_last_iterate_witness :
  let t := Examples.trainer2 (Examples.stopAfter 2) Examples.growingObjective in
  let w := {| TrainerGo.learner := tt; TrainerGo.trace := [] |} in
  exists w5,
    TrainerGo.trainLoop Examples.powInt Examples.keepOrder t 50 0 0 0%Z
      [0%nat; 1%nat] None w
    = TrainerGo.trainLoop Examples.powInt Examples.keepOrder t 49 0 1 1%Z
        [0%nat; 1%nat] (Some [(0%nat, [2%float; 0.0625%float])]) w5.
Proof.
  intros t w. eexists.
  refine (proj1 (@warm_start_from_last_iterate unit Examples.powInt
            Examples.keepOrder t 49 0 0 0%Z [0%nat; 1%nat] [0%nat] None w
            _ Examples.growingObjective tt
            (stepsFrom Examples.powInt t 5 3
               (TrainerGo.newSolver Examples.growingObjective [0%nat] None) w)
            _ _ _ _ _ _ _ _)).
  - reflexivity.
  - reflexivity.
  - reflexivity.
  - reflexivity.
  - vm_compute. reflexivity.
  - vm_compute. reflexivity.
Defined.

(** C3 fails as stated.  In the run below the first mini-batch ends with the
    iterate (2, 1/16); its first checkpoint (1/2, 1/4) has the lower true
    cost, so [Best] returns it and [Adjust] commits it.  The solver of the
    second mini-batch starts from (2, 1/16). *)
Lemma warm_start_counterexample :
  let t := Examples.trainer2 (Examples.stopAfter 2) Examples.growingObjective in
  let useDelta := Some [(0%nat, [0.5%float; 0.25%float])] in
  let lastSolution := Some [(0%nat, [2%float; 0.0625%float])] in
  outcomeTrace (TrainerGo.Train Examples.powInt Examples.keepOrder t 50 tt)
  = [TrainerGo.EvShouldStop TrainerGo.BeforeMiniBatch 0 0 false;
     TrainerGo.EvLogNewMiniBatch 0 0;
     TrainerGo.EvLogCGStart 0%float 0%float;
     TrainerGo.EvLogCGIteration 0.25%float (-0.625)%float;
     TrainerGo.EvShouldStop TrainerGo.AfterStep 0 0 false;
     TrainerGo.EvLogCGIteration 0.25%float (-2.03125)%float;
     TrainerGo.EvShouldStop TrainerGo.AfterStep 0 0 false;
     TrainerGo.EvAdjust 0 0 useDelta lastSolution [0%nat];
     TrainerGo.EvShouldStop TrainerGo.BeforeMiniBatch 0 1 false;
     TrainerGo.EvLogNewMiniBatch 0 1;
     TrainerGo.EvLogCGStart (-2.03125)%float 0%float;
     TrainerGo.EvAdjust 0 1 lastSolution lastSolution [1%nat];
     TrainerGo.EvShouldStop TrainerGo.BeforeMiniBatch 1 0 true]
  /\ (exists c c',
        c = stepsFrom Examples.powInt t 5 3
              (TrainerGo.newSolver Examples.growingObjective [0%nat] None)
              {| TrainerGo.learner := tt; TrainerGo.trace := [] |}
        /\ TrainerGo.Best c = TrainerGo.Ok (useDelta, c')
        /\ TrainerGo.Solution c' = lastSolution)
  /\ TrainerGo.Solution
       (fst (TrainerGo.initializeIfNeeded t
               (TrainerGo.newSolver Examples.growingObjective [1%nat] lastSolution)
               {| TrainerGo.learner := tt; TrainerGo.trace := [] |}))
     = lastSolution
  /\ lastSolution <> useDelta.
Proof.
  intros t useDelta lastSolution.
  split; [vm_compute; reflexivity|].
  split; [eexists _, _; repeat split; vm_compute; reflexivity|].
  split; [vm_compute; reflexivity|].
  intros H. vm_compute in H. discriminate.
Defined.

(* ================================================================== *)
(** * The solver: the convergence test *)
(* ================================================================== *)

Lemma converging_true_inv (cc : TrainerGo.ConvergenceCriteria)
    (c : TrainerGo.cgSolver) :
  TrainerGo.converging cc c = TrainerGo.Ok true ->
  let q := TrainerGo.quadValues c in
  let n := length q in
  (2 <= n)%nat
  /\ gtb (TrainerGo.lastValue q) (TrainerGo.startObjective c) = false
  /\ exists k,
      TrainerGo.convergenceK cc n = Some k
      /\ (0 <= k < Z.of_nat n)%Z
      /\ ltb (div (sub (sub (TrainerGo.lastValue q) (TrainerGo.startObjective c))
                       (sub (nth (n - 1 - Z.to_nat k) q zero)
                            (TrainerGo.startObjective c)))
                  (sub (TrainerGo.lastValue q) (TrainerGo.startObjective c)))
             (mul (of_Z k)
                  (TrainerGo.orDefault (TrainerGo.Epsilon cc)
                     TrainerGo.defaultConvergenceEpsilon)) = true.
Proof.
  intros H q n. unfold TrainerGo.converging in H. fold q in H. fold n in H.
  destruct (n <? 2)%nat eqn:E1; [discriminate|]. cbn [orb] in H.
  destruct (gtb (TrainerGo.lastValue q) (TrainerGo.startObjective c)) eqn:E2;
    [discriminate|].
  apply Nat.ltb_ge in E1. split; [exact E1|]. split; [reflexivity|].
  destruct (TrainerGo.convergenceK cc n) as [k|]; [|discriminate].
  destruct (k >=? Z.of_nat n)%Z eqn:E3; [discriminate|].
  destruct (k <? 0)%Z eqn:E4; [discriminate|].
  exists k. split; [reflexivity|]. split; [lia|].
  injection H as H. exact H.
Qed.

(** What [converging] has tested when it answers true: at least two
    values are recorded, the last one is not above the starting objective,
    the window [k = int(max(minK, kScale * n))] is below the number [n] of
    values, and [(current - old) / current < float64(k) * epsilon]; zero
    parameters stand for 10, 0.1 and 0.0005.  With [minK] 10 the window is
    at least 10. *)
Lemma converging_true_only_when :
  forall (cc : TrainerGo.ConvergenceCriteria) (c : TrainerGo.cgSolver),
    TrainerGo.converging cc c = TrainerGo.Ok true ->
    let q := TrainerGo.quadValues c in
    let n := length q in
    let start := TrainerGo.startObjective c in
    let minK := if eqb (TrainerGo.MinK cc) 0%float then 10%float
                else TrainerGo.MinK cc in
    let kScale := if eqb (TrainerGo.KScale cc) 0%float then (1 / 10)%float
                  else TrainerGo.KScale cc in
    let eps := if eqb (TrainerGo.Epsilon cc) 0%float then (5 / 10000)%float
               else TrainerGo.Epsilon cc in
    (2 <= n)%nat
    /\ leb (TrainerGo.lastValue q) start = true
    /\ (exists k,
          trunc (Max minK (mul kScale (of_nat n))) = Some k
          /\ (0 <= k < Z.of_nat n)%Z
          /\ let currentImprovement := sub (TrainerGo.lastValue q) start in
             let oldImprovement :=
               sub (nth (n - 1 - Z.to_nat k) q zero) start in
             ltb (div (sub currentImprovement oldImprovement) currentImprovement)
                 (mul (of_Z k) eps) = true)
    /\ (minK = 10%float -> (10 < n)%nat).
Proof.
  intros cc c H q n start minK kScale eps.
  destruct (converging_true_inv _ _ H) as (H1 & H2 & k & Hk & Hr & Hlt).
  fold q in H2, Hlt. fold n in Hk, Hr, Hlt. fold start in H2, Hlt.
  split; [exact H1|]. split; [|split].
  - pose proof Hlt as Hnn. apply f64_ltb_iff in Hnn. destruct Hnn as (Hnn & _).
    apply div_not_nan in Hnn. destruct Hnn as [_ Hnn].
    apply sub_not_nan in Hnn. destruct Hnn as [Ha Hb].
    apply f64_not_ltb_leb; trivial.
  - exists k. split; [exact Hk|]. split; [exact Hr|exact Hlt].
  - intros Hm. unfold TrainerGo.convergenceK in Hk.
    change (TrainerGo.orDefault (TrainerGo.MinK cc)
              TrainerGo.defaultConvergenceMinK) with minK in Hk.
    rewrite Hm in Hk. apply trunc_Max_ten in Hk. subst n q. lia.
Qed.

(** C4.  The guard of [converging] rejects a last quadratic value above the
    starting objective only ([quadValues[last] > startObjective]): a value
    equal to it passes, where the claim asks for a value below it.  There
    the divisor [currentImprovement] of the test is a zero.  On eleven
    values, the first 1 and the others 0, with the starting objective 0 and
    the default criteria, the last value is not below the start, the
    quotient is [(0 - 1) / 0], minus infinity, and the test answers true. *)
Theorem converging_accepts_value_at_start :
  (forall (cc : TrainerGo.ConvergenceCriteria) (c : TrainerGo.cgSolver),
      TrainerGo.converging cc c = TrainerGo.Ok true ->
      gtb (TrainerGo.lastValue (TrainerGo.quadValues c))
          (TrainerGo.startObjective c) = false
      /\ leb (TrainerGo.lastValue (TrainerGo.quadValues c))
             (TrainerGo.startObjective c) = true)
  /\ (forall c : TrainerGo.cgSolver,
        is_finite (TrainerGo.startObjective c) = true ->
        eqb (TrainerGo.lastValue (TrainerGo.quadValues c))
            (TrainerGo.startObjective c) = true ->
        is_zero (sub (TrainerGo.lastValue (TrainerGo.quadValues c))
                     (TrainerGo.startObjective c)) = true)
  /\ (let c := Examples.levelRun in
      let q := TrainerGo.quadValues c in
      let start := TrainerGo.startObjective c in
      let currentImprovement := sub (TrainerGo.lastValue q) start in
      let oldImprovement := sub (nth (11 - 1 - 10) q zero) start in
      length q = 11%nat
      /\ TrainerGo.lastValue q = 0%float
      /\ start = 0%float
      /\ ltb (TrainerGo.lastValue q) start = false
      /\ TrainerGo.convergenceK Examples.defaults 11 = Some 10%Z
      /\ is_zero currentImprovement = true
      /\ div (sub currentImprovement oldImprovement) currentImprovement
         = neg_infinity
      /\ TrainerGo.converging Examples.defaults c = TrainerGo.Ok true).
Proof.
  split; [|split].
  - intros cc c H.
    destruct (converging_true_only_when _ _ H) as (_ & Hle & _).
    destruct (converging_true_inv _ _ H) as (_ & Hg & _).
    split; [exact Hg|exact Hle].
  - intros c Hf He.
    assert (Hn : is_nan (TrainerGo.lastValue (TrainerGo.quadValues c)) = false).
    { apply f64_eqb_iff in He. apply He. }
    destruct (@sub_zero_iff_eqb _ _ Hf Hn) as [_ Z]. rewrite Z. exact He.
  - repeat split; vm_compute; reflexivity.
Qed.

(* ================================================================== *)
(** * The solver: Best *)
(* ================================================================== *)

Section BestLoop.
Variable deltas : list ConstParamDelta.

(** What the scan has found after the values [pre ++ b :: mid]: the best
    value [b], at index [length pre].  No value read is below [b]; [b] is
    NaN only as the first value, and a first value that is NaN stays the
    best; when [b] is a number, every value read is NaN or at least [b],
    and every value before [b] is NaN or above it. *)
Lemma bestLoop_from (rest pre mid : list float64) (b : float64) :
  length deltas = length (pre ++ b :: mid ++ rest) ->
  Forall (fun v => ltb v b = false) (pre ++ b :: mid) ->
  (is_nan (hd b pre) = true -> pre = []) ->
  (is_nan b = true -> pre = []) ->
  (is_nan b = false ->
   Forall (fun v => is_nan v = true \/ leb b v = true) (pre ++ b :: mid)
   /\ Forall (fun v => is_nan v = true \/ ltb b v = true) pre) ->
  exists pre' b' post',
    pre ++ b :: mid ++ rest = pre' ++ b' :: post'
    /\ TrainerGo.bestLoop deltas rest (length (pre ++ b :: mid)) b
         (nth (length pre) deltas None)
       = TrainerGo.Ok (nth (length pre') deltas None)
    /\ Forall (fun v => ltb v b' = false) (pre' ++ b' :: post')
    /\ (is_nan (hd b' pre') = true -> pre' = [])
    /\ (is_nan b' = true -> pre' = [])
    /\ (is_nan b' = false ->
        Forall (fun v => is_nan v = true \/ leb b' v = true)
          (pre' ++ b' :: post')
        /\ Forall (fun v => is_nan v = true \/ ltb b' v = true) pre').
Proof.
  revert pre mid b.
  induction rest as [|v rest IH]; intros pre mid b Hlen Hlt Hhd Hnan Hle.
  - exists pre, b, mid. rewrite app_nil_r in *. cbn. auto 6.
  - cbn [TrainerGo.bestLoop].
    assert (Hi : (length (pre ++ b :: mid) =? 0)%nat = false).
    { apply Nat.eqb_neq. rewrite length_app. cbn. lia. }
    rewrite Hi, orb_false_r.
    destruct (ltb v b) eqn:E.
    + assert (Hn : (length (pre ++ b :: mid) < length deltas)%nat).
      { rewrite Hlen, !length_app. cbn. rewrite length_app. cbn. lia. }
      rewrite (nth_error_nth' deltas None Hn).
      destruct (proj1 (f64_ltb_iff v b) E) as (Nv & Nb & _).
      specialize (IH (pre ++ b :: mid) [] v).
      cbn [app] in IH.
      replace (length ((pre ++ b :: mid) ++ [v]))
        with (S (length (pre ++ b :: mid))) in IH
        by (rewrite (length_app _ [v]); cbn; lia).
      replace ((pre ++ b :: mid) ++ v :: rest)
        with (pre ++ b :: mid ++ v :: rest) in IH
        by (rewrite <- app_assoc; reflexivity).
      apply IH; clear IH.
      * exact Hlen.
      * apply Forall_app. split.
        -- eapply Forall_impl; [|exact Hlt]. intros a Ha; cbn beta in Ha |- *.
           destruct (ltb a v) eqn:F; trivial.
           rewrite (f64_ltb_trans F E) in Ha. discriminate.
        -- constructor; [apply f64_ltb_irrefl|constructor].
      * destruct pre as [|x pre0]; cbn [app hd].
        -- intros H. congruence.
        -- intros H. specialize (Hhd H). discriminate.
      * intros H. congruence.
      * intros _. destruct (Hle Nb) as [H1 _].
        assert (H2 : Forall (fun a => is_nan a = true \/ ltb v a = true)
                       (pre ++ b :: mid)).
        { eapply Forall_impl; [|exact H1]. intros a Ha; cbn beta in Ha |- *.
          destruct Ha as [Ha|Ha]; [left; exact Ha|].
          right. exact (f64_ltb_leb_trans E Ha). }
        split; [|exact H2].
        apply Forall_app. split.
        -- eapply Forall_impl; [|exact H2]. intros a Ha; cbn beta in Ha |- *.
           destruct Ha as [Ha|Ha]; [left; exact Ha|].
           right. apply f64_ltb_leb, Ha.
        -- constructor; [|constructor]. right. apply f64_leb_refl, Nv.
    + specialize (IH pre (mid ++ [v]) b).
      replace (pre ++ b :: (mid ++ [v]) ++ rest)
        with (pre ++ b :: mid ++ v :: rest) in IH
        by (rewrite <- (app_assoc mid); reflexivity).
      replace (pre ++ b :: mid ++ [v]) with ((pre ++ b :: mid) ++ [v]) in IH
        by (rewrite <- app_assoc; reflexivity).
      replace (length ((pre ++ b :: mid) ++ [v]))
        with (S (length (pre ++ b :: mid))) in IH
        by (rewrite (length_app _ [v]); cbn; lia).
      apply IH; clear IH.
      * exact Hlen.
      * apply Forall_app. split; [exact Hlt|]. constructor; [exact E|constructor].
      * exact Hhd.
      * exact Hnan.
      * intros Nb. destruct (Hle Nb) as [H1 H2]. split; [|exact H2].
        apply Forall_app. split; [exact H1|].
        constructor; [|constructor].
        destruct (is_nan v) eqn:Nv; [left; reflexivity|].
        right. apply f64_not_ltb_leb; trivial.
Qed.

(** The whole scan of a list of values that is not empty. *)
Lemma bestLoop_spec (b : float64) (rest : list float64) :
  length deltas = length (b :: rest) ->
  exists pre' b' post',
    b :: rest = pre' ++ b' :: post'
    /\ TrainerGo.bestLoop deltas (b :: rest) 0 zero None
       = TrainerGo.Ok (nth (length pre') deltas None)
    /\ Forall (fun v => ltb v b' = false) (pre' ++ b' :: post')
    /\ (is_nan (hd b' pre') = true -> pre' = [])
    /\ (is_nan b' = true -> pre' = [])
    /\ (is_nan b' = false ->
        Forall (fun v => is_nan v = true \/ leb b' v = true)
          (pre' ++ b' :: post')
        /\ Forall (fun v => is_nan v = true \/ ltb b' v = true) pre').
Proof.
  intros Hlen. cbn [TrainerGo.bestLoop]. rewrite Nat.eqb_refl, orb_true_r.
  assert (Hn : (0 < length deltas)%nat) by (rewrite Hlen; cbn; lia).
  rewrite (nth_error_nth' deltas None Hn).
  apply (@bestLoop_from rest [] [] b).
  - exact Hlen.
  - constructor; [apply f64_ltb_irrefl|constructor].
  - reflexivity.
  - reflexivity.
  - intros Nb. split; [|constructor].
    constructor; [|constructor]. right. apply f64_leb_refl, Nb.
Qed.
End BestLoop.

Section Reachable.
Variable L : Type.
Variable math_Pow : float64 -> float64 -> float64.
Variable t : TrainerGo.Trainer L.
Variable o : TrainerGo.Objective.
Variable s : SampleSet.

Lemma initializeIfNeeded_sound (c : TrainerGo.cgSolver) (w : TrainerGo.World L) :
  checkpointsSound o s c ->
  checkpointsSound o s (fst (TrainerGo.initializeIfNeeded t c w))
  /\ isNil (TrainerGo.Solution (fst (TrainerGo.initializeIfNeeded t c w))) = false.
Proof.
  intros (Ho & Hs & Hv & Hj). unfold TrainerGo.initializeIfNeeded.
  assert (Hsol : isNil (if isNil (TrainerGo.Solution c)
                        then TrainerGo.zeroDelta t (TrainerGo.learner w)
                        else TrainerGo.Solution c) = false).
  { destruct (isNil (TrainerGo.Solution c)) eqn:E; [reflexivity|exact E]. }
  assert (Hkeep : TrainerGo.justBacktracked c = true ->
                  (if isNil (TrainerGo.Solution c)
                   then TrainerGo.zeroDelta t (TrainerGo.learner w)
                   else TrainerGo.Solution c) = TrainerGo.Solution c).
  { intros J. destruct (Hj J) as [-> _]. reflexivity. }
  destruct (isNil (TrainerGo.residual c)); cbn [fst]; (split; [|exact Hsol]);
    unfold checkpointsSound;
    cbn [TrainerGo.c_Objective TrainerGo.c_Samples TrainerGo.backtrackDeltas
         TrainerGo.backtrackValues TrainerGo.justBacktracked TrainerGo.Solution];
    (repeat split; trivial);
    try (rewrite (Hkeep H); apply (Hj H)).
Qed.

Lemma iterate_sound (c : TrainerGo.cgSolver) (w : TrainerGo.World L) :
  checkpointsSound o s c ->
  isNil (TrainerGo.Solution c) = false ->
  checkpointsSound o s (fst (TrainerGo.iterate c w))
  /\ isNil (TrainerGo.Solution (fst (TrainerGo.iterate c w))) = false.
Proof.
  intros (Ho & Hs & Hv & Hj) Hn. unfold TrainerGo.iterate. cbn [fst]. split.
  - unfold checkpointsSound.
    cbn [TrainerGo.c_Objective TrainerGo.c_Samples TrainerGo.backtrackDeltas
         TrainerGo.backtrackValues TrainerGo.justBacktracked TrainerGo.Solution].
    repeat split; trivial; discriminate.
  - cbn [TrainerGo.Solution]. destruct (TrainerGo.Solution c); [reflexivity|discriminate].
Qed.

Lemma copy_not_nil (d : ConstParamDelta) : isNil d = false -> copy d = d.
Proof. destruct d; [reflexivity|discriminate]. Qed.

Lemma updateBacktracking_sound (fuel : nat) (c c' : TrainerGo.cgSolver) :
  checkpointsSound o s c ->
  isNil (TrainerGo.Solution c) = false ->
  TrainerGo.updateBacktracking math_Pow t fuel c = TrainerGo.Ok c' ->
  checkpointsSound o s c'.
Proof.
  intros (Ho & Hs & Hv & Hj) Hn. unfold TrainerGo.updateBacktracking.
  destruct (trunc _) as [v|]; [|discriminate].
  destruct (v >? _)%Z.
  { intros E. injection E as <-. repeat split; trivial; apply Hj; assumption. }
  destruct (TrainerGo.backtrackLoop _ _ _ _ _) as [count| |]; try discriminate.
  intros E. injection E as <-. unfold checkpointsSound.
  cbn [TrainerGo.c_Objective TrainerGo.c_Samples TrainerGo.backtrackDeltas
       TrainerGo.backtrackValues TrainerGo.justBacktracked TrainerGo.Solution].
  rewrite (copy_not_nil _ Hn) || rewrite (copy_not_nil Hn). repeat split; trivial.
  - apply Forall2_app; [exact Hv|]. constructor; [|constructor].
    rewrite Ho, Hs. reflexivity.
  - eexists. reflexivity.
Qed.

Lemma Step_sound (fuel : nat) (c c' : TrainerGo.cgSolver)
    (w w' : TrainerGo.World L) (b : bool) :
  checkpointsSound o s c ->
  TrainerGo.Step math_Pow t fuel c w = TrainerGo.Ok (b, c', w') ->
  checkpointsSound o s c'.
Proof.
  intros Hc. unfold TrainerGo.Step.
  destruct (initializeIfNeeded_sound w Hc) as [H0 N0].
  destruct (TrainerGo.initializeIfNeeded t c w) as [c0 w0]. cbn [fst] in H0, N0.
  destruct (TrainerGo.degenerate c0).
  { intros E. injection E as _ <- _. exact H0. }
  destruct (iterate_sound w0 H0 N0) as [H1 N1].
  destruct (TrainerGo.iterate c0 w0) as [c1 w1]. cbn [fst] in H1, N1.
  destruct (TrainerGo.converging _ c1) as [[|]| |]; try discriminate.
  { intros E. injection E as _ <- _. exact H1. }
  destruct (TrainerGo.updateBacktracking math_Pow t fuel c1) as [c2| |] eqn:U;
    try discriminate.
  intros E. injection E as _ <- _.
  eapply updateBacktracking_sound; eassumption.
Qed.

Lemma reachable_sound (c : TrainerGo.cgSolver) :
  reachable math_Pow t o s c -> checkpointsSound o s c.
Proof.
  induction 1 as [last|fuel c c' w w' b _ IH HS].
  - unfold checkpointsSound. cbn. repeat split; [constructor|discriminate|discriminate].
  - eapply Step_sound; eassumption.
Qed.
End Reachable.

Lemma reachable_stepsFrom (L : Type) (math_Pow : float64 -> float64 -> float64)
    (t : TrainerGo.Trainer L) (o : TrainerGo.Objective) (s : SampleSet)
    (fuel n : nat) (c : TrainerGo.cgSolver) (w : TrainerGo.World L) :
  reachable math_Pow t o s c ->
  reachable math_Pow t o s (stepsFrom math_Pow t fuel n c w).
Proof.
  revert c w. induction n as [|n IH]; intros c w H; cbn [stepsFrom]; trivial.
  destruct (TrainerGo.Step math_Pow t fuel c w) as [[[b c'] w']| |] eqn:E; trivial.
  apply IH. eapply reach_step; eassumption.
Qed.

Lemma Forall2_nth_split (A B : Type) (R : A -> B -> Prop) (d : A)
    (l : list A) (pre : list B) (b : B) (post : list B) :
  Forall2 R l (pre ++ b :: post) -> R (nth (length pre) l d) b.
Proof.
  revert l. induction pre as [|p pre IH]; intros l H; inversion H; subst; cbn.
  - assumption.
  - apply IH. assumption.
Qed.

Lemma finalCheckpoint_taken (c : TrainerGo.cgSolver) :
  TrainerGo.justBacktracked c = true -> TrainerGo.finalCheckpoint c = c.
Proof. unfold TrainerGo.finalCheckpoint. intros ->. reflexivity. Qed.

Lemma finalCheckpoint_lists (o : TrainerGo.Objective) (s : SampleSet)
    (c : TrainerGo.cgSolver) :
  checkpointsSound o s c ->
  Forall2 (fun d v => v = TrainerGo.obj_Objective o d s)
    (TrainerGo.backtrackDeltas (TrainerGo.finalCheckpoint c))
    (TrainerGo.backtrackValues (TrainerGo.finalCheckpoint c))
  /\ exists ds vs,
      TrainerGo.backtrackDeltas (TrainerGo.finalCheckpoint c)
      = ds ++ [TrainerGo.Solution c]
      /\ TrainerGo.backtrackValues (TrainerGo.finalCheckpoint c)
         = vs ++ [TrainerGo.obj_Objective o (TrainerGo.Solution c) s].
Proof.
  intros (Ho & Hs & Hv & Hj).
  destruct (TrainerGo.justBacktracked c) eqn:J.
  - rewrite (finalCheckpoint_taken _ J). split; [exact Hv|].
    destruct (Hj eq_refl) as [_ [ds Hds]]. rewrite Hds in Hv |- *.
    apply Forall2_app_inv_l in Hv. destruct Hv as (vs & v1 & Hvs & Hv1 & ->).
    inversion Hv1 as [|x y l l' Hxy Hnil]; subst. inversion Hnil; subst.
    exists ds, vs. split; reflexivity.
  - unfold TrainerGo.finalCheckpoint. rewrite J.
    cbn [TrainerGo.backtrackDeltas TrainerGo.backtrackValues].
    rewrite Ho, Hs. split.
    + apply Forall2_app; [exact Hv|]. constructor; [reflexivity|constructor].
    + eexists _, _. split; reflexivity.
Qed.

(** C5, as amended.  On a solver that a run can reach, [Best] first appends
    the current solution with its true objective unless a checkpoint was
    just taken, and scans the recorded values with [<] of Go.  When the
    first recorded value is NaN it returns the first checkpoint.  Otherwise
    it returns the earliest checkpoint that holds the lowest of the recorded
    values that are not NaN: its value is a number, every recorded value is
    NaN or at least it, and every earlier one is NaN or above it.  In every
    case the true objective of the returned delta is its recorded value and
    no recorded value, the true objective of the final iterate among them,
    is below it; when neither the first recorded value nor the true
    objective of the final iterate is NaN, the true objective of the
    returned delta is at most that of the final iterate.  When no recorded
    value is NaN, the returned checkpoint has the lowest value and every
    earlier checkpoint has a value strictly above it. *)
Theorem Best_returns_lowest_checkpoint :
  forall (L : Type) (math_Pow : float64 -> float64 -> float64)
         (t : TrainerGo.Trainer L) (o : TrainerGo.Objective) (s : SampleSet)
         (c : TrainerGo.cgSolver),
    reachable math_Pow t o s c ->
    let c' := TrainerGo.finalCheckpoint c in
    let final := TrainerGo.obj_Objective o (TrainerGo.Solution c) s in
    (if TrainerGo.justBacktracked c then c' = c
     else TrainerGo.backtrackDeltas c'
          = TrainerGo.backtrackDeltas c ++ [TrainerGo.Solution c]
          /\ TrainerGo.backtrackValues c'
             = TrainerGo.backtrackValues c ++ [final])
    /\ TrainerGo.Solution c' = TrainerGo.Solution c
    /\ exists pre b post d,
        TrainerGo.backtrackValues c' = pre ++ b :: post
        /\ TrainerGo.Best c = TrainerGo.Ok (d, c')
        /\ d = nth (length pre) (TrainerGo.backtrackDeltas c') None
        /\ TrainerGo.obj_Objective o d s = b
        /\ Forall (fun v => ltb v b = false) (TrainerGo.backtrackValues c')
        /\ ltb final (TrainerGo.obj_Objective o d s) = false
        /\ (is_nan (hd zero (TrainerGo.backtrackValues c')) = true ->
            pre = [])
        /\ (is_nan (hd zero (TrainerGo.backtrackValues c')) = false ->
            is_nan b = false
            /\ Forall (fun v => is_nan v = true \/ leb b v = true)
                 (TrainerGo.backtrackValues c')
            /\ Forall (fun v => is_nan v = true \/ ltb b v = true) pre
            /\ (is_nan final = false ->
                leb (TrainerGo.obj_Objective o d s) final = true))
        /\ (noNaN (TrainerGo.backtrackValues c') ->
            Forall (fun v => leb b v = true) (TrainerGo.backtrackValues c')
            /\ Forall (fun v => ltb b v = true) pre
            /\ leb (TrainerGo.obj_Objective o d s) final = true).
Proof.
  intros L math_Pow t o s c Hr c' final.
  pose proof (reachable_sound Hr) as Hc.
  destruct (finalCheckpoint_lists Hc) as [Hv (ds & vs & Hds & Hvs)].
  fold c' in Hv, Hds, Hvs. fold final in Hvs.
  split; [|split].
  - destruct (TrainerGo.justBacktracked c) eqn:J.
    + apply finalCheckpoint_taken, J.
    + subst c'. unfold TrainerGo.finalCheckpoint. rewrite J.
      destruct Hc as (-> & -> & _). split; reflexivity.
  - subst c'. unfold TrainerGo.finalCheckpoint.
    destruct (TrainerGo.justBacktracked c); reflexivity.
  - destruct (TrainerGo.backtrackValues c') as [|b0 rest] eqn:Evals.
    { destruct vs; discriminate. }
    pose proof (Forall2_length Hv) as Hlen.
    destruct (bestLoop_spec (TrainerGo.backtrackDeltas c') Hlen)
      as (pre & b & post & Hsplit & Hbest & Hlt & Hhd & Hnan & Hle).
    assert (Hb : TrainerGo.obj_Objective o
                   (nth (length pre) (TrainerGo.backtrackDeltas c') None) s = b).
    { rewrite Hsplit in Hv. symmetry.
      exact (Forall2_nth_split None _ _ _ Hv). }
    assert (Hin : In final (pre ++ b :: post)).
    { rewrite <- Hsplit, Hvs. apply in_or_app. right. left. reflexivity. }
    assert (Hfirst : hd zero (b0 :: rest) = hd b pre).
    { rewrite Hsplit. destruct pre; reflexivity. }
    assert (Hnum : is_nan (hd zero (b0 :: rest)) = false ->
              is_nan b = false
              /\ Forall (fun v => is_nan v = true \/ leb b v = true)
                   (pre ++ b :: post)
              /\ Forall (fun v => is_nan v = true \/ ltb b v = true) pre).
    { intros H. rewrite Hfirst in H.
      assert (Nb : is_nan b = false).
      { destruct (is_nan b) eqn:Nb; [|reflexivity].
        rewrite (Hnan eq_refl) in H. cbn [hd] in H. congruence. }
      split; [exact Nb|]. apply Hle, Nb. }
    exists pre, b, post, (nth (length pre) (TrainerGo.backtrackDeltas c') None).
    rewrite <- Hsplit in Hlt, Hnum, Hin |- *.
    split; [reflexivity|]. split.
    { unfold TrainerGo.Best. fold c'. rewrite Evals, Hbest. reflexivity. }
    split; [reflexivity|]. split; [exact Hb|]. split; [exact Hlt|].
    rewrite Hb. split; [|split; [|split]].
    + rewrite Forall_forall in Hlt. apply Hlt, Hin.
    + rewrite Hfirst. exact Hhd.
    + intros H. destruct (Hnum H) as (Nb & H1 & H2).
      split; [exact Nb|]. split; [exact H1|]. split; [exact H2|].
      intros Nf. rewrite Forall_forall in H1.
      destruct (H1 _ Hin) as [F|F]; [congruence|exact F].
    + intros Hnn. unfold noNaN in Hnn.
      assert (H : is_nan (hd zero (b0 :: rest)) = false).
      { inversion Hnn; assumption. }
      destruct (Hnum H) as (Nb & H1 & H2).
      assert (G1 : Forall (fun v => leb b v = true) (b0 :: rest)).
      { rewrite Forall_forall in *. intros v Hv'.
        destruct (H1 _ Hv') as [F|F]; [|exact F].
        rewrite (Hnn _ Hv') in F. discriminate. }
      split; [exact G1|]. split.
      * rewrite Hsplit in Hnn. apply Forall_app in Hnn. destruct Hnn as [Hnn _].
        rewrite Forall_forall in *. intros v Hv'.
        destruct (H2 _ Hv') as [F|F]; [|exact F].
        rewrite (Hnn _ Hv') in F. discriminate.
      * rewrite Forall_forall in G1. apply G1, Hin.
Qed.

Lemma Best_returns_lowest_checkpoint_witness :
  let t := Examples.trainer2 (Examples.stopAfter 2) Examples.growingObjective in
  let w := {| TrainerGo.learner := tt; TrainerGo.trace := [] |} in
  let c := stepsFrom Examples.powInt t 5 3
             (TrainerGo.newSolver Examples.growingObjective [0%nat] None) w in
  TrainerGo.backtrackValues (TrainerGo.finalCheckpoint c)
  = [0.3125%float; 4.00390625%float]
  /\ exists d,
      TrainerGo.Best c = TrainerGo.Ok (d, TrainerGo.finalCheckpoint c)
      /\ leb (Examples.lengthCost d [0%nat])
             (Examples.lengthCost (TrainerGo.Solution c) [0%nat]) = true.
Proof.
  intros t w c. split; [vm_compute; reflexivity|].
  destruct (@Best_returns_lowest_checkpoint unit Examples.powInt t
              Examples.growingObjective [0%nat] c
              (reachable_stepsFrom 5 3 w (reach_new _ _ _ _ _)))
    as (_ & _ & pre & b & post & d & _ & HB & _ & _ & _ & _ & _ & Hnum & _).
  exists d. split; [exact HB|].
  apply Hnum; vm_compute; reflexivity.
Defined.

(** C5 fails as stated when a recorded value is NaN.  With the true cost
    [nanCost], NaN at the first iterate, the run records the values NaN and
    4.00390625; [Best] keeps the first checkpoint, since no value is below
    NaN, so the value of the returned delta is neither the lowest recorded
    one nor at most the value of the final iterate. *)
Lemma Best_NaN_counterexample :
  let t := Examples.trainer2 (Examples.stopAfter 2) Examples.nanObjective in
  let w := {| TrainerGo.learner := tt; TrainerGo.trace := [] |} in
  let c := stepsFrom Examples.powInt t 5 3
             (TrainerGo.newSolver Examples.nanObjective [0%nat] None) w in
  reachable Examples.powInt t Examples.nanObjective [0%nat] c
  /\ exists d c',
      TrainerGo.Best c = TrainerGo.Ok (d, c')
      /\ TrainerGo.backtrackValues c' = [nan; 4.00390625%float]
      /\ d = Some [(0%nat, [0.5%float; 0.25%float])]
      /\ TrainerGo.Solution c = Some [(0%nat, [2%float; 0.0625%float])]
      /\ Examples.nanCost d [0%nat] = nan
      /\ Examples.nanCost (TrainerGo.Solution c) [0%nat] = 4.00390625%float
      /\ leb (Examples.nanCost d [0%nat])
             (Examples.nanCost (TrainerGo.Solution c) [0%nat]) = false.
Proof.
  intros t w c. split.
  - apply reachable_stepsFrom, reach_new.
  - eexists _, _. split; [vm_compute; reflexivity|].
    repeat split; vm_compute; reflexivity.
Defined.

(* ================================================================== *)
(** * The trainer: cancellation *)
(* ================================================================== *)

Section Cancellation.
Variable L : Type.
Variable math_Pow : float64 -> float64 -> float64.
Variable shuffle : nat -> SampleSet -> SampleSet.
Variable t : TrainerGo.Trainer L.

Lemma sameMarks_refl (w : TrainerGo.World L) : sameMarks w w.
Proof. split; reflexivity. Qed.

Lemma sameMarks_trans (w1 w2 w3 : TrainerGo.World L) :
  sameMarks w1 w2 -> sameMarks w2 w3 -> sameMarks w1 w3.
Proof.
  intros [A B] [C D]. split; [congruence|]. intros e m. rewrite D. apply B.
Qed.

Lemma sameMarks_log (w : TrainerGo.World L) (ev : TrainerGo.Event) :
  isStop ev = false -> (forall e m, isAdjustOf e m ev = false) ->
  sameMarks w (TrainerGo.logEvent ev w).
Proof.
  intros H1 H2. unfold sameMarks, TrainerGo.logEvent. cbn [TrainerGo.trace].
  split; [|intros e m]; rewrite filter_app; cbn [filter];
    rewrite ?H1, ?H2; apply app_nil_r.
Qed.

Lemma initializeIfNeeded_marks (c : TrainerGo.cgSolver) (w : TrainerGo.World L) :
  sameMarks w (snd (TrainerGo.initializeIfNeeded t c w)).
Proof.
  unfold TrainerGo.initializeIfNeeded.
  destruct (isNil (TrainerGo.residual c)); cbn [snd].
  - apply sameMarks_log; reflexivity.
  - apply sameMarks_refl.
Qed.

Lemma Step_marks (fuel : nat) (c c' : TrainerGo.cgSolver)
    (w w' : TrainerGo.World L) (b : bool) :
  TrainerGo.Step math_Pow t fuel c w = TrainerGo.Ok (b, c', w') ->
  sameMarks w w'.
Proof.
  unfold TrainerGo.Step.
  pose proof (initializeIfNeeded_marks c w) as H0.
  destruct (TrainerGo.initializeIfNeeded t c w) as [c0 w0]. cbn [snd] in H0.
  destruct (TrainerGo.degenerate c0).
  { intros E. injection E as _ _ <-. exact H0. }
  assert (H1 : sameMarks w (snd (TrainerGo.iterate c0 w0))).
  { eapply sameMarks_trans; [exact H0|]. unfold TrainerGo.iterate. cbn [snd].
    apply sameMarks_log; reflexivity. }
  destruct (TrainerGo.iterate c0 w0) as [c1 w1]. cbn [snd] in H1.
  destruct (TrainerGo.converging _ c1) as [[|]| |]; try discriminate.
  { intros E. injection E as _ _ <-. exact H1. }
  destruct (TrainerGo.updateBacktracking math_Pow t fuel c1) as [c2| |];
    try discriminate.
  intros E. injection E as _ _ <-. exact H1.
Qed.

(** What the loop over [Step] leaves in the history. *)
Lemma cgLoop_marks (fuel epoch miniBatch : nat) :
  forall (c : TrainerGo.cgSolver) (w : TrainerGo.World L),
    match TrainerGo.cgLoop math_Pow t fuel epoch miniBatch c w with
    | TrainerGo.Returned (Some _, w') => sameMarks w w'
    | TrainerGo.Returned (None, w') =>
        exists w1,
          sameMarks w w1
          /\ TrainerGo.trace w'
             = TrainerGo.trace w1
               ++ [TrainerGo.EvShouldStop TrainerGo.AfterStep epoch miniBatch true]
    | TrainerGo.Panicked w' => sameMarks w w'
    | TrainerGo.OutOfFuel w' => sameMarks w w'
    end.
Proof.
  induction fuel as [|fuel IH]; intros c w; cbn [TrainerGo.cgLoop].
  - apply sameMarks_refl.
  - destruct (TrainerGo.Step math_Pow t fuel c w) as [[[b c'] w']| |] eqn:E;
      try apply sameMarks_refl.
    pose proof (Step_marks _ _ _ E) as HS.
    destruct b; [|exact HS].
    unfold TrainerGo.poll.
    destruct (TrainerGo.ShouldStop (TrainerGo.t_UI t) (TrainerGo.trace w')) eqn:P.
    + exists w'. split; [exact HS|]. reflexivity.
    + specialize (IH c'
        (TrainerGo.logEvent
           (TrainerGo.EvShouldStop TrainerGo.AfterStep epoch miniBatch false) w')).
      assert (HP : sameMarks w
                (TrainerGo.logEvent
                   (TrainerGo.EvShouldStop TrainerGo.AfterStep epoch miniBatch false)
                   w')).
      { eapply sameMarks_trans; [exact HS|]. apply sameMarks_log; reflexivity. }
      destruct (TrainerGo.cgLoop math_Pow t fuel epoch miniBatch c' _)
        as [[[c2|] w2]|w2|w2].
      * eapply sameMarks_trans; eassumption.
      * destruct IH as (w1 & H1 & H2). exists w1. split; [|exact H2].
        eapply sameMarks_trans; eassumption.
      * eapply sameMarks_trans; eassumption.
      * eapply sameMarks_trans; eassumption.
Qed.

Lemma trainLoop_marks (fuel : nat) :
  forall (epoch miniBatch : nat) (i : Z) (shuffled : SampleSet)
         (lastSolution : ConstParamDelta) (w : TrainerGo.World L),
    filter isStop (TrainerGo.trace w) = [] ->
    (forall e m, (epoch < e \/ (epoch = e /\ miniBatch <= m))%nat ->
                 filter (isAdjustOf e m) (TrainerGo.trace w) = []) ->
    stoppedOrRunning
      (TrainerGo.trainLoop math_Pow shuffle t fuel epoch miniBatch i shuffled
         lastSolution w).
Proof.
  induction fuel as [|fuel IH]; intros epoch miniBatch i shuffled lastSolution w
    Hs Ha; cbn [TrainerGo.trainLoop].
  - exact Hs.
  - destruct (i <? Len shuffled)%Z.
    2:{ apply IH; [exact Hs|]. intros e m H. apply Ha. lia. }
    destruct (TrainerGo.Subset shuffled i _) as [subset|]; [|exact Hs].
    unfold TrainerGo.poll.
    destruct (TrainerGo.ShouldStop (TrainerGo.t_UI t) (TrainerGo.trace w)) eqn:P.
    { cbn [stoppedOrRunning TrainerGo.logEvent TrainerGo.trace].
      exists (TrainerGo.trace w), TrainerGo.BeforeMiniBatch, epoch, miniBatch.
      split; [reflexivity|]. split; [exact Hs|].
      rewrite filter_app. cbn [filter isAdjustOf]. rewrite app_nil_r.
      apply Ha. lia. }
    destruct (TrainerGo.MakeObjective (TrainerGo.t_Learner t) _) as [o l].
    set (w3 := {| TrainerGo.learner := l; TrainerGo.trace := _ |}).
    assert (H3 : sameMarks w w3).
    { unfold sameMarks, w3. cbn [TrainerGo.logEvent TrainerGo.trace].
      split; [|intros e m]; rewrite !filter_app; cbn [filter isStop isAdjustOf];
        rewrite !app_nil_r; reflexivity. }
    pose proof (cgLoop_marks fuel epoch miniBatch
                  (TrainerGo.newSolver o subset lastSolution) w3) as HC.
    destruct (TrainerGo.cgLoop math_Pow t fuel epoch miniBatch _ w3)
      as [[[c|] w4]|w4|w4].
    + pose proof (sameMarks_trans H3 HC) as [H4 H5].
      destruct (TrainerGo.Best c) as [[useDelta c']| |];
        try (cbn [stoppedOrRunning]; congruence).
      apply IH; cbn [TrainerGo.trace].
      * rewrite filter_app. cbn [filter isStop]. rewrite app_nil_r. congruence.
      * intros e m H. rewrite filter_app. cbn [filter isAdjustOf].
        rewrite H5, (Ha e m) by lia.
        destruct (epoch =? e)%nat eqn:E1; [|reflexivity].
        destruct (miniBatch =? m)%nat eqn:E2; [|reflexivity].
        apply Nat.eqb_eq in E1, E2. lia.
    + destruct HC as (w1 & H1 & H2).
      pose proof (sameMarks_trans H3 H1) as [H4 H5].
      cbn [stoppedOrRunning].
      exists (TrainerGo.trace w1), TrainerGo.AfterStep, epoch, miniBatch.
      split; [exact H2|]. split; [congruence|].
      rewrite H2, filter_app. cbn [filter isAdjustOf]. rewrite app_nil_r, H5.
      apply Ha. lia.
    + pose proof (sameMarks_trans H3 HC) as [H4 _].
      cbn [stoppedOrRunning]. congruence.
    + pose proof (sameMarks_trans H3 HC) as [H4 _].
      cbn [stoppedOrRunning]. congruence.
Qed.
End Cancellation.

Lemma filter_nil_not_In (A : Type) (f : A -> bool) (l : list A) (x : A) :
  filter f l = [] -> f x = true -> ~ In x l.
Proof.
  intros H Hx Hin.
  assert (In x (filter f l)) by (apply filter_In; split; assumption).
  rewrite H in *. contradiction.
Qed.

Lemma split_at_last (A : Type) (pre pre' post : list A) (x y : A) :
  pre' ++ x :: post = pre ++ [y] ->
  (post = [] /\ pre' = pre /\ x = y) \/ In x pre.
Proof.
  intros H. destruct (exists_last (l := x :: post)) as (l' & z & E);
    [discriminate|].
  rewrite E, app_assoc in H. apply app_inj_tail in H. destruct H as [H1 H2].
  destruct post as [|p post].
  - left. destruct l' as [|a l']; cbn in E.
    + injection E as ->. rewrite app_nil_r in H1. subst. auto.
    + injection E as _ E. destruct l'; discriminate.
  - right. destruct l' as [|a l']; cbn in E.
    + discriminate.
    + injection E as -> _. rewrite <- H1. apply in_or_app. right. left. reflexivity.
Qed.

(** C8.  A poll of [ShouldStop] that is answered by true is the last event
    of the run: [Train] has returned, and [Learner.Adjust] was not called
    for the mini-batch of that poll, neither before nor after.  [Train]
    returns in no other way. *)
Theorem Train_cancellation :
  forall (L : Type) (math_Pow : float64 -> float64 -> float64)
         (shuffle : nat -> SampleSet -> SampleSet) (t : TrainerGo.Trainer L)
         (fuel : nat) (l : L),
    let out := TrainerGo.Train math_Pow shuffle t fuel l in
    (forall w, out = TrainerGo.Returned w ->
       exists pre site epoch miniBatch,
         TrainerGo.trace w
         = pre ++ [TrainerGo.EvShouldStop site epoch miniBatch true])
    /\ (forall pre site epoch miniBatch post,
          outcomeTrace out
          = pre ++ TrainerGo.EvShouldStop site epoch miniBatch true :: post ->
          post = []
          /\ (exists w, out = TrainerGo.Returned w)
          /\ (forall useDelta lastSolution subset,
                ~ In (TrainerGo.EvAdjust epoch miniBatch useDelta lastSolution
                        subset) (outcomeTrace out))
          /\ (forall site' epoch' miniBatch',
                ~ In (TrainerGo.EvShouldStop site' epoch' miniBatch' true) pre)).
Proof.
  intros L math_Pow shuffle t fuel l out.
  assert (H : stoppedOrRunning out).
  { apply trainLoop_marks; [reflexivity|]. intros; reflexivity. }
  split.
  - intros w E. rewrite E in H. destruct H as (pre & site & e & m & H & _).
    exists pre, site, e, m. exact H.
  - intros pre site epoch miniBatch post E.
    destruct out as [w|w|w]; cbn [outcomeTrace stoppedOrRunning] in E, H.
    + destruct H as (pre0 & site0 & e0 & m0 & H1 & H2 & H3).
      rewrite H1 in E. symmetry in E.
      destruct (@split_at_last _ _ _ _ _ _ E) as [(-> & -> & Ex)|Hin].
      * injection Ex as -> -> ->. split; [reflexivity|]. split; [eauto|].
        cbn [outcomeTrace]. split.
        -- intros u v s. eapply filter_nil_not_In; [exact H3|]. cbn.
           rewrite !Nat.eqb_refl. reflexivity.
        -- intros s' e' m'. eapply filter_nil_not_In; [exact H2|]. reflexivity.
      * exfalso. revert Hin. eapply filter_nil_not_In; [exact H2|]. reflexivity.
    + exfalso.
      apply (@filter_nil_not_In _ isStop (TrainerGo.trace w)
               (TrainerGo.EvShouldStop site epoch miniBatch true) H eq_refl).
      rewrite E. apply in_or_app. right. left. reflexivity.
    + exfalso.
      apply (@filter_nil_not_In _ isStop (TrainerGo.trace w)
               (TrainerGo.EvShouldStop site epoch miniBatch true) H eq_refl).
      rewrite E. apply in_or_app. right. left. reflexivity.
Qed.

(** The user stops the run at the poll that follows the second iteration of
    the first mini-batch. *)
Lemma Train_cancellation_witness :
  let out := TrainerGo.Train Examples.powInt Examples.keepOrder
               (Examples.trainer2 (Examples.stopAtPoll 2)
                  Examples.growingObjective) 50 tt in
  outcomeTrace out
  = [TrainerGo.EvShouldStop TrainerGo.BeforeMiniBatch 0 0 false;
     TrainerGo.EvLogNewMiniBatch 0 0;
     TrainerGo.EvLogCGStart 0%float 0%float;
     TrainerGo.EvLogCGIteration 0.25%float (-0.625)%float;
     TrainerGo.EvShouldStop TrainerGo.AfterStep 0 0 false;
     TrainerGo.EvLogCGIteration 0.25%float (-2.03125)%float]
    ++ [TrainerGo.EvShouldStop TrainerGo.AfterStep 0 0 true]
  /\ (exists w, out = TrainerGo.Returned w)
  /\ ~ In (TrainerGo.EvAdjust 0 0 None None []) (outcomeTrace out).
Proof.
  intros out.
  assert (E : outcomeTrace out
              = [TrainerGo.EvShouldStop TrainerGo.BeforeMiniBatch 0 0 false;
                 TrainerGo.EvLogNewMiniBatch 0 0;
                 TrainerGo.EvLogCGStart 0%float 0%float;
                 TrainerGo.EvLogCGIteration 0.25%float (-0.625)%float;
                 TrainerGo.EvShouldStop TrainerGo.AfterStep 0 0 false;
                 TrainerGo.EvLogCGIteration 0.25%float (-2.03125)%float]
                ++ [TrainerGo.EvShouldStop TrainerGo.AfterStep 0 0 true])
    by (vm_compute; reflexivity).
  split; [exact E|].
  destruct (proj2 (@Train_cancellation unit Examples.powInt Examples.keepOrder
                     (Examples.trainer2 (Examples.stopAtPoll 2)
                        Examples.growingObjective) 50 tt)
              _ _ _ _ _ E) as (_ & H1 & H2 & _).
  split; [exact H1|apply H2].
Defined.

(* ================================================================== *)
(** * learner.go: the damped gradient *)
(* ================================================================== *)

Lemma addScaled_length (scaler : float64) (sub resVec : Vector) :
  (length sub <= length resVec)%nat <->
  exists t, LearnerGo.addScaled scaler resVec sub = Some t.
Proof.
  revert resVec. induction sub as [|x sub IH]; intros resVec; cbn.
  - split; [intros _; destruct resVec; eexists; reflexivity|lia].
  - destruct resVec as [|r resVec]; cbn.
    + split; [lia|intros [t H]; discriminate].
    + rewrite <- Nat.succ_le_mono, IH. split; intros [t H].
      * rewrite H. eexists; reflexivity.
      * destruct (LearnerGo.addScaled scaler resVec sub) as [t'|];
          [eexists; reflexivity|discriminate].
Qed.

Lemma addScaled_nth (scaler : float64) (sub resVec t : Vector) :
  LearnerGo.addScaled scaler resVec sub = Some t ->
  length t = length resVec
  /\ forall i,
      nth i t zero
      = if (i <? length sub)%nat
        then add (nth i resVec zero) (mul scaler (nth i sub zero))
        else nth i resVec zero.
Proof.
  revert resVec t. induction sub as [|x sub IH]; intros resVec t; cbn.
  - intros H. assert (t = resVec) by (destruct resVec; cbn in H; congruence). subst t.
    split; [reflexivity|]. intros i. reflexivity.
  - destruct resVec as [|r resVec]; cbn [LearnerGo.addScaled];
      [discriminate|].
    destruct (LearnerGo.addScaled scaler resVec sub) as [t'|] eqn:E;
      [|discriminate].
    intros H. injection H as <-. destruct (IH _ _ E) as [Hl Hn].
    split; [cbn; lia|]. intros [|i]; [reflexivity|]. cbn [nth]. rewrite Hn.
    change (S i <? S (length sub))%nat with (i <? length sub)%nat. reflexivity.
Qed.

Lemma lookupVar_setVar (l : list (VarId * Vector)) (v v' : VarId) (x : Vector) :
  lookupVar (setVar l v x) v'
  = if Nat.eqb v v'
    then match lookupVar l v with Some _ => Some x | None => None end
    else lookupVar l v'.
Proof.
  induction l as [|[k y] l IH]; cbn.
  - destruct (Nat.eqb v v'); reflexivity.
  - destruct (Nat.eqb k v) eqn:E1; cbn.
    + apply Nat.eqb_eq in E1. subst k. destruct (Nat.eqb v v'); reflexivity.
    + destruct (Nat.eqb k v') eqn:E2.
      * apply Nat.eqb_eq in E2. subst k. rewrite Nat.eqb_sym in E1.
        rewrite E1. reflexivity.
      * exact IH.
Qed.

Lemma setVar_keys (l : list (VarId * Vector)) (v : VarId) (x : Vector) :
  map fst (setVar l v x) = map fst l.
Proof.
  induction l as [|[k y] l IH]; cbn; [reflexivity|].
  destruct (Nat.eqb k v); cbn; [reflexivity|]. rewrite IH. reflexivity.
Qed.

Lemma getVec_stored (res : ConstParamDelta) (v v' : VarId) (x : Vector) :
  length x = length (getVec res v) ->
  length (getVec (stored res v x) v') = length (getVec res v')
  /\ (v <> v' -> getVec (stored res v x) v' = getVec res v')
  /\ getVec (stored res v x) v = x.
Proof.
  unfold getVec, stored. destruct res as [l|]; cbn [entries].
  - rewrite !lookupVar_setVar, Nat.eqb_refl.
    destruct (Nat.eqb v v') eqn:E.
    + apply Nat.eqb_eq in E. subst v'. intros H.
      destruct (lookupVar l v); cbn in *.
      * repeat split; trivial. intros F. destruct (F eq_refl).
      * destruct x; [|discriminate]. repeat split; trivial.
    + intros H. split; [reflexivity|]. split; [reflexivity|].
      destruct (lookupVar l v); cbn in *; [reflexivity|].
      destruct x; [reflexivity|discriminate].
  - cbn. intros H. destruct x; [|discriminate]. repeat split; trivial.
Qed.

Lemma gradLoop_step (scaler : float64) (variable : VarId) (subDelta : Vector)
    (rest : list (VarId * Vector)) (res : ConstParamDelta) :
  LearnerGo.gradLoop scaler ((variable, subDelta) :: rest) res
  = match LearnerGo.addScaled scaler (getVec res variable) subDelta with
    | None => None
    | Some resVec => LearnerGo.gradLoop scaler rest (stored res variable resVec)
    end.
Proof. reflexivity. Qed.

Lemma gradLoop_shape (scaler : float64) (delta : list (VarId * Vector)) :
  forall res r : ConstParamDelta,
    LearnerGo.gradLoop scaler delta res = Some r ->
    isNil r = isNil res
    /\ map fst (entries r) = map fst (entries res)
    /\ forall v, length (getVec r v) = length (getVec res v).
Proof.
  induction delta as [|[v0 sub0] rest IH]; intros res r H.
  - cbn in H. injection H as <-. repeat split.
  - rewrite gradLoop_step in H.
    destruct (LearnerGo.addScaled scaler (getVec res v0) sub0) as [resVec|] eqn:E;
      [|discriminate].
    destruct (addScaled_nth _ _ _ E) as [Hl _].
    destruct (IH _ _ H) as (H1 & H2 & H3). repeat split.
    + rewrite H1. destruct res; reflexivity.
    + rewrite H2. destruct res; cbn; [apply setVar_keys|reflexivity].
    + intros v. rewrite H3. apply (getVec_stored res v0 v resVec Hl).
Qed.

Lemma fitsIn_stored (rest : list (VarId * Vector)) (res : ConstParamDelta)
    (v0 : VarId) (x : Vector) :
  length x = length (getVec res v0) ->
  fitsIn rest (stored res v0 x) <-> fitsIn rest res.
Proof.
  intros Hl. unfold fitsIn.
  split; intros H v sub Hin; specialize (H v sub Hin);
    destruct (getVec_stored res v0 v x Hl) as [E _]; lia.
Qed.

Lemma gradLoop_succeeds_iff (scaler : float64) (delta : list (VarId * Vector)) :
  forall res : ConstParamDelta,
    (exists r, LearnerGo.gradLoop scaler delta res = Some r) <-> fitsIn delta res.
Proof.
  induction delta as [|[v0 sub0] rest IH]; intros res.
  - split; [intros _ v sub []|intros _; eexists; reflexivity].
  - rewrite gradLoop_step. split.
    + intros [r H].
      destruct (LearnerGo.addScaled scaler (getVec res v0) sub0) as [resVec|] eqn:E;
        [|discriminate].
      destruct (addScaled_nth _ _ _ E) as [Hl _].
      assert (Hr : fitsIn rest res).
      { apply (fitsIn_stored rest res v0 resVec Hl). apply IH. eauto. }
      intros v sub [Hin|Hin].
      * injection Hin as <- <-.
        apply (proj2 (addScaled_length scaler sub0 (getVec res v0))). eauto.
      * apply Hr, Hin.
    + intros H.
      destruct (proj1 (addScaled_length scaler sub0 (getVec res v0)))
        as [resVec E]; [apply H; left; reflexivity|].
      rewrite E. destruct (addScaled_nth _ _ _ E) as [Hl _].
      apply IH. apply (fitsIn_stored rest res v0 resVec Hl).
      intros v sub Hin. apply H. right. exact Hin.
Qed.

Lemma lookupVar_absent (l : list (VarId * Vector)) (v : VarId) :
  ~ In v (map fst l) -> lookupVar l v = None.
Proof.
  induction l as [|[k y] l IH]; cbn; [reflexivity|]. intros H.
  destruct (Nat.eqb k v) eqn:E.
  - apply Nat.eqb_eq in E. tauto.
  - apply IH. tauto.
Qed.

Lemma gradLoop_values (scaler : float64) (delta : list (VarId * Vector)) :
  forall res r : ConstParamDelta,
    NoDup (map fst delta) ->
    LearnerGo.gradLoop scaler delta res = Some r ->
    forall v i,
      nth i (getVec r v) zero
      = match lookupVar delta v with
        | Some sub =>
            if (i <? length sub)%nat
            then add (nth i (getVec res v) zero) (mul scaler (nth i sub zero))
            else nth i (getVec res v) zero
        | None => nth i (getVec res v) zero
        end.
Proof.
  induction delta as [|[v0 sub0] rest IH]; intros res r Hnd H v i.
  - cbn in H. injection H as <-. reflexivity.
  - rewrite gradLoop_step in H. cbn [map fst] in Hnd.
    inversion Hnd as [|k l Hnin Hnd']; subst.
    destruct (LearnerGo.addScaled scaler (getVec res v0) sub0) as [resVec|] eqn:E;
      [|discriminate].
    destruct (addScaled_nth _ _ _ E) as [Hl Hn].
    rewrite (IH _ _ Hnd' H v i).
    destruct (getVec_stored res v0 v resVec Hl) as (_ & Hother & _).
    destruct (getVec_stored res v0 v0 resVec Hl) as (_ & _ & Hsame).
    cbn [lookupVar]. destruct (Nat.eqb v0 v) eqn:Ev.
    + apply Nat.eqb_eq in Ev. subst v.
      rewrite (lookupVar_absent _ _ Hnin), Hsame. apply Hn.
    + apply Nat.eqb_neq in Ev. rewrite (Hother Ev). reflexivity.
Qed.

(** X1.  [QuadGrad] and [QuadHessian] of the damped objective panic exactly
    when the vector that the wrapped result holds for some variable of the
    delta is shorter than the delta's (a variable the wrapped result lacks
    counts for an empty vector); otherwise the result has the variables and
    the vector lengths of the wrapped result. *)
Theorem damped_gradient_panics_iff_short :
  forall (d : LearnerGo.dampedObjective) (delta : ConstParamDelta)
         (s : SampleSet) (resG resH : ConstParamDelta),
    LearnerGo.obj_QuadGrad (LearnerGo.WrappedObjective d) delta s = Some resG ->
    LearnerGo.obj_QuadHessian (LearnerGo.WrappedObjective d) delta s = Some resH ->
    ((exists r, LearnerGo.dampedObjective_QuadGrad d delta s = Some r)
     <-> fitsIn (entries delta) resG)
    /\ ((exists r, LearnerGo.dampedObjective_QuadHessian d delta s = Some r)
        <-> fitsIn (entries delta) resH)
    /\ (forall r, LearnerGo.dampedObjective_QuadGrad d delta s = Some r ->
          isNil r = isNil resG
          /\ map fst (entries r) = map fst (entries resG)
          /\ forall v, length (getVec r v) = length (getVec resG v))
    /\ (forall r, LearnerGo.dampedObjective_QuadHessian d delta s = Some r ->
          isNil r = isNil resH
          /\ map fst (entries r) = map fst (entries resH)
          /\ forall v, length (getVec r v) = length (getVec resH v)).
Proof.
  intros d delta s resG resH HG HH.
  unfold LearnerGo.dampedObjective_QuadGrad, LearnerGo.dampedObjective_QuadHessian.
  rewrite HG, HH. repeat split.
  - apply gradLoop_succeeds_iff.
  - apply gradLoop_succeeds_iff.
  - apply gradLoop_succeeds_iff.
  - apply gradLoop_succeeds_iff.
  - apply (gradLoop_shape _ _ _ H).
  - apply (gradLoop_shape _ _ _ H).
  - apply (gradLoop_shape _ _ _ H).
  - apply (gradLoop_shape _ _ _ H).
  - apply (gradLoop_shape _ _ _ H).
  - apply (gradLoop_shape _ _ _ H).
Qed.

(** A delta of two components against a wrapped gradient of one. *)
Lemma damped_gradient_panics_iff_short_witness :
  LearnerGo.dampedObjective_QuadGrad
    {| LearnerGo.WrappedObjective := Examples.nullObjective;
       LearnerGo.Coeff := 1%float |}
    (Some [(0%nat, [1%float; 1%float])]) Examples.oneSample = None
  /\ ~ fitsIn [(0%nat, [1%float; 1%float])] (Some [(0%nat, [0%float])]).
Proof.
  split; [reflexivity|].
  intros F.
  destruct (proj2 (proj1 (@damped_gradient_panics_iff_short
              {| LearnerGo.WrappedObjective := Examples.nullObjective;
                 LearnerGo.Coeff := 1%float |}
              (Some [(0%nat, [1%float; 1%float])]) Examples.oneSample
              (Some [(0%nat, [0%float])]) (Some [(0%nat, [0%float])])
              eq_refl eq_refl)) F) as [r H].
  discriminate.
Defined.

(** X2.  Over a delta, the damped [QuadGrad] and [QuadHessian] change the
    wrapped result at the components of the delta only: there they add
    [float64(2n)] times the component, [n] the number of samples; every
    other component, and every variable the delta lacks, is as the wrapped
    objective gave it. *)
Theorem damped_gradient_components :
  forall (d : LearnerGo.dampedObjective) (delta : ConstParamDelta)
         (s : SampleSet) (res r : ConstParamDelta),
    NoDup (map fst (entries delta)) ->
    (LearnerGo.obj_QuadGrad (LearnerGo.WrappedObjective d) delta s = Some res
     /\ LearnerGo.dampedObjective_QuadGrad d delta s = Some r)
    \/ (LearnerGo.obj_QuadHessian (LearnerGo.WrappedObjective d) delta s = Some res
        /\ LearnerGo.dampedObjective_QuadHessian d delta s = Some r) ->
    forall v i,
      nth i (getVec r v) zero
      = match lookupVar (entries delta) v with
        | Some sub =>
            if (i <? length sub)%nat
            then add (nth i (getVec res v) zero)
                     (mul (of_Z (2 * Len s)) (nth i sub zero))
            else nth i (getVec res v) zero
        | None => nth i (getVec res v) zero
        end.
Proof.
  intros d delta s res r Hnd [[Hw H]|[Hw H]];
    unfold LearnerGo.dampedObjective_QuadGrad,
      LearnerGo.dampedObjective_QuadHessian in H;
    rewrite Hw in H; apply (gradLoop_values _ _ _ Hnd H).
Qed.

Lemma damped_gradient_components_witness :
  nth 0 (getVec (Some [(0%nat, [2%float])]) 0) zero
  = add 0%float (mul 2%float 1%float).
Proof.
  exact (@damped_gradient_components
           {| LearnerGo.WrappedObjective := Examples.nullObjective;
              LearnerGo.Coeff := 7%float |}
           Examples.stepOne Examples.oneSample
           (Some [(0%nat, [0%float])]) (Some [(0%nat, [2%float])])
           (NoDup_cons 0%nat (@in_nil nat 0%nat) (NoDup_nil nat))
           (or_introl (conj eq_refl eq_refl)) 0%nat 0%nat).
Defined.

(* ================================================================== *)
(** * The damped objective: NaN *)
(* ================================================================== *)

Lemma add_nan_l (x y : float64) : is_nan x = true -> is_nan (add x y) = true.
Proof.
  rewrite !f64_is_nan_spec. unfold add. rewrite FloatAxioms.add_spec.
  destruct (Prim2SF x); try discriminate. intros _. reflexivity.
Qed.

Lemma add_nan_r (x y : float64) : is_nan y = true -> is_nan (add x y) = true.
Proof.
  rewrite !f64_is_nan_spec. unfold add. rewrite FloatAxioms.add_spec.
  destruct (Prim2SF y); try discriminate. intros _.
  destruct (Prim2SF x); reflexivity.
Qed.

Lemma mul_nan_l (x y : float64) : is_nan x = true -> is_nan (mul x y) = true.
Proof.
  rewrite !f64_is_nan_spec. unfold mul. rewrite FloatAxioms.mul_spec.
  destruct (Prim2SF x); try discriminate. intros _. reflexivity.
Qed.

Lemma mul_nan_r (x y : float64) : is_nan y = true -> is_nan (mul x y) = true.
Proof.
  rewrite !f64_is_nan_spec. unfold mul. rewrite FloatAxioms.mul_spec.
  destruct (Prim2SF y); try discriminate. intros _.
  destruct (Prim2SF x); reflexivity.
Qed.

Lemma quadLoop_nan_acc (scaler : float64) (sub : Vector) :
  forall res, is_nan res = true ->
              is_nan (LearnerGo.quadLoop scaler sub res) = true.
Proof.
  unfold LearnerGo.quadLoop.
  induction sub as [|x sub IH]; intros res H; cbn [fold_left]; [exact H|].
  apply IH, add_nan_l, H.
Qed.

Lemma quadLoop_nan_in (scaler : float64) (sub : Vector) (x : float64) :
  In x sub -> is_nan x = true ->
  forall res, is_nan (LearnerGo.quadLoop scaler sub res) = true.
Proof.
  intros Hin Hx. induction sub as [|y sub IH]; [destruct Hin|].
  intros res. destruct Hin as [->|Hin].
  - change (LearnerGo.quadLoop scaler (x :: sub) res)
      with (LearnerGo.quadLoop scaler sub (add res (mul (mul scaler x) x))).
    apply quadLoop_nan_acc, add_nan_r, mul_nan_r, Hx.
  - change (LearnerGo.quadLoop scaler (y :: sub) res)
      with (LearnerGo.quadLoop scaler sub (add res (mul (mul scaler y) y))).
    apply IH, Hin.
Qed.

Lemma quadFold_nan_acc (scaler : float64) (l : list (VarId * Vector)) :
  forall res, is_nan res = true ->
    is_nan (fold_left (fun res kv => LearnerGo.quadLoop scaler (snd kv) res)
              l res) = true.
Proof.
  induction l as [|kv l IH]; intros res H; cbn [fold_left]; [exact H|].
  apply IH, quadLoop_nan_acc, H.
Qed.

(** X3.  [Quad] of the damped objective is NaN as soon as the wrapped
    [Quad] is NaN or one component of the delta is NaN, in whatever order
    the variables of the delta are visited. *)
Theorem damped_Quad_NaN :
  forall (d : LearnerGo.dampedObjective) (delta : ConstParamDelta)
         (s : SampleSet),
    is_nan (LearnerGo.obj_Quad (LearnerGo.WrappedObjective d) delta s) = true
    \/ (exists v sub x,
          In (v, sub) (entries delta) /\ In x sub /\ is_nan x = true) ->
    is_nan (LearnerGo.dampedObjective_Quad d delta s) = true.
Proof.
  intros d delta s H. unfold LearnerGo.dampedObjective_Quad.
  destruct H as [H|(v & sub & x & Hin & Hx & Hn)].
  - apply quadFold_nan_acc, H.
  - generalize (LearnerGo.obj_Quad (LearnerGo.WrappedObjective d) delta s).
    induction (entries delta) as [|kv l IH]; [destruct Hin|].
    intros res. cbn [fold_left]. destruct Hin as [->|Hin].
    + apply quadFold_nan_acc. cbn [snd]. apply (quadLoop_nan_in _ _ _ Hx Hn).
    + apply IH, Hin.
Qed.

Lemma damped_Quad_NaN_witness :
  is_nan (LearnerGo.dampedObjective_Quad
            {| LearnerGo.WrappedObjective := Examples.nullObjective;
               LearnerGo.Coeff := 1%float |}
            (Some [(0%nat, [1%float; nan])]) Examples.oneSample) = true.
Proof.
  apply damped_Quad_NaN. right.
  exists 0%nat, [1%float; nan], nan.
  split; [left; reflexivity|]. split; [right; left; reflexivity|reflexivity].
Defined.

(* ================================================================== *)
(** * The damping learner: cycles *)
(* ================================================================== *)

Section Cycles.
Variable L : Type.
Variable ops : LearnerGo.Learner L.

(** The coefficient after [MakeObjective]. *)
Lemma MakeObjective_coeff (d : LearnerGo.DampingLearner L) :
  let d1 := snd (LearnerGo.DampingLearner_MakeObjective ops d) in
  LearnerGo.DampingCoeff d1
  = (if eqb (LearnerGo.DampingCoeff d) zero then LearnerGo.defaultDampingCoeff
     else LearnerGo.DampingCoeff d)
  /\ LearnerGo.WrappedLearner d1
     = snd (LearnerGo.MakeObjective ops (LearnerGo.WrappedLearner d))
  /\ LearnerGo.lastObjective d1
     = Some (fst (LearnerGo.MakeObjective ops (LearnerGo.WrappedLearner d))).
Proof.
  unfold LearnerGo.DampingLearner_MakeObjective.
  destruct (LearnerGo.MakeObjective ops (LearnerGo.WrappedLearner d)) as [o w].
  repeat split.
Qed.

(** [Adjust] on a learner that holds an objective. *)
Lemma Adjust_with_objective (d : LearnerGo.DampingLearner L)
    (o : LearnerGo.Objective) (delta : ConstParamDelta) (s : SampleSet)
    (vars : LearnerGo.VarStore) :
  LearnerGo.lastObjective d = Some o ->
  exists d',
    LearnerGo.DampingLearner_Adjust d delta s vars
    = Some (d', LearnerGo.AddToVars delta vars)
    /\ LearnerGo.WrappedLearner d' = LearnerGo.WrappedLearner d
    /\ LearnerGo.lastObjective d' = Some o
    /\ (LearnerGo.DampingCoeff d' = LearnerGo.DampingCoeff d
        \/ LearnerGo.DampingCoeff d' = mul (LearnerGo.DampingCoeff d) 1.5%float).
Proof.
  intros Ho. unfold LearnerGo.DampingLearner_Adjust. rewrite Ho.
  eexists. split; [reflexivity|]. cbn [LearnerGo.WrappedLearner
    LearnerGo.lastObjective LearnerGo.DampingCoeff].
  split; [reflexivity|]. split; [reflexivity|].
  set (rho := LearnerGo.trust o delta s).
  destruct (trust_zero_or_nan o delta s) as [Hz Hn]. fold rho in Hz, Hn.
  assert (Cases : is_zero rho = true \/ is_nan rho = true).
  { destruct (is_finite (LearnerGo.centerVal o s)) eqn:Fc;
      [|right; apply Hn; auto].
    destruct (is_nan (sub (LearnerGo.quadOffset o delta s)
                          (LearnerGo.centerVal o s))) eqn:N;
      [right; apply Hn; auto|].
    destruct (is_zero (sub (LearnerGo.quadOffset o delta s)
                           (LearnerGo.centerVal o s))) eqn:Z;
      [right; apply Hn; auto|].
    left. apply Hz; reflexivity. }
  destruct Cases as [H|H].
  - right. change (ratio 1 4) with 0.25%float.
    rewrite (@zero_below_quarter rho H). reflexivity.
  - left. change (ratio 1 4) with 0.25%float.
    rewrite (@f64_ltb_nan_l rho 0.25%float H). unfold gtb.
    change PrimFloat.ltb with ltb. change (ratio 3 4) with 0.75%float.
    rewrite (@f64_ltb_nan_r 0.75%float rho H). reflexivity.
Qed.

Lemma leb_of_eqb_zero (x : float64) :
  eqb x zero = true -> leb x 1%float = true /\ leb 0%float 1%float = true.
Proof.
  intros H. apply f64_eqb_iff in H. destruct H as (Hx & _ & E).
  split; [|reflexivity].
  apply f64_leb_iff. split; [exact Hx|]. split; [reflexivity|].
  rewrite E.
  assert (H01 : leb zero 1%float = true) by reflexivity.
  apply f64_leb_iff in H01. apply H01.
Qed.

Lemma cycle_runs (d : LearnerGo.DampingLearner L)
    (step : ConstParamDelta * SampleSet) (vars : LearnerGo.VarStore) :
  exists d',
    cycle ops d step vars = Some (d', LearnerGo.AddToVars (fst step) vars)
    /\ LearnerGo.WrappedLearner d'
       = snd (LearnerGo.MakeObjective ops (LearnerGo.WrappedLearner d))
    /\ LearnerGo.lastObjective d'
       = Some (fst (LearnerGo.MakeObjective ops (LearnerGo.WrappedLearner d)))
    /\ let c1 := if eqb (LearnerGo.DampingCoeff d) zero
                 then LearnerGo.defaultDampingCoeff
                 else LearnerGo.DampingCoeff d in
       LearnerGo.DampingCoeff d' = c1
       \/ LearnerGo.DampingCoeff d' = mul c1 1.5%float.
Proof.
  unfold cycle.
  destruct (MakeObjective_coeff d) as (Hc & Hw & Ho).
  destruct (@Adjust_with_objective _ _ (fst step) (snd step) vars Ho)
    as (d' & E & Hw' & Ho' & Hc').
  exists d'. split; [exact E|]. split; [congruence|]. split; [exact Ho'|].
  cbv zeta. rewrite <- Hc. exact Hc'.
Qed.

End Cycles.

(** X5.  Over any sequence of cycles, a damping coefficient that is not
    negative is never lowered; one that was left at zero is at least 1
    after the first cycle. *)
Theorem damping_cycles_never_lower :
  forall (L : Type) (ops : LearnerGo.Learner L)
         (steps : list (ConstParamDelta * SampleSet))
         (d : LearnerGo.DampingLearner L) (vars : LearnerGo.VarStore),
    leb 0%float (LearnerGo.DampingCoeff d) = true ->
    exists d' vars',
      cycles ops steps d vars = Some (d', vars')
      /\ leb (LearnerGo.DampingCoeff d) (LearnerGo.DampingCoeff d') = true
      /\ (steps <> [] -> eqb (LearnerGo.DampingCoeff d) 0%float = true ->
          leb 1%float (LearnerGo.DampingCoeff d') = true).
Proof.
  intros L ops steps. induction steps as [|step steps IH]; intros d vars Hd.
  - exists d, vars. split; [reflexivity|]. split.
    + apply f64_leb_refl. apply f64_leb_iff in Hd. apply Hd.
    + intros H. contradiction H. reflexivity.
  - cbn [cycles].
    destruct (cycle_runs ops d step vars) as (d1 & E & _ & _ & Hc).
    rewrite E. cbv zeta in Hc.
    set (c1 := if eqb (LearnerGo.DampingCoeff d) zero
               then LearnerGo.defaultDampingCoeff
               else LearnerGo.DampingCoeff d) in Hc.
    assert (H01 : leb 0%float c1 = true /\ leb (LearnerGo.DampingCoeff d) c1 = true).
    { unfold c1. destruct (eqb (LearnerGo.DampingCoeff d) zero) eqn:Ez.
      - destruct (leb_of_eqb_zero Ez) as [A B]. split; [exact B|exact A].
      - split; [exact Hd|]. apply f64_leb_refl.
        apply f64_leb_iff in Hd. apply Hd. }
    destruct H01 as [H0 H1].
    assert (H2 : leb c1 (LearnerGo.DampingCoeff d1) = true).
    { destruct Hc as [Hc|Hc]; rewrite Hc.
      - apply f64_leb_refl. apply f64_leb_iff in H0. apply H0.
      - apply mul_three_halves_ge, H0. }
    destruct (IH d1 (LearnerGo.AddToVars (fst step) vars)
                (f64_leb_trans H0 H2)) as (d' & vars' & E' & Hle & _).
    exists d', vars'. split; [exact E'|]. split.
    + eapply f64_leb_trans; [exact H1|]. eapply f64_leb_trans; eassumption.
    + intros _ Ez. unfold c1 in H2.
      change zero with 0%float in H2. rewrite Ez in H2.
      eapply f64_leb_trans; [exact H2|exact Hle].
Qed.

Lemma damping_cycles_never_lower_witness :
  exists d' vars',
    cycles (Examples.unitLearner Examples.squareObjective)
      [(Examples.stepOne, Examples.oneSample);
       (Examples.stepOne, Examples.oneSample)]
      {| LearnerGo.WrappedLearner := tt; LearnerGo.DampingCoeff := 0%float;
         LearnerGo.lastObjective := None |} []
    = Some (d', vars')
    /\ leb 0%float (LearnerGo.DampingCoeff d') = true
    /\ leb 1%float (LearnerGo.DampingCoeff d') = true.
Proof.
  destruct (@damping_cycles_never_lower unit
              (Examples.unitLearner Examples.squareObjective)
              [(Examples.stepOne, Examples.oneSample);
               (Examples.stepOne, Examples.oneSample)]
              {| LearnerGo.WrappedLearner := tt;
                 LearnerGo.DampingCoeff := 0%float;
                 LearnerGo.lastObjective := None |} [] eq_refl)
    as (d' & vars' & E & H0 & H1).
  exists d', vars'. split; [exact E|]. split; [exact H0|].
  apply H1; [discriminate|reflexivity].
Defined.

(* ================================================================== *)
(** * The linearizer: directions and LinearBatchR *)
(* ================================================================== *)

(** X6.  When the batcher's output along the direction of the outputs has
    the length of its derivative, as an [RResult] has it, [LinearBatchR]
    returns: its [Output] is that output plus the derivative, component by
    component, and its [ROutput] is the derivative alone of a second
    evaluation, along the direction of the derivatives, whose output is not
    read.  Over a delta with the direction of outputs of a [ParamDelta],
    the [Output] is the one of [LinearBatch]. *)
Theorem LinearBatchR_outputs :
  forall (D : Type) (m : LinearizerGo.ParamRDelta D)
         (l : LinearizerGo.Linearizer) (d : D) (ins : Vector) (n : Z),
    let output :=
      LinearizerGo.BatchR (LinearizerGo.Batcher l)
        (LinearizerGo.rd_outputRVector m d) (LinearizerGo.NewRVariable ins) n in
    let outputR :=
      LinearizerGo.BatchR (LinearizerGo.Batcher l)
        (LinearizerGo.rd_rOutputRVector m d) (LinearizerGo.NewRVariable ins) n in
    length (LinearizerGo.Output output) = length (LinearizerGo.ROutput output) ->
    (exists r,
        LinearizerGo.LinearBatchR m l d ins n = Some r
        /\ LinearizerGo.linearizerRResult_Output r
           = zipAdd (LinearizerGo.Output output) (LinearizerGo.ROutput output)
        /\ (forall i, (i < length (LinearizerGo.Output output))%nat ->
              nth i (LinearizerGo.linearizerRResult_Output r) zero
              = add (nth i (LinearizerGo.Output output) zero)
                    (nth i (LinearizerGo.ROutput output) zero))
        /\ LinearizerGo.linearizerRResult_ROutput r
           = LinearizerGo.ROutput outputR
        /\ LinearizerGo.BatcherOutputR r = output
        /\ LinearizerGo.DeltaR r = d)
    /\ (forall p : LinearizerGo.ParamDelta,
          LinearizerGo.rd_outputRVector m d = LinearizerGo.outputRVector p ->
          exists r r',
            LinearizerGo.LinearBatchR m l d ins n = Some r
            /\ LinearizerGo.LinearBatch l p ins n = Some r'
            /\ LinearizerGo.linearizerRResult_Output r
               = LinearizerGo.linearizerResult_Output r').
Proof.
  intros D m l d ins n output outputR Hlen.
  unfold LinearizerGo.LinearBatchR. fold output. fold outputR.
  rewrite (vecAdd_zipAdd _ _ Hlen). split.
  - eexists. split; [reflexivity|].
    unfold LinearizerGo.linearizerRResult_Output,
      LinearizerGo.linearizerRResult_ROutput.
    cbn [LinearizerGo.OutputVecR LinearizerGo.ROutputVec
         LinearizerGo.BatcherOutputR LinearizerGo.DeltaR].
    split; [reflexivity|]. split; [|repeat split].
    intros i Hi. apply nth_zipAdd; assumption.
  - intros p Hp. unfold LinearizerGo.LinearBatch. rewrite <- Hp. fold output.
    rewrite (vecAdd_zipAdd _ _ Hlen). eexists _, _.
    split; [reflexivity|]. split; reflexivity.
Qed.

Lemma LinearBatchR_outputs_witness :
  let m :=
    {| LinearizerGo.rd_outputRVector := LinearizerGo.outputRVector;
       LinearizerGo.rd_rOutputRVector := LinearizerGo.rOutputRVector |} in
  let d :=
    [(0%nat, {| LinearizerGo.Output := [3%float; 4%float];
                LinearizerGo.ROutput := [5%float; 6%float] |})] in
  exists r,
    LinearizerGo.LinearBatchR m
      {| LinearizerGo.Batcher := Examples.seedBatcher |} d
      [1%float; 2%float] 2%Z = Some r
    /\ LinearizerGo.linearizerRResult_Output r = [4%float; 6%float]
    /\ LinearizerGo.linearizerRResult_ROutput r = [5%float; 6%float].
Proof.
  intros m d.
  destruct (@LinearBatchR_outputs _ m
              {| LinearizerGo.Batcher := Examples.seedBatcher |} d
              [1%float; 2%float] 2%Z eq_refl)
    as [(r & H1 & H2 & _ & H4 & _) _].
  exists r. split; [exact H1|]. split.
  - rewrite H2. reflexivity.
  - rewrite H4. reflexivity.
Defined.

(* ================================================================== *)
(** * The solver: NaN, checkpoints and the first step *)
(* ================================================================== *)

(** X7.  [converging] never answers true when the last quadratic value or
    the starting objective is NaN. *)
Theorem converging_not_on_NaN :
  forall (cc : TrainerGo.ConvergenceCriteria) (c : TrainerGo.cgSolver),
    is_nan (TrainerGo.lastValue (TrainerGo.quadValues c)) = true
    \/ is_nan (TrainerGo.startObjective c) = true ->
    TrainerGo.converging cc c <> TrainerGo.Ok true.
Proof.
  intros cc c H E. apply converging_true_inv in E. cbv zeta in E.
  destruct E as (_ & _ & k & _ & _ & E).
  apply f64_ltb_iff in E. destruct E as (E & _ & _).
  apply div_not_nan in E. destruct E as (_ & E).
  apply sub_not_nan in E. destruct E as (E1 & E2).
  destruct H as [H|H]; congruence.
Qed.

Lemma converging_not_on_NaN_witness :
  TrainerGo.converging Examples.defaults
    (Examples.solverWith zero (repeat (of_Z (-1)) 10 ++ [nan]))
  <> TrainerGo.Ok true.
Proof.
  apply converging_not_on_NaN. left. reflexivity.
Defined.

(** X8.  [Best] is idempotent: called again on the solver it left, it
    returns the same delta and takes no further checkpoint; it changes
    neither the solution nor the recorded quadratic values. *)
Theorem Best_idempotent :
  forall (c c' : TrainerGo.cgSolver) (d : ConstParamDelta),
    TrainerGo.Best c = TrainerGo.Ok (d, c') ->
    TrainerGo.Best c' = TrainerGo.Ok (d, c')
    /\ TrainerGo.justBacktracked c' = true
    /\ TrainerGo.Solution c' = TrainerGo.Solution c
    /\ TrainerGo.quadValues c' = TrainerGo.quadValues c
    /\ (length (TrainerGo.backtrackValues c')
        <= S (length (TrainerGo.backtrackValues c)))%nat.
Proof.
  intros c c' d H. unfold TrainerGo.Best in H.
  destruct (TrainerGo.bestLoop _ _ 0 zero None) as [d0| |] eqn:E;
    try discriminate.
  injection H as <- <-.
  assert (J : TrainerGo.justBacktracked (TrainerGo.finalCheckpoint c) = true).
  { unfold TrainerGo.finalCheckpoint.
    destruct (TrainerGo.justBacktracked c) eqn:J; [exact J|reflexivity]. }
  split.
  - unfold TrainerGo.Best. rewrite (finalCheckpoint_taken _ J), E. reflexivity.
  - split; [exact J|].
    unfold TrainerGo.finalCheckpoint.
    destruct (TrainerGo.justBacktracked c);
      cbn [TrainerGo.Solution TrainerGo.quadValues TrainerGo.backtrackValues];
      repeat split; try lia.
    rewrite length_app. cbn [length]. lia.
Qed.

Lemma Best_idempotent_witness :
  TrainerGo.Best (TrainerGo.finalCheckpoint Examples.flatRun)
  = TrainerGo.Ok (TrainerGo.Solution Examples.flatRun,
                  TrainerGo.finalCheckpoint Examples.flatRun).
Proof.
  apply (@Best_idempotent Examples.flatRun
           (TrainerGo.finalCheckpoint Examples.flatRun)
           (TrainerGo.Solution Examples.flatRun)).
  reflexivity.
Defined.

Section Backtracking.
Variable L : Type.
Variable math_Pow : float64 -> float64 -> float64.
Variable t : TrainerGo.Trainer L.

Lemma backtrackLoop_spec (btRate : float64) (doneIters : Z) (fuel : nat) :
  forall count count',
    TrainerGo.backtrackLoop math_Pow fuel btRate doneIters count
    = TrainerGo.Ok count' ->
    (count <= count')%Z
    /\ (exists v, trunc (math_Pow btRate (of_Z count')) = Some v
                  /\ (doneIters < v)%Z)
    /\ (forall k, (count <= k < count')%Z ->
          exists v, trunc (math_Pow btRate (of_Z k)) = Some v
                    /\ (v <= doneIters)%Z).
Proof.
  induction fuel as [|fuel IH]; intros count count';
    cbn [TrainerGo.backtrackLoop]; [discriminate|].
  destruct (trunc (math_Pow btRate (of_Z count))) as [v|] eqn:E;
    [|discriminate].
  destruct (v <=? doneIters)%Z eqn:C.
  - intros H. apply IH in H. destruct H as (H1 & H2 & H3).
    split; [lia|]. split; [exact H2|].
    intros k Hk. destruct (Z.eq_dec k count) as [->|Hne].
    + exists v. split; [exact E|]. apply Z.leb_le, C.
    + apply H3. lia.
  - intros H. injection H as <-. split; [lia|]. split.
    + exists v. split; [exact E|]. apply Z.leb_gt, C.
    + intros k Hk. lia.
Qed.

Lemma backtrackLoop_stuck (btRate : float64) (doneIters : Z) :
  (forall y, exists v, trunc (math_Pow btRate y) = Some v
                       /\ (v <= doneIters)%Z) ->
  forall fuel count,
    TrainerGo.backtrackLoop math_Pow fuel btRate doneIters count
    = TrainerGo.Timeout.
Proof.
  intros H. induction fuel as [|fuel IH]; intros count;
    cbn [TrainerGo.backtrackLoop]; [reflexivity|].
  destruct (H (of_Z count)) as (v & E & Hv). rewrite E.
  apply Z.leb_le in Hv. rewrite Hv. apply IH.
Qed.

End Backtracking.

(** X9.  When [updateBacktracking] returns, the next checkpoint is due
    later than the iterations done: [int(rate^count)] is above the number
    of recorded values, and it was not for any count the call passed.  The
    call either changes nothing, or it raises the count and appends one
    checkpoint: a copy of the current solution with its true objective. *)
Theorem updateBacktracking_next_due :
  forall (L : Type) (math_Pow : float64 -> float64 -> float64)
         (t : TrainerGo.Trainer L) (fuel : nat) (c c' : TrainerGo.cgSolver),
    TrainerGo.updateBacktracking math_Pow t fuel c = TrainerGo.Ok c' ->
    let doneIters := Z.of_nat (length (TrainerGo.quadValues c)) in
    let btRate := if eqb (TrainerGo.t_BacktrackRate t) 0%float
                  then (13 / 10)%float else TrainerGo.t_BacktrackRate t in
    (exists v,
        trunc (math_Pow btRate (of_Z (TrainerGo.backtrackCount c'))) = Some v
        /\ (doneIters < v)%Z)
    /\ (forall k,
          (TrainerGo.backtrackCount c <= k < TrainerGo.backtrackCount c')%Z ->
          exists v, trunc (math_Pow btRate (of_Z k)) = Some v
                    /\ (v <= doneIters)%Z)
    /\ (c' = c
        \/ ((TrainerGo.backtrackCount c < TrainerGo.backtrackCount c')%Z
            /\ TrainerGo.justBacktracked c' = true
            /\ TrainerGo.backtrackDeltas c'
               = TrainerGo.backtrackDeltas c ++ [copy (TrainerGo.Solution c)]
            /\ TrainerGo.backtrackValues c'
               = TrainerGo.backtrackValues c
                 ++ [TrainerGo.obj_Objective (TrainerGo.c_Objective c)
                       (TrainerGo.Solution c) (TrainerGo.c_Samples c)]))
    /\ TrainerGo.Solution c' = TrainerGo.Solution c
    /\ TrainerGo.quadValues c' = TrainerGo.quadValues c.
Proof.
  intros L math_Pow t fuel c c' H doneIters btRate.
  unfold TrainerGo.updateBacktracking in H.
  change (TrainerGo.orDefault (TrainerGo.t_BacktrackRate t)
            TrainerGo.defaultBacktrackRate) with btRate in H.
  fold doneIters in H.
  destruct (trunc (math_Pow btRate (of_Z (TrainerGo.backtrackCount c))))
    as [v|] eqn:E; [|discriminate].
  destruct (v >? doneIters)%Z eqn:C.
  - injection H as <-. split.
    + exists v. split; [exact E|]. apply Z.gtb_lt in C. exact C.
    + split; [intros k Hk; lia|]. split; [left; reflexivity|].
      split; reflexivity.
  - destruct (TrainerGo.backtrackLoop math_Pow fuel btRate doneIters
                (TrainerGo.backtrackCount c)) as [count| |] eqn:B;
      try discriminate.
    injection H as <-.
    cbn [TrainerGo.backtrackCount TrainerGo.justBacktracked
         TrainerGo.backtrackDeltas TrainerGo.backtrackValues
         TrainerGo.Solution TrainerGo.quadValues].
    destruct (backtrackLoop_spec _ _ _ _ _ B) as (H1 & H2 & H3).
    split; [exact H2|]. split; [exact H3|].
    split; [|split; reflexivity].
    right. split; [|repeat split].
    destruct (Z.eq_dec count (TrainerGo.backtrackCount c)) as [->|Hne];
      [|lia].
    destruct H2 as (v' & E' & Hv'). rewrite E in E'. injection E' as <-.
    rewrite Z.gtb_ltb in C. apply Z.ltb_ge in C. lia.
Qed.

Lemma updateBacktracking_next_due_witness :
  let t := Examples.trainer2 (Examples.stopAfter 1) Examples.growingObjective in
  let c := Examples.solverWith zero (repeat zero 16) in
  exists c',
    TrainerGo.updateBacktracking Examples.powInt t 9 c = TrainerGo.Ok c'
    /\ TrainerGo.backtrackCount c = 4%Z
    /\ TrainerGo.backtrackCount c' = 5%Z
    /\ exists v,
        trunc (Examples.powInt 2%float (of_Z (TrainerGo.backtrackCount c')))
        = Some v /\ (16 < v)%Z.
Proof.
  intros t c.
  destruct (TrainerGo.updateBacktracking Examples.powInt t 9 c) as [c'| |] eqn:E;
    [|exfalso; vm_compute in E; discriminate
     |exfalso; vm_compute in E; discriminate].
  exists c'. split; [reflexivity|]. split; [reflexivity|].
  split.
  - assert (H : option_map TrainerGo.backtrackCount
                  (match TrainerGo.updateBacktracking Examples.powInt t 9 c with
                   | TrainerGo.Ok x => Some x | _ => None end) = Some 5%Z)
      by (vm_compute; reflexivity).
    rewrite E in H. injection H as H. exact H.
  - apply (@updateBacktracking_next_due unit Examples.powInt t 9 c c' E).
Defined.

(* ================================================================== *)
(** * The solver: what a step records *)
(* ================================================================== *)

Section Steps.
Variable L : Type.
Variable math_Pow : float64 -> float64 -> float64.
Variable t : TrainerGo.Trainer L.

(** What [initializeIfNeeded] leaves alone. *)
Lemma initializeIfNeeded_keeps (c : TrainerGo.cgSolver) (w : TrainerGo.World L) :
  let c0 := fst (TrainerGo.initializeIfNeeded t c w) in
  TrainerGo.quadValues c0 = TrainerGo.quadValues c
  /\ TrainerGo.backtrackDeltas c0 = TrainerGo.backtrackDeltas c
  /\ TrainerGo.backtrackValues c0 = TrainerGo.backtrackValues c
  /\ TrainerGo.backtrackCount c0 = TrainerGo.backtrackCount c
  /\ TrainerGo.justBacktracked c0 = TrainerGo.justBacktracked c
  /\ TrainerGo.lastQuadValue c0 = TrainerGo.lastQuadValue c
  /\ TrainerGo.c_Objective c0 = TrainerGo.c_Objective c
  /\ TrainerGo.c_Samples c0 = TrainerGo.c_Samples c
  /\ TrainerGo.Solution c0
     = (if isNil (TrainerGo.Solution c)
        then TrainerGo.zeroDelta t (TrainerGo.learner w)
        else TrainerGo.Solution c).
Proof.
  unfold TrainerGo.initializeIfNeeded.
  destruct (isNil (TrainerGo.residual c)); cbn; repeat split.
Qed.

(** What the update of an iteration leaves alone. *)
Lemma iterate_keeps (c : TrainerGo.cgSolver) (w : TrainerGo.World L) :
  let c1 := fst (TrainerGo.iterate c w) in
  (exists q, TrainerGo.quadValues c1 = TrainerGo.quadValues c ++ [q])
  /\ TrainerGo.backtrackDeltas c1 = TrainerGo.backtrackDeltas c
  /\ TrainerGo.backtrackValues c1 = TrainerGo.backtrackValues c
  /\ TrainerGo.backtrackCount c1 = TrainerGo.backtrackCount c
  /\ TrainerGo.lastQuadValue c1 = TrainerGo.lastQuadValue c
  /\ TrainerGo.c_Objective c1 = TrainerGo.c_Objective c
  /\ TrainerGo.c_Samples c1 = TrainerGo.c_Samples c.
Proof.
  unfold TrainerGo.iterate. cbn. split; [eexists; reflexivity|]. repeat split.
Qed.

(** What [updateBacktracking] leaves alone. *)
Lemma updateBacktracking_keeps (fuel : nat) (c c' : TrainerGo.cgSolver) :
  TrainerGo.updateBacktracking math_Pow t fuel c = TrainerGo.Ok c' ->
  TrainerGo.quadValues c' = TrainerGo.quadValues c
  /\ TrainerGo.lastQuadValue c' = TrainerGo.lastQuadValue c
  /\ TrainerGo.c_Objective c' = TrainerGo.c_Objective c
  /\ TrainerGo.c_Samples c' = TrainerGo.c_Samples c
  /\ TrainerGo.Solution c' = TrainerGo.Solution c
  /\ (TrainerGo.backtrackCount c <= TrainerGo.backtrackCount c')%Z
  /\ ((TrainerGo.backtrackDeltas c' = TrainerGo.backtrackDeltas c
       /\ TrainerGo.backtrackValues c' = TrainerGo.backtrackValues c)
      \/ (TrainerGo.backtrackDeltas c'
          = TrainerGo.backtrackDeltas c ++ [copy (TrainerGo.Solution c)]
          /\ TrainerGo.backtrackValues c'
             = TrainerGo.backtrackValues c
               ++ [TrainerGo.obj_Objective (TrainerGo.c_Objective c)
                     (TrainerGo.Solution c) (TrainerGo.c_Samples c)]
          /\ TrainerGo.justBacktracked c' = true)).
Proof.
  unfold TrainerGo.updateBacktracking.
  destruct (trunc _) as [v|]; [|discriminate].
  destruct (v >? _)%Z.
  - intros H. injection H as <-. repeat split; try lia. left. split; reflexivity.
  - destruct (TrainerGo.backtrackLoop _ _ _ _ _) as [count| |] eqn:B;
      try discriminate.
    intros H. injection H as <-. cbn.
    apply backtrackLoop_spec in B. destruct B as (B & _).
    repeat split; try lia. right. repeat split.
Qed.

(** The first value recorded never counts as converged. *)
Lemma converging_one_value (cc : TrainerGo.ConvergenceCriteria)
    (c : TrainerGo.cgSolver) :
  (length (TrainerGo.quadValues c) < 2)%nat ->
  TrainerGo.converging cc c = TrainerGo.Ok false.
Proof.
  intros H. unfold TrainerGo.converging.
  apply Nat.ltb_lt in H. rewrite H. reflexivity.
Qed.

End Steps.

(** X10.  A call of [Step] that returns true has performed exactly one
    iteration: one quadratic value is recorded and logged, at most one
    checkpoint is taken, and the backtrack count is not lowered.  A call
    that returns false records one value (the run has converged) or none
    (the step was degenerate), and takes no checkpoint.  [Step] never
    writes [lastQuadValue]. *)
Theorem Step_records_one_value :
  forall (L : Type) (math_Pow : float64 -> float64 -> float64)
         (t : TrainerGo.Trainer L) (fuel : nat) (c c' : TrainerGo.cgSolver)
         (w w' : TrainerGo.World L) (b : bool),
    TrainerGo.Step math_Pow t fuel c w = TrainerGo.Ok (b, c', w') ->
    let w0 := snd (TrainerGo.initializeIfNeeded t c w) in
    ((exists stepSize q,
         TrainerGo.quadValues c' = TrainerGo.quadValues c ++ [q]
         /\ TrainerGo.trace w'
            = TrainerGo.trace w0 ++ [TrainerGo.EvLogCGIteration stepSize q])
     \/ (b = false
         /\ TrainerGo.quadValues c' = TrainerGo.quadValues c
         /\ w' = w0))
    /\ (TrainerGo.backtrackValues c' = TrainerGo.backtrackValues c
        \/ (b = true
            /\ exists v,
                TrainerGo.backtrackValues c'
                = TrainerGo.backtrackValues c ++ [v]))
    /\ (length (TrainerGo.backtrackDeltas c')
        + length (TrainerGo.backtrackValues c)
        = length (TrainerGo.backtrackValues c')
          + length (TrainerGo.backtrackDeltas c))%nat
    /\ (TrainerGo.backtrackCount c <= TrainerGo.backtrackCount c')%Z
    /\ TrainerGo.lastQuadValue c' = TrainerGo.lastQuadValue c.
Proof.
  intros L math_Pow t fuel c c' w w' b H w0.
  unfold TrainerGo.Step in H.
  pose proof (initializeIfNeeded_keeps t c w) as K0. cbv zeta in K0.
  subst w0.
  destruct (TrainerGo.initializeIfNeeded t c w) as [c0 w0].
  cbn [fst snd] in *.
  destruct K0 as (Q0 & D0 & V0 & C0 & _ & LQ0 & _).
  destruct (TrainerGo.degenerate c0).
  { injection H as <- <- <-. rewrite Q0, D0, V0, C0, LQ0.
    split; [right; repeat split|]. split; [left; reflexivity|].
    split; [lia|]. split; [lia|reflexivity]. }
  pose proof (iterate_keeps c0 w0) as K1. cbv zeta in K1.
  assert (T1 : exists stepSize q,
             TrainerGo.quadValues (fst (TrainerGo.iterate c0 w0))
             = TrainerGo.quadValues c0 ++ [q]
             /\ TrainerGo.trace (snd (TrainerGo.iterate c0 w0))
                = TrainerGo.trace w0 ++ [TrainerGo.EvLogCGIteration stepSize q]).
  { unfold TrainerGo.iterate. cbn. eexists _, _. split; reflexivity. }
  destruct (TrainerGo.iterate c0 w0) as [c1 w1]. cbn [fst snd] in *.
  destruct K1 as (_ & D1 & V1 & C1 & LQ1 & _).
  destruct T1 as (stepSize & q & Q1 & T1).
  destruct (TrainerGo.converging _ c1) as [[|]| |]; try discriminate.
  { injection H as <- <- <-. rewrite Q1, D1, V1, C1, LQ1, Q0, D0, V0, C0, LQ0.
    split; [left; exists stepSize, q; split; [reflexivity|exact T1]|].
    split; [left; reflexivity|]. split; [lia|].
    split; [lia|reflexivity]. }
  destruct (TrainerGo.updateBacktracking math_Pow t fuel c1) as [c2| |] eqn:U;
    try discriminate.
  injection H as <- <- <-.
  apply updateBacktracking_keeps in U.
  destruct U as (Q2 & LQ2 & _ & _ & _ & C2 & B2).
  rewrite Q2, LQ2, Q1, LQ1, Q0, LQ0.
  split; [left; exists stepSize, q; split; [reflexivity|exact T1]|].
  rewrite <- D0, <- V0, <- D1, <- V1.
  destruct B2 as [[D2 V2]|(D2 & V2 & _)]; rewrite D2, V2.
  - split; [left; reflexivity|]. split; [lia|].
    split; [lia|reflexivity].
  - split; [right; split; [reflexivity|eexists; reflexivity]|].
    split; [rewrite !length_app; cbn [length]; lia|].
    split; [lia|reflexivity].
Qed.

Lemma Step_records_one_value_witness :
  let t := Examples.trainer2 (Examples.stopAfter 2) Examples.growingObjective in
  let c := TrainerGo.newSolver Examples.growingObjective [0%nat] None in
  let w := {| TrainerGo.learner := tt; TrainerGo.trace := [] |} in
  exists c' w',
    TrainerGo.Step Examples.powInt t 5 c w = TrainerGo.Ok (true, c', w')
    /\ length (TrainerGo.quadValues c') = 1%nat
    /\ TrainerGo.lastQuadValue c' = zero.
Proof.
  intros t c w.
  destruct (TrainerGo.Step Examples.powInt t 5 c w) as [[[b c'] w']| |] eqn:E;
    [|exfalso; vm_compute in E; discriminate
     |exfalso; vm_compute in E; discriminate].
  assert (Hb : b = true).
  { assert (H : match TrainerGo.Step Examples.powInt t 5 c w with
                | TrainerGo.Ok (b, _, _) => b | _ => false end = true)
      by (vm_compute; reflexivity).
    rewrite E in H. exact H. }
  subst b. exists c', w'. split; [reflexivity|].
  destruct (@Step_records_one_value unit Examples.powInt t 5 c c' w w' true E)
    as (H1 & _ & _ & _ & H5).
  split; [|exact H5].
  destruct H1 as [(stepSize & q & H1 & _)|(H1 & _)]; [|discriminate].
  rewrite H1. reflexivity.
Defined.

(** X11.  With a backtrack rate whose powers, cut to whole numbers, never
    exceed 1 (the rate 1 is one), the first [Step] of a solver whose start
    is not degenerate never returns: the loop of [updateBacktracking] does
    not end. *)
Theorem Step_hangs_on_flat_rate :
  forall (L : Type) (math_Pow : float64 -> float64 -> float64)
         (t : TrainerGo.Trainer L) (c : TrainerGo.cgSolver)
         (w : TrainerGo.World L),
    let btRate := if eqb (TrainerGo.t_BacktrackRate t) 0%float
                  then (13 / 10)%float else TrainerGo.t_BacktrackRate t in
    (forall y, exists v, trunc (math_Pow btRate y) = Some v /\ (v <= 1)%Z) ->
    TrainerGo.quadValues c = [] ->
    TrainerGo.degenerate (fst (TrainerGo.initializeIfNeeded t c w)) = false ->
    forall fuel, TrainerGo.Step math_Pow t fuel c w = TrainerGo.Timeout.
Proof.
  intros L math_Pow t c w btRate HP HQ HD fuel.
  unfold TrainerGo.Step.
  pose proof (initializeIfNeeded_keeps t c w) as K0. cbv zeta in K0.
  destruct (TrainerGo.initializeIfNeeded t c w) as [c0 w0].
  cbn [fst snd] in *. destruct K0 as (Q0 & _).
  rewrite HD.
  pose proof (iterate_keeps c0 w0) as K1. cbv zeta in K1.
  destruct (TrainerGo.iterate c0 w0) as [c1 w1]. cbn [fst snd] in *.
  destruct K1 as ((q & Q1) & _).
  rewrite Q0, HQ in Q1. cbn [app] in Q1.
  rewrite converging_one_value by (rewrite Q1; cbn; lia).
  unfold TrainerGo.updateBacktracking.
  change (TrainerGo.orDefault (TrainerGo.t_BacktrackRate t)
            TrainerGo.defaultBacktrackRate) with btRate.
  rewrite Q1. cbn [length].
  destruct (HP (of_Z (TrainerGo.backtrackCount c1))) as (v & E & Hv).
  rewrite E.
  assert (C : (v >? Z.of_nat 1)%Z = false).
  { rewrite Z.gtb_ltb. apply Z.ltb_ge. lia. }
  rewrite C.
  rewrite (@backtrackLoop_stuck math_Pow btRate (Z.of_nat 1)); [reflexivity|].
  intros y. destruct (HP y) as (v' & E' & Hv'). exists v'. split; [exact E'|lia].
Qed.

Lemma Step_hangs_on_flat_rate_witness :
  let pow := fun b e : float64 =>
               if eqb b 1%float then 1%float else Examples.powInt b e in
  let t :=
    {| TrainerGo.t_Learner := Examples.fixedLearner Examples.growingObjective;
       TrainerGo.t_Samples := [0%nat];
       TrainerGo.t_BatchSize := 1%Z;
       TrainerGo.t_UI := Examples.stopAfter 1;
       TrainerGo.t_Convergence := Examples.defaults;
       TrainerGo.t_BacktrackRate := 1%float |} in
  TrainerGo.Step pow t 1000
    (TrainerGo.newSolver Examples.growingObjective [0%nat] None)
    {| TrainerGo.learner := tt; TrainerGo.trace := [] |}
  = TrainerGo.Timeout.
Proof.
  intros pow t.
  apply (@Step_hangs_on_flat_rate unit pow t).
  - intros y. exists 1%Z. split; [reflexivity|lia].
  - reflexivity.
  - vm_compute. reflexivity.
Defined.

(** X12.  When [math.Pow] gives 1 at the exponent 0, the first iterate of a
    run is always a checkpoint: after a first [Step] that returns true the
    solver holds the copy of its solution with the true objective there,
    and the count has moved on. *)
Theorem first_iterate_checkpointed :
  forall (L : Type) (math_Pow : float64 -> float64 -> float64)
         (t : TrainerGo.Trainer L) (fuel : nat) (c c' : TrainerGo.cgSolver)
         (w w' : TrainerGo.World L),
    let btRate := if eqb (TrainerGo.t_BacktrackRate t) 0%float
                  then (13 / 10)%float else TrainerGo.t_BacktrackRate t in
    trunc (math_Pow btRate (of_Z 0)) = Some 1%Z ->
    TrainerGo.quadValues c = [] ->
    TrainerGo.backtrackCount c = 0%Z ->
    TrainerGo.Step math_Pow t fuel c w = TrainerGo.Ok (true, c', w') ->
    TrainerGo.backtrackDeltas c'
    = TrainerGo.backtrackDeltas c ++ [copy (TrainerGo.Solution c')]
    /\ TrainerGo.backtrackValues c'
       = TrainerGo.backtrackValues c
         ++ [TrainerGo.obj_Objective (TrainerGo.c_Objective c)
               (TrainerGo.Solution c') (TrainerGo.c_Samples c)]
    /\ TrainerGo.justBacktracked c' = true
    /\ (1 <= TrainerGo.backtrackCount c')%Z.
Proof.
  intros L math_Pow t fuel c c' w w' btRate HP HQ HC H.
  unfold TrainerGo.Step in H.
  pose proof (initializeIfNeeded_keeps t c w) as K0. cbv zeta in K0.
  destruct (TrainerGo.initializeIfNeeded t c w) as [c0 w0].
  cbn [fst snd] in *.
  destruct K0 as (Q0 & D0 & V0 & C0 & _ & _ & O0 & S0 & _).
  destruct (TrainerGo.degenerate c0); [discriminate|].
  pose proof (iterate_keeps c0 w0) as K1. cbv zeta in K1.
  destruct (TrainerGo.iterate c0 w0) as [c1 w1]. cbn [fst snd] in *.
  destruct K1 as ((q & Q1) & D1 & V1 & C1 & _ & O1 & S1).
  destruct (TrainerGo.converging _ c1) as [[|]| |]; try discriminate.
  destruct (TrainerGo.updateBacktracking math_Pow t fuel c1) as [c2| |] eqn:U;
    try discriminate.
  injection H as <- <-.
  unfold TrainerGo.updateBacktracking in U.
  change (TrainerGo.orDefault (TrainerGo.t_BacktrackRate t)
            TrainerGo.defaultBacktrackRate) with btRate in U.
  rewrite Q1, Q0, HQ, C1, C0, HC in U. cbn [app length] in U.
  rewrite HP in U. cbn in U.
  destruct fuel as [|fuel]; cbn [TrainerGo.backtrackLoop] in U;
    [discriminate|].
  rewrite HP in U. cbn in U.
  destruct (TrainerGo.backtrackLoop math_Pow fuel btRate 1 1) as [count| |] eqn:B;
    try discriminate.
  injection U as <-. cbn.
  apply backtrackLoop_spec in B. destruct B as (B & _).
  rewrite D1, D0, V1, V0, O1, O0, S1, S0. repeat split. exact B.
Qed.

Lemma first_iterate_checkpointed_witness :
  let t := Examples.trainer2 (Examples.stopAfter 2) Examples.growingObjective in
  let c := TrainerGo.newSolver Examples.growingObjective [0%nat] None in
  let w := {| TrainerGo.learner := tt; TrainerGo.trace := [] |} in
  exists c' w',
    TrainerGo.Step Examples.powInt t 5 c w = TrainerGo.Ok (true, c', w')
    /\ TrainerGo.backtrackDeltas c' = [copy (TrainerGo.Solution c')]
    /\ TrainerGo.justBacktracked c' = true.
Proof.
  intros t c w.
  destruct (TrainerGo.Step Examples.powInt t 5 c w) as [[[b c'] w']| |] eqn:E;
    [|exfalso; vm_compute in E; discriminate
     |exfalso; vm_compute in E; discriminate].
  assert (Hb : b = true).
  { assert (H : match TrainerGo.Step Examples.powInt t 5 c w with
                | TrainerGo.Ok (b, _, _) => b | _ => false end = true)
      by (vm_compute; reflexivity).
    rewrite E in H. exact H. }
  subst b. exists c', w'. split; [reflexivity|].
  destruct (@first_iterate_checkpointed unit Examples.powInt t 5 c c' w w'
              eq_refl eq_refl eq_refl E) as (H1 & _ & H3 & _).
  split; [exact H1|exact H3].
Defined.

(** X13.  When the first [Step] of a solver [Train] has built returns
    false, no iteration was made (a first value never counts as
    converged), and [Best] returns the starting point: the solution kept of
    the mini-batch before, or the zero delta over the parameters when none
    was kept. *)
Theorem first_Step_false_keeps_start :
  forall (L : Type) (math_Pow : float64 -> float64 -> float64)
         (t : TrainerGo.Trainer L) (fuel : nat) (o : TrainerGo.Objective)
         (subset : SampleSet) (lastSolution : ConstParamDelta)
         (c' : TrainerGo.cgSolver) (w w' : TrainerGo.World L),
    TrainerGo.Step math_Pow t fuel (TrainerGo.newSolver o subset lastSolution) w
    = TrainerGo.Ok (false, c', w') ->
    let start := if isNil lastSolution
                 then TrainerGo.zeroDelta t (TrainerGo.learner w)
                 else lastSolution in
    TrainerGo.quadValues c' = []
    /\ TrainerGo.Solution c' = start
    /\ exists c'',
        TrainerGo.Best c' = TrainerGo.Ok (start, c'')
        /\ TrainerGo.Solution c'' = start
        /\ TrainerGo.backtrackValues c''
           = [TrainerGo.obj_Objective o start subset].
Proof.
  intros L math_Pow t fuel o subset lastSolution c' w w' H start.
  unfold TrainerGo.Step in H.
  pose proof (initializeIfNeeded_keeps t
                (TrainerGo.newSolver o subset lastSolution) w) as K0.
  cbv zeta in K0.
  destruct (TrainerGo.initializeIfNeeded t _ w) as [c0 w0].
  cbn [fst snd] in *.
  destruct K0 as (Q0 & D0 & V0 & _ & J0 & _ & O0 & S0 & X0).
  cbn in Q0, D0, V0, J0, O0, S0, X0. fold start in X0.
  destruct (TrainerGo.degenerate c0).
  - injection H as <- <-. split; [exact Q0|]. split; [exact X0|].
    unfold TrainerGo.Best, TrainerGo.finalCheckpoint.
    rewrite J0, D0, V0, X0, O0, S0. cbn. rewrite orb_true_r.
    eexists. split; [reflexivity|]. split; reflexivity.
  - pose proof (iterate_keeps c0 w0) as K1. cbv zeta in K1.
    destruct (TrainerGo.iterate c0 w0) as [c1 w1]. cbn [fst snd] in *.
    destruct K1 as ((q & Q1) & _).
    rewrite Q0 in Q1. cbn [app] in Q1.
    rewrite converging_one_value in H by (rewrite Q1; cbn; lia).
    destruct (TrainerGo.updateBacktracking math_Pow t fuel c1);
      discriminate.
Qed.

Lemma first_Step_false_keeps_start_witness :
  let t := Examples.trainer2 (Examples.stopAfter 2) Examples.growingObjective in
  let w := {| TrainerGo.learner := tt; TrainerGo.trace := [] |} in
  let kept := Some [(0%nat, [2%float; 0.0625%float])] in
  exists c' w' c'',
    TrainerGo.Step Examples.powInt t 5
      (TrainerGo.newSolver Examples.growingObjective [1%nat] kept) w
    = TrainerGo.Ok (false, c', w')
    /\ TrainerGo.Best c' = TrainerGo.Ok (kept, c'').
Proof.
  intros t w kept.
  destruct (TrainerGo.Step Examples.powInt t 5
              (TrainerGo.newSolver Examples.growingObjective [1%nat] kept) w)
    as [[[b c'] w']| |] eqn:E;
    [|exfalso; vm_compute in E; discriminate
     |exfalso; vm_compute in E; discriminate].
  assert (Hb : b = false).
  { assert (H : match TrainerGo.Step Examples.powInt t 5
                        (TrainerGo.newSolver Examples.growingObjective
                           [1%nat] kept) w with
                | TrainerGo.Ok (b, _, _) => b | _ => true end = false)
      by (vm_compute; reflexivity).
    rewrite E in H. exact H. }
  subst b.
  destruct (@first_Step_false_keeps_start unit Examples.powInt t 5
              Examples.growingObjective [1%nat] kept c' w w' E)
    as (_ & _ & c'' & H & _).
  exists c', w', c''. split; [reflexivity|exact H].
Defined.

(* ================================================================== *)
(** * The solver: counts over a run *)
(* ================================================================== *)

Section Counts.
Variable L : Type.
Variable math_Pow : float64 -> float64 -> float64.
Variable t : TrainerGo.Trainer L.

Lemma Step_counts (fuel : nat) (c c' : TrainerGo.cgSolver)
    (w w' : TrainerGo.World L) (b : bool) :
  TrainerGo.Step math_Pow t fuel c w = TrainerGo.Ok (b, c', w') ->
  countsInOrder c -> countsInOrder c'.
Proof.
  unfold TrainerGo.Step, countsInOrder. intros H (HD & HV & HC & HL).
  pose proof (initializeIfNeeded_keeps t c w) as K0. cbv zeta in K0.
  destruct (TrainerGo.initializeIfNeeded t c w) as [c0 w0].
  cbn [fst snd] in *.
  destruct K0 as (Q0 & D0 & V0 & C0 & _ & LQ0 & _).
  destruct (TrainerGo.degenerate c0).
  { injection H as _ <- _. rewrite Q0, D0, V0, C0, LQ0. auto. }
  pose proof (iterate_keeps c0 w0) as K1. cbv zeta in K1.
  destruct (TrainerGo.iterate c0 w0) as [c1 w1]. cbn [fst snd] in *.
  destruct K1 as ((q & Q1) & D1 & V1 & C1 & LQ1 & _).
  destruct (TrainerGo.converging _ c1) as [[|]| |]; try discriminate.
  { injection H as _ <- _. rewrite Q1, D1, V1, C1, LQ1, Q0, D0, V0, C0, LQ0.
    rewrite length_app. cbn [length]. repeat split; try assumption. lia. }
  destruct (TrainerGo.updateBacktracking math_Pow t fuel c1) as [c2| |] eqn:U;
    try discriminate.
  injection H as _ <- _.
  apply updateBacktracking_keeps in U.
  destruct U as (Q2 & LQ2 & _ & _ & _ & C2 & B2).
  rewrite Q2, LQ2, Q1, LQ1, Q0, LQ0, length_app. cbn [length].
  destruct B2 as [[D2 V2]|(D2 & V2 & _)]; rewrite D2, V2, D1, V1, D0, V0;
    rewrite ?length_app; cbn [length]; repeat split; try assumption; lia.
Qed.

End Counts.

(** X14.  On every solver that a run can reach, there are as many
    checkpoints as recorded true objectives, and no more of them than
    quadratic values recorded; the backtrack count is not negative, and
    [lastQuadValue] still has the zero it started with: no function writes
    it. *)
Theorem reachable_counts :
  forall (L : Type) (math_Pow : float64 -> float64 -> float64)
         (t : TrainerGo.Trainer L) (o : TrainerGo.Objective) (s : SampleSet)
         (c : TrainerGo.cgSolver),
    reachable math_Pow t o s c ->
    length (TrainerGo.backtrackDeltas c) = length (TrainerGo.backtrackValues c)
    /\ (length (TrainerGo.backtrackValues c)
        <= length (TrainerGo.quadValues c))%nat
    /\ (0 <= TrainerGo.backtrackCount c)%Z
    /\ TrainerGo.lastQuadValue c = zero.
Proof.
  intros L math_Pow t o s c H. change (countsInOrder c).
  induction H as [lastSolution|fuel c c' w w' b _ IH E].
  - unfold countsInOrder. cbn. repeat split; lia.
  - eapply Step_counts; eassumption.
Qed.

Lemma reachable_counts_witness :
  let t := Examples.trainer2 (Examples.stopAfter 2) Examples.growingObjective in
  let w := {| TrainerGo.learner := tt; TrainerGo.trace := [] |} in
  let c := stepsFrom Examples.powInt t 5 3
             (TrainerGo.newSolver Examples.growingObjective [0%nat] None) w in
  length (TrainerGo.quadValues c) = 2%nat
  /\ (length (TrainerGo.backtrackValues c) <= length (TrainerGo.quadValues c))%nat.
Proof.
  intros t w c. split; [vm_compute; reflexivity|].
  apply (@reachable_counts unit Examples.powInt t Examples.growingObjective
           [0%nat] c).
  apply reachable_stepsFrom. apply reach_new.
Defined.

(* ================================================================== *)
(** * The trainer: mini-batches *)
(* ================================================================== *)

Section Histories.
Variable L : Type.
Variable math_Pow : float64 -> float64 -> float64.
Variable shuffle : nat -> SampleSet -> SampleSet.
Variable t : TrainerGo.Trainer L.

(** A property of events that the logs of the solver and the polls of the
    mini-batch [miniBatch] of [epoch] have. *)
Variable P : TrainerGo.Event -> Prop.

Lemma Forall_log (w : TrainerGo.World L) (e : TrainerGo.Event) :
  Forall P (TrainerGo.trace w) -> P e ->
  Forall P (TrainerGo.trace (TrainerGo.logEvent e w)).
Proof.
  intros H He. unfold TrainerGo.logEvent. cbn [TrainerGo.trace].
  apply Forall_app. split; [exact H|]. constructor; [exact He|constructor].
Qed.

Hypothesis P_start : forall q s, P (TrainerGo.EvLogCGStart q s).
Hypothesis P_iteration : forall a q, P (TrainerGo.EvLogCGIteration a q).

Lemma Step_Forall (fuel : nat) (c c' : TrainerGo.cgSolver)
    (w w' : TrainerGo.World L) (b : bool) :
  TrainerGo.Step math_Pow t fuel c w = TrainerGo.Ok (b, c', w') ->
  Forall P (TrainerGo.trace w) -> Forall P (TrainerGo.trace w').
Proof.
  unfold TrainerGo.Step. intros H Hw.
  assert (H0 : Forall P (TrainerGo.trace
                           (snd (TrainerGo.initializeIfNeeded t c w)))).
  { unfold TrainerGo.initializeIfNeeded.
    destruct (isNil (TrainerGo.residual c)); cbn [snd]; [|exact Hw].
    apply Forall_log; [exact Hw|apply P_start]. }
  destruct (TrainerGo.initializeIfNeeded t c w) as [c0 w0]. cbn [snd] in H0.
  destruct (TrainerGo.degenerate c0).
  { injection H as _ _ <-. exact H0. }
  assert (H1 : Forall P (TrainerGo.trace (snd (TrainerGo.iterate c0 w0)))).
  { unfold TrainerGo.iterate. cbn [snd].
    apply Forall_log; [exact H0|apply P_iteration]. }
  destruct (TrainerGo.iterate c0 w0) as [c1 w1]. cbn [snd] in H1.
  destruct (TrainerGo.converging _ c1) as [[|]| |]; try discriminate.
  { injection H as _ _ <-. exact H1. }
  destruct (TrainerGo.updateBacktracking math_Pow t fuel c1) as [c2| |];
    try discriminate.
  injection H as _ _ <-. exact H1.
Qed.

Lemma cgLoop_Forall (epoch miniBatch : nat) :
  (forall answer,
      P (TrainerGo.EvShouldStop TrainerGo.AfterStep epoch miniBatch answer)) ->
  forall (fuel : nat) (c : TrainerGo.cgSolver) (w : TrainerGo.World L),
    Forall P (TrainerGo.trace w) ->
    Forall P (loopTrace (TrainerGo.cgLoop math_Pow t fuel epoch miniBatch c w)).
Proof.
  intros Hp. induction fuel as [|fuel IH]; intros c w Hw;
    cbn [TrainerGo.cgLoop loopTrace]; [exact Hw|].
  destruct (TrainerGo.Step math_Pow t fuel c w) as [[[b c'] w']| |] eqn:E;
    [|exact Hw|exact Hw].
  pose proof (Step_Forall _ _ _ E Hw) as Hw'.
  destruct b; [|exact Hw'].
  unfold TrainerGo.poll.
  destruct (TrainerGo.ShouldStop (TrainerGo.t_UI t) (TrainerGo.trace w')).
  - cbn [loopTrace]. apply Forall_log; [exact Hw'|apply Hp].
  - apply IH. apply Forall_log; [exact Hw'|apply Hp].
Qed.

(** A property of the state of the two loops of [Train] that every turn
    keeps. *)
Variable I : nat -> nat -> Z -> SampleSet -> Prop.

Hypothesis I_next_batch :
  forall epoch miniBatch i shuffled,
    I epoch miniBatch i shuffled -> (i < Len shuffled)%Z ->
    I epoch (S miniBatch) (i + TrainerGo.t_BatchSize t)%Z shuffled.

Hypothesis I_next_epoch :
  forall epoch miniBatch i shuffled,
    I epoch miniBatch i shuffled -> (Len shuffled <= i)%Z ->
    I (S epoch) 0%nat 0%Z (shuffle (S epoch) (TrainerGo.t_Samples t)).

Hypothesis P_batch :
  forall epoch miniBatch i shuffled subset,
    I epoch miniBatch i shuffled -> (i < Len shuffled)%Z ->
    TrainerGo.Subset shuffled i
      (i + (if (TrainerGo.t_BatchSize t >? Len shuffled - i)%Z
            then Len shuffled - i else TrainerGo.t_BatchSize t))%Z
    = Some subset ->
    (forall site answer,
        P (TrainerGo.EvShouldStop site epoch miniBatch answer))
    /\ P (TrainerGo.EvLogNewMiniBatch epoch miniBatch)
    /\ forall useDelta lastSolution,
        P (TrainerGo.EvAdjust epoch miniBatch useDelta lastSolution subset).

Lemma trainLoop_Forall (fuel : nat) :
  forall (epoch miniBatch : nat) (i : Z) (shuffled : SampleSet)
         (lastSolution : ConstParamDelta) (w : TrainerGo.World L),
    I epoch miniBatch i shuffled ->
    Forall P (TrainerGo.trace w) ->
    Forall P
      (outcomeTrace
         (TrainerGo.trainLoop math_Pow shuffle t fuel epoch miniBatch i
            shuffled lastSolution w)).
Proof.
  induction fuel as [|fuel IH]; intros epoch miniBatch i shuffled lastSolution w
    HI Hw; cbn [TrainerGo.trainLoop outcomeTrace]; [exact Hw|].
  destruct (i <? Len shuffled)%Z eqn:Ci.
  2:{ apply IH; [|exact Hw]. apply Z.ltb_ge in Ci.
      eapply I_next_epoch; eassumption. }
  apply Z.ltb_lt in Ci.
  destruct (TrainerGo.Subset shuffled i _) as [subset|] eqn:ES; [|exact Hw].
  destruct (P_batch HI Ci ES) as (Pp & Pn & Pa).
  unfold TrainerGo.poll.
  destruct (TrainerGo.ShouldStop (TrainerGo.t_UI t) (TrainerGo.trace w)).
  { cbn [outcomeTrace]. apply Forall_log; [exact Hw|apply Pp]. }
  destruct (TrainerGo.MakeObjective (TrainerGo.t_Learner t) _) as [o l].
  set (w3 := {| TrainerGo.learner := l; TrainerGo.trace := _ |}).
  assert (H3 : Forall P (TrainerGo.trace w3)).
  { unfold w3. cbn [TrainerGo.trace].
    apply Forall_log; [|exact Pn]. apply Forall_log; [exact Hw|apply Pp]. }
  pose proof (@cgLoop_Forall epoch miniBatch (Pp TrainerGo.AfterStep) fuel
                (TrainerGo.newSolver o subset lastSolution) w3 H3) as HC.
  destruct (TrainerGo.cgLoop math_Pow t fuel epoch miniBatch _ w3)
    as [[[c|] w4]|w4|w4]; cbn [loopTrace] in HC; try exact HC.
  destruct (TrainerGo.Best c) as [[useDelta c']| |]; try exact HC.
  apply IH.
  - apply I_next_batch; assumption.
  - cbn [TrainerGo.trace]. apply Forall_app. split; [exact HC|].
    constructor; [apply Pa|constructor].
Qed.

End Histories.

Lemma Subset_miniBatchOf (b : Z) (s subset : SampleSet) (m : nat) :
  (1 <= b)%Z ->
  (Z.of_nat m * b < Len s)%Z ->
  TrainerGo.Subset s (Z.of_nat m * b)
    (Z.of_nat m * b
     + (if (b >? Len s - Z.of_nat m * b)%Z then Len s - Z.of_nat m * b else b))
  = Some subset ->
  subset = miniBatchOf b s m
  /\ (1 <= Z.of_nat (length subset) <= b)%Z.
Proof.
  intros Hb Hi. unfold TrainerGo.Subset, miniBatchOf, Len in *.
  set (i := (Z.of_nat m * b)%Z) in *.
  set (n := Z.of_nat (length s)) in *.
  assert (Ei : Z.to_nat i = (m * Z.to_nat b)%nat).
  { subst i. rewrite Z2Nat.inj_mul by lia. rewrite Nat2Z.id. reflexivity. }
  destruct (_ && _)%bool; [|discriminate].
  intros H. injection H as <-.
  replace (i + (if (b >? n - i)%Z then n - i else b) - i)%Z
    with (if (b >? n - i)%Z then n - i else b)%Z by lia.
  rewrite Ei.
  assert (Hl : length (skipn (m * Z.to_nat b) s) = Z.to_nat (n - i)).
  { rewrite length_skipn, <- Ei. subst n. lia. }
  destruct (b >? n - i)%Z eqn:C.
  - rewrite Z.gtb_ltb in C. apply Z.ltb_lt in C.
    rewrite !firstn_all2 by lia.
    split; [reflexivity|]. rewrite Hl. lia.
  - rewrite Z.gtb_ltb in C. apply Z.ltb_ge in C.
    split; [reflexivity|]. rewrite length_firstn, Hl. lia.
Qed.

(** X15.  With a batch size of at least 1, every delta [Train] commits is
    committed for the mini-batch of its number: the samples from
    [m * BatchSize] on of the epoch's shuffled order, [BatchSize] of them
    or those that are left, and never none. *)
Theorem Train_commits_slices :
  forall (L : Type) (math_Pow : float64 -> float64 -> float64)
         (shuffle : nat -> SampleSet -> SampleSet) (t : TrainerGo.Trainer L)
         (fuel : nat) (l : L),
    (1 <= TrainerGo.t_BatchSize t)%Z ->
    Forall (committedSlice shuffle t)
      (outcomeTrace (TrainerGo.Train math_Pow shuffle t fuel l)).
Proof.
  intros L math_Pow shuffle t fuel l Hb. unfold TrainerGo.Train.
  apply (@trainLoop_Forall L math_Pow shuffle t (committedSlice shuffle t))
    with (I := fun epoch miniBatch i shuffled =>
                 i = (Z.of_nat miniBatch * TrainerGo.t_BatchSize t)%Z
                 /\ shuffled = shuffle epoch (TrainerGo.t_Samples t)).
  - intros; exact I.
  - intros; exact I.
  - intros epoch miniBatch i shuffled [-> ->] _. split; [lia|reflexivity].
  - intros epoch miniBatch i shuffled _ _. split; [lia|reflexivity].
  - intros epoch miniBatch i shuffled subset [-> ->] Hi ES.
    split; [intros; exact I|]. split; [exact I|].
    intros useDelta lastSolution. cbn [committedSlice].
    apply Subset_miniBatchOf; assumption.
  - split; [lia|reflexivity].
  - constructor.
Qed.

Lemma Train_commits_slices_witness :
  Forall (committedSlice Examples.keepOrder
            (Examples.trainer2 (Examples.stopAfter 2) Examples.growingObjective))
    (outcomeTrace
       (TrainerGo.Train Examples.powInt Examples.keepOrder
          (Examples.trainer2 (Examples.stopAfter 2) Examples.growingObjective)
          50 tt)).
Proof.
  apply Train_commits_slices. cbn. lia.
Defined.

(** X16.  With a batch size of 0 and samples at hand, [Train] never leaves
    the first position of the first epoch: every mini-batch it runs, and
    every delta it commits, is for no sample at all. *)
Theorem Train_zero_batch_stuck :
  forall (L : Type) (math_Pow : float64 -> float64 -> float64)
         (shuffle : nat -> SampleSet -> SampleSet) (t : TrainerGo.Trainer L)
         (fuel : nat) (l : L),
    TrainerGo.t_BatchSize t = 0%Z ->
    shuffle 0%nat (TrainerGo.t_Samples t) <> [] ->
    Forall stuckAtStart
      (outcomeTrace (TrainerGo.Train math_Pow shuffle t fuel l)).
Proof.
  intros L math_Pow shuffle t fuel l Hb Hs. unfold TrainerGo.Train.
  assert (Hlen : (0 < Len (shuffle 0%nat (TrainerGo.t_Samples t)))%Z).
  { unfold Len. destruct (shuffle 0%nat (TrainerGo.t_Samples t));
      [contradiction Hs; reflexivity|cbn [length]; lia]. }
  apply (@trainLoop_Forall L math_Pow shuffle t stuckAtStart)
    with (I := fun epoch miniBatch i shuffled =>
                 epoch = 0%nat /\ i = 0%Z
                 /\ shuffled = shuffle 0%nat (TrainerGo.t_Samples t)).
  - intros; exact I.
  - intros; exact I.
  - intros epoch miniBatch i shuffled (-> & -> & ->) _. rewrite Hb.
    repeat split.
  - intros epoch miniBatch i shuffled (-> & -> & ->) H. lia.
  - intros epoch miniBatch i shuffled subset (-> & -> & ->) _ ES.
    rewrite Hb in ES. unfold TrainerGo.Subset in ES.
    destruct (0 >? _)%Z eqn:C; [rewrite Z.gtb_ltb in C; apply Z.ltb_lt in C; lia|].
    destruct (_ && _)%bool; [|discriminate].
    injection ES as <-. cbn.
    split; [intros; reflexivity|]. split; [reflexivity|].
    intros; split; reflexivity.
  - repeat split.
  - constructor.
Qed.

Lemma Train_zero_batch_stuck_witness :
  let t :=
    {| TrainerGo.t_Learner := Examples.fixedLearner Examples.growingObjective;
       TrainerGo.t_Samples := [0%nat; 1%nat];
       TrainerGo.t_BatchSize := 0%Z;
       TrainerGo.t_UI := Examples.stopAfter 3;
       TrainerGo.t_Convergence := Examples.defaults;
       TrainerGo.t_BacktrackRate := 2%float |} in
  Forall stuckAtStart
    (outcomeTrace (TrainerGo.Train Examples.powInt Examples.keepOrder t 50 tt))
  /\ length (filter Examples.isAdjust
       (outcomeTrace
          (TrainerGo.Train Examples.powInt Examples.keepOrder t 50 tt)))
     = 3%nat.
Proof.
  intros t. split.
  - apply Train_zero_batch_stuck; [reflexivity|discriminate].
  - vm_compute. reflexivity.
Defined.

(* ================================================================== *)
(** * The trainer: the edges of Train *)
(* ================================================================== *)

(** X17.  Without samples [Train] neither returns nor panics, and it never
    polls [ShouldStop]: it passes from epoch to epoch, leaving the learner
    and the history as they were. *)
Theorem Train_no_samples_spins :
  forall (L : Type) (math_Pow : float64 -> float64 -> float64)
         (shuffle : nat -> SampleSet -> SampleSet) (t : TrainerGo.Trainer L)
         (l : L),
    (forall epoch, shuffle epoch (TrainerGo.t_Samples t) = []) ->
    forall fuel,
      TrainerGo.Train math_Pow shuffle t fuel l
      = TrainerGo.OutOfFuel {| TrainerGo.learner := l; TrainerGo.trace := [] |}.
Proof.
  intros L math_Pow shuffle t l Hs fuel. unfold TrainerGo.Train.
  rewrite Hs. generalize 0%nat at 1 as epoch. generalize 0%nat as miniBatch.
  generalize (@None (list (VarId * Vector))) as lastSolution.
  induction fuel as [|fuel IH]; intros lastSolution miniBatch epoch;
    cbn [TrainerGo.trainLoop]; [reflexivity|].
  change (0 <? Len [])%Z with false. cbv iota. rewrite Hs. apply IH.
Qed.

Lemma Train_no_samples_spins_witness :
  let t :=
    {| TrainerGo.t_Learner := Examples.fixedLearner Examples.growingObjective;
       TrainerGo.t_Samples := [];
       TrainerGo.t_BatchSize := 1%Z;
       TrainerGo.t_UI := Examples.stopAfter 0;
       TrainerGo.t_Convergence := Examples.defaults;
       TrainerGo.t_BacktrackRate := 2%float |} in
  TrainerGo.ShouldStop (TrainerGo.t_UI t) [] = true
  /\ TrainerGo.Train Examples.powInt Examples.keepOrder t 1000 tt
     = TrainerGo.OutOfFuel {| TrainerGo.learner := tt; TrainerGo.trace := [] |}.
Proof.
  intros t. split; [reflexivity|].
  apply Train_no_samples_spins. intros epoch. reflexivity.
Defined.

(** X18.  With a batch size below zero and samples at hand, [Train] panics
    on the slice of its first mini-batch, before the first poll of
    [ShouldStop] and before the learner is asked for an objective. *)
Theorem Train_negative_batch_panics :
  forall (L : Type) (math_Pow : float64 -> float64 -> float64)
         (shuffle : nat -> SampleSet -> SampleSet) (t : TrainerGo.Trainer L)
         (fuel : nat) (l : L),
    (TrainerGo.t_BatchSize t < 0)%Z ->
    shuffle 0%nat (TrainerGo.t_Samples t) <> [] ->
    TrainerGo.Train math_Pow shuffle t (S fuel) l
    = TrainerGo.Panicked {| TrainerGo.learner := l; TrainerGo.trace := [] |}.
Proof.
  intros L math_Pow shuffle t fuel l Hb Hs. unfold TrainerGo.Train.
  cbn [TrainerGo.trainLoop].
  assert (Hlen : (0 < Len (shuffle 0%nat (TrainerGo.t_Samples t)))%Z).
  { unfold Len. destruct (shuffle 0%nat (TrainerGo.t_Samples t));
      [contradiction Hs; reflexivity|cbn [length]; lia]. }
  apply Z.ltb_lt in Hlen. rewrite Hlen. apply Z.ltb_lt in Hlen.
  assert (C : (TrainerGo.t_BatchSize t
               >? Len (shuffle 0%nat (TrainerGo.t_Samples t)) - 0)%Z = false).
  { rewrite Z.gtb_ltb. apply Z.ltb_ge. lia. }
  rewrite C. unfold TrainerGo.Subset.
  assert (C2 : (0 <=? 0 + TrainerGo.t_BatchSize t)%Z = false)
    by (apply Z.leb_gt; lia).
  rewrite C2. reflexivity.
Qed.

Lemma Train_negative_batch_panics_witness :
  let t :=
    {| TrainerGo.t_Learner := Examples.fixedLearner Examples.growingObjective;
       TrainerGo.t_Samples := [0%nat; 1%nat];
       TrainerGo.t_BatchSize := (-1)%Z;
       TrainerGo.t_UI := Examples.stopAfter 0;
       TrainerGo.t_Convergence := Examples.defaults;
       TrainerGo.t_BacktrackRate := 2%float |} in
  TrainerGo.Train Examples.powInt Examples.keepOrder t 50 tt
  = TrainerGo.Panicked {| TrainerGo.learner := tt; TrainerGo.trace := [] |}.
Proof.
  intros t.
  apply (@Train_negative_batch_panics unit Examples.powInt Examples.keepOrder
           t 49 tt); [cbn; lia|discriminate].
Defined.

(* ================================================================== *)
(** * The trainer: one commit for a mini-batch *)
(* ================================================================== *)

Section Once.
Variable L : Type.
Variable math_Pow : float64 -> float64 -> float64.
Variable shuffle : nat -> SampleSet -> SampleSet.
Variable t : TrainerGo.Trainer L.

Lemma trainLoop_once (fuel : nat) :
  forall (epoch miniBatch : nat) (i : Z) (shuffled : SampleSet)
         (lastSolution : ConstParamDelta) (w : TrainerGo.World L),
    (forall e m, (epoch < e \/ (epoch = e /\ miniBatch <= m))%nat ->
                 filter (isAdjustOf e m) (TrainerGo.trace w) = []) ->
    (forall e m, (length (filter (isAdjustOf e m) (TrainerGo.trace w)) <= 1)%nat) ->
    forall e m,
      (length (filter (isAdjustOf e m)
                 (outcomeTrace
                    (TrainerGo.trainLoop math_Pow shuffle t fuel epoch
                       miniBatch i shuffled lastSolution w))) <= 1)%nat.
Proof.
  induction fuel as [|fuel IH]; intros epoch miniBatch i shuffled lastSolution w
    Ha Hl; cbn [TrainerGo.trainLoop outcomeTrace]; [exact Hl|].
  destruct (i <? Len shuffled)%Z.
  2:{ apply IH; [|exact Hl]. intros e m H. apply Ha. lia. }
  destruct (TrainerGo.Subset shuffled i _) as [subset|]; [|exact Hl].
  unfold TrainerGo.poll.
  destruct (TrainerGo.ShouldStop (TrainerGo.t_UI t) (TrainerGo.trace w)) eqn:P.
  { intros e m. cbn [outcomeTrace TrainerGo.logEvent TrainerGo.trace].
    rewrite filter_app. cbn [filter isAdjustOf]. rewrite app_nil_r. apply Hl. }
  destruct (TrainerGo.MakeObjective (TrainerGo.t_Learner t) _) as [o l].
  set (w3 := {| TrainerGo.learner := l; TrainerGo.trace := _ |}).
  assert (H3 : sameMarks w w3).
  { unfold sameMarks, w3. cbn [TrainerGo.logEvent TrainerGo.trace].
    split; [|intros e m]; rewrite !filter_app; cbn [filter isStop isAdjustOf];
      rewrite !app_nil_r; reflexivity. }
  pose proof (cgLoop_marks math_Pow t fuel epoch miniBatch
                (TrainerGo.newSolver o subset lastSolution) w3) as HC.
  destruct (TrainerGo.cgLoop math_Pow t fuel epoch miniBatch _ w3)
    as [[[c|] w4]|w4|w4].
  - pose proof (sameMarks_trans H3 HC) as [_ H5].
    destruct (TrainerGo.Best c) as [[useDelta c']| |];
      try (intros e m; cbn [outcomeTrace]; rewrite H5; apply Hl).
    apply IH; cbn [TrainerGo.trace].
    + intros e m H. rewrite filter_app. cbn [filter isAdjustOf].
      rewrite H5, (Ha e m) by lia.
      destruct (epoch =? e)%nat eqn:E1; [|reflexivity].
      destruct (miniBatch =? m)%nat eqn:E2; [|reflexivity].
      apply Nat.eqb_eq in E1, E2. lia.
    + intros e m. rewrite filter_app, length_app. cbn [filter isAdjustOf].
      rewrite H5.
      destruct ((epoch =? e)%nat && (miniBatch =? m)%nat)%bool eqn:E.
      * apply andb_true_iff in E. destruct E as [E1 E2].
        apply Nat.eqb_eq in E1, E2. rewrite (Ha e m) by lia. cbn. lia.
      * cbn [length]. specialize (Hl e m). lia.
  - destruct HC as (w1 & H1 & H2).
    pose proof (sameMarks_trans H3 H1) as [_ H5].
    intros e m. cbn [outcomeTrace]. rewrite H2, filter_app.
    cbn [filter isAdjustOf]. rewrite app_nil_r, H5. apply Hl.
  - pose proof (sameMarks_trans H3 HC) as [_ H5].
    intros e m. cbn [outcomeTrace]. rewrite H5. apply Hl.
  - pose proof (sameMarks_trans H3 HC) as [_ H5].
    intros e m. cbn [outcomeTrace]. rewrite H5. apply Hl.
Qed.

End Once.

(** X19.  In a run of [Train], however it ends, [Learner.Adjust] is called
    at most once for a mini-batch of an epoch. *)
Theorem Train_adjusts_once :
  forall (L : Type) (math_Pow : float64 -> float64 -> float64)
         (shuffle : nat -> SampleSet -> SampleSet) (t : TrainerGo.Trainer L)
         (fuel : nat) (l : L) (epoch miniBatch : nat),
    (length (filter (isAdjustOf epoch miniBatch)
               (outcomeTrace (TrainerGo.Train math_Pow shuffle t fuel l)))
     <= 1)%nat.
Proof.
  intros L math_Pow shuffle t fuel l epoch miniBatch. unfold TrainerGo.Train.
  apply trainLoop_once; cbn [TrainerGo.trace filter length]; intros; [reflexivity|lia].
Qed.

(* ================================================================== *)
(** * The solver: the zero delta *)
(* ================================================================== *)

(** X20.  [zeroDelta] is never nil, has the variables of the learner's
    parameters, and gives each of them zeros only, as many as the parameter
    has components. *)
Theorem zeroDelta_zeros :
  forall (L : Type) (t : TrainerGo.Trainer L) (l : L) (v : VarId),
    let params := TrainerGo.Parameters (TrainerGo.t_Learner t) l in
    isNil (TrainerGo.zeroDelta t l) = false
    /\ (forall k, In k (map fst (entries (TrainerGo.zeroDelta t l)))
                   <-> In k (map fst params))
    /\ getVec (TrainerGo.zeroDelta t l) v
       = repeat zero
           (length (match lookupVar params v with Some x => x | None => [] end))
    /\ (forall i, nth i (getVec (TrainerGo.zeroDelta t l) v) zero = zero).
Proof.
  intros L t l v. cbv zeta. unfold TrainerGo.zeroDelta.
  generalize (TrainerGo.Parameters (TrainerGo.t_Learner t) l) as params.
  intros params.
  match goal with |- context [isNil ?x] => set (d := x) end.
  assert (G : getVec d v
              = repeat zero
                  (length (match lookupVar params v with
                           | Some x => x | None => [] end))).
  { subst d. unfold getVec. cbn [entries].
    induction params as [|[k x] params IH]; cbn; [reflexivity|].
    destruct (Nat.eqb k v); [reflexivity|exact IH]. }
  split; [reflexivity|].
  split; [intros k; subst d; cbn [entries]; rewrite map_map; reflexivity|].
  split; [exact G|].
  intros i. rewrite G. apply nth_repeat.
Qed.
